(** * CodeTrack: spaced-repetition scheduler, review sessions and study-group matcher

    A shallow embedding of [services/spaced_repetition.py] and of the scoring
    part of [services/study_group_matcher.py].

    - Python [float] is IEEE-754 binary64: it is modelled by Rocq's primitive
      [float], whose operations are specified by [SpecFloat].
    - Python [int] is [Z].
    - A raised Python exception is the [Raise] outcome of the [res] monad.
    - [datetime] is the number of microseconds since 0001-01-01T00:00:00.
    - The in-memory session table (a [dict] keyed by session id) is a
      [gmap string ReviewSession]; the flashcard table is a list of rows. *)

From Stdlib Require Import ZArith Lia List Bool String Ascii Floats Sorting.Sorted.
From stdpp Require Import base option list gmap strings pretty.

Set Warnings "-inexact-float".
Local Open Scope Z_scope.

(** ** Python exceptions and the error monad *)

Inductive PyExn : Type :=
  | OverflowError
  | ValueError
  | ZeroDivisionError
  | IndexError.

Inductive res (A : Type) : Type :=
  | Ok (a : A)
  | Raise (e : PyExn).
Arguments Ok {A} a.
Arguments Raise {A} e.

Definition res_bind {A B : Type} (m : res A) (k : A -> res B) : res B :=
  match m with
  | Ok a => k a
  | Raise e => Raise e
  end.

Notation "'let?' x ':=' m 'in' k" := (res_bind m (fun x => k))
  (at level 10, x name, m at level 100, k at level 200).

(** ** Python numeric primitives on binary64 *)

Module PyFloat.

Definition pow2 (n : Z) : Z := 2 ^ n.

(** [round_half_even num den]: the integer nearest to [num / den]
    ([den > 0]), ties going to the even neighbour. *)
Definition round_half_even (num den : Z) : Z :=
  let q := num / den in
  let r := num mod den in
  match 2 * r ?= den with
  | Lt => q
  | Gt => q + 1
  | Eq => if Z.even q then q else q + 1
  end.

(** [float(z)] for an [int] [z]: the nearest binary64, ties to even;
    [OverflowError] when the result is not finite. *)
Definition of_int (z : Z) : res float :=
  match binary_normalize prec emax z 0 false with
  | S754_infinity _ => Raise OverflowError
  | sf => Ok (SF2Prim sf)
  end.

(** [int(x)]: truncation toward zero; [ValueError] on NaN and
    [OverflowError] on an infinity. *)
Definition to_int (x : float) : res Z :=
  match Prim2SF x with
  | S754_zero _ => Ok 0
  | S754_nan => Raise ValueError
  | S754_infinity _ => Raise OverflowError
  | S754_finite s m e =>
      let a := if 0 <=? e then Z.pos m * pow2 e else Z.pos m / pow2 (- e) in
      Ok (if s then - a else a)
  end.

(** [math.floor(x)]. *)
Definition floor (x : float) : res Z :=
  match Prim2SF x with
  | S754_zero _ => Ok 0
  | S754_nan => Raise ValueError
  | S754_infinity _ => Raise OverflowError
  | S754_finite s m e =>
      if 0 <=? e then Ok (if s then - (Z.pos m * pow2 e) else Z.pos m * pow2 e)
      else Ok ((if s then Z.neg m else Z.pos m) / pow2 (- e))
  end.

(** [a / b] on two [int]s: the correctly rounded quotient. *)
Definition int_truediv (a b : Z) : res float :=
  match a, b with
  | _, Z0 => Raise ZeroDivisionError
  | Z0, _ => Ok 0%float
  | Zpos p, Zpos q =>
      match SFdiv prec emax (S754_finite false p 0) (S754_finite false q 0) with
      | S754_infinity _ => Raise OverflowError
      | sf => Ok (SF2Prim sf)
      end
  | Zneg p, Zneg q =>
      match SFdiv prec emax (S754_finite true p 0) (S754_finite true q 0) with
      | S754_infinity _ => Raise OverflowError
      | sf => Ok (SF2Prim sf)
      end
  | Zpos p, Zneg q =>
      match SFdiv prec emax (S754_finite false p 0) (S754_finite true q 0) with
      | S754_infinity _ => Raise OverflowError
      | sf => Ok (SF2Prim sf)
      end
  | Zneg p, Zpos q =>
      match SFdiv prec emax (S754_finite true p 0) (S754_finite false q 0) with
      | S754_infinity _ => Raise OverflowError
      | sf => Ok (SF2Prim sf)
      end
  end.

(** The integer nearest to [10^digits * x] (ties to even) for a finite [x]
    with mantissa [m] and exponent [e]. *)
Definition scaled_round (digits : Z) (m : positive) (e : Z) : Z :=
  if 0 <=? e then 10 ^ digits * Z.pos m * pow2 e
  else round_half_even (10 ^ digits * Z.pos m) (pow2 (- e)).

(** [round(x, digits)] for [digits >= 0]: the decimal with [digits]
    fractional digits nearest to the exact value of [x] (ties to even),
    read back as the nearest binary64. *)
Definition round_to (digits : Z) (x : float) : float :=
  match Prim2SF x with
  | S754_finite s m e =>
      match scaled_round digits m e with
      | Zpos n =>
          SF2Prim (SFdiv prec emax (S754_finite s n 0)
                                   (S754_finite false (Z.to_pos (10 ^ digits)) 0))
      | _ => SF2Prim (S754_zero s)
      end
  | _ => x
  end.

(** [z < x] for an [int] [z] and a [float] [x]: the comparison is exact. *)
Definition int_lt_float (z : Z) (x : float) : bool :=
  match Prim2SF x with
  | S754_nan => false
  | S754_infinity s => negb s
  | S754_zero _ => z <? 0
  | S754_finite s m e =>
      let v := if s then Z.neg m else Z.pos m in
      if 0 <=? e then z <? v * pow2 e else z * pow2 (- e) <? v
  end.

(** Two-argument [min(a, b)] and [max(a, b)]: the first argument is kept
    unless the second compares strictly better. *)
Definition min (a b : float) : float := if (b <? a)%float then b else a.
Definition max (a b : float) : float := if (a <? b)%float then b else a.

(** [sum(xs)] over floats, as the plain left-to-right accumulation
    (CPython before 3.12) ... *)
Definition sum (xs : list float) : float :=
  fold_left (fun acc x => (acc + x)%float) xs 0%float.

(** ... and as Neumaier's compensated accumulation (CPython 3.12 on). *)
Definition sum_step (st : float * float) (x : float) : float * float :=
  let '(f_result, c) := st in
  let t := (f_result + x)%float in
  let c' :=
    if (abs x <=? abs f_result)%float
    then (c + ((f_result - t) + x))%float
    else (c + ((x - t) + f_result))%float in
  (t, c').

Definition is_finite (x : float) : bool :=
  match Prim2SF x with
  | S754_zero _ | S754_finite _ _ _ => true
  | _ => false
  end.

Definition sum_compensated (xs : list float) : float :=
  match xs with
  | [] => 0%float
  | x :: rest =>
      let '(f_result, c) := fold_left sum_step rest ((0 + x)%float, 0%float) in
      if negb (c =? 0)%float && is_finite c then (f_result + c)%float else f_result
  end.

End PyFloat.

(** ** datetime and timedelta *)

Module DateTime.

Definition us_per_second : Z := 1000000.
Definition us_per_day : Z := 86400 * us_per_second.

(** [datetime.max] is 9999-12-31T23:59:59.999999: day 3652058 counted from
    0001-01-01. *)
Definition max_us : Z := 3652059 * us_per_day - 1.

(** [dt + timedelta(days=d)]. *)
Definition add_days (dt d : Z) : res Z :=
  if 999999999 <? Z.abs d then Raise OverflowError
  else
    let t := dt + d * us_per_day in
    if (0 <=? t) && (t <=? max_us) then Ok t else Raise OverflowError.

(** [(a - b).total_seconds()]. *)
Definition total_seconds (a b : Z) : res float :=
  PyFloat.int_truediv (a - b) (10 ^ 6).

(** Proleptic Gregorian date (year, month, day) of the day numbered [d]
    from 0001-01-01 (day 0). *)
Definition civil_from_days (d : Z) : Z * Z * Z :=
  let z := d + 306 in
  let era := z / 146097 in
  let doe := z - era * 146097 in
  let yoe := (doe - doe / 1460 + doe / 36524 - doe / 146096) / 365 in
  let y := yoe + era * 400 in
  let doy := doe - (365 * yoe + yoe / 4 - yoe / 100) in
  let mp := (5 * doy + 2) / 153 in
  let day := doy - (153 * mp + 2) / 5 + 1 in
  let m := if mp <? 10 then mp + 3 else mp - 9 in
  (if m <=? 2 then y + 1 else y, m, day).

(** A decimal padded with zeros on the left to [width] characters. *)
Fixpoint zeros (n : nat) : string :=
  match n with
  | O => ""
  | S n' => String "0" (zeros n')
  end.

Definition pad_left (width : nat) (s : string) : string :=
  zeros (width - String.length s) +:+ s.

Definition digits (width : nat) (n : Z) : string := pad_left width (pretty n).

(** [dt.strftime('%Y%m%d_%H%M%S')]. *)
Definition strftime (dt : Z) : string :=
  let '(y, m, d) := civil_from_days (dt / us_per_day) in
  let sod := (dt mod us_per_day) / us_per_second in
  digits 4 y +:+ digits 2 m +:+ digits 2 d +:+ "_" +:+
  digits 2 (sod / 3600) +:+ digits 2 (sod mod 3600 / 60) +:+ digits 2 (sod mod 60).

End DateTime.

(** ** SM2Algorithm *)

Module SM2.

(** The card dictionary handed to the scheduler.  The dictionaries built by
    [_get_due_cards] carry every key, so the [.get] defaults of
    [calculate_next_review] are never used and the fields are plain. *)
Record CardData : Type := {
  id : Z;
  topic : string;
  question : string;
  answer : string;
  category : option string;
  difficulty : option string;
  ease_factor : float;
  interval : Z;
  repetition_count : Z;
  review_count : Z;
  is_ai_generated : bool
}.

Record ReviewResult : Type := {
  card_id : Z;
  quality : Z;
  previous_interval : Z;
  new_interval : Z;
  previous_ease_factor : float;
  new_ease_factor : float;
  repetitions : Z;
  next_review : Z;
  rr_review_count : Z
}.

Definition min_ease_factor : float := 1.3%float.
Definition max_ease_factor : float := 4.0%float.
Definition default_ease_factor : float := 2.5%float.
Definition default_interval : Z := 1.
Definition minimum_interval : Z := 1.

(** [_update_ease_factor]. *)
Definition _update_ease_factor (current_ease_factor : float) (quality : Z) : res float :=
  let? k := PyFloat.of_int (5 - quality) in
  let new_ease_factor :=
    (current_ease_factor + (0.1 - k * (0.08 + k * 0.02)))%float in
  let new_ease_factor :=
    PyFloat.max min_ease_factor (PyFloat.min max_ease_factor new_ease_factor) in
  Ok (PyFloat.round_to 2 new_ease_factor).

(** The out-of-range guard of [calculate_next_review]. *)
Definition validate_quality (quality : Z) : Z :=
  if (quality <? 0) || (4 <? quality) then 0 else quality.

(** [calculate_next_review]; [now] is the reading of [datetime.now()]. *)
Definition calculate_next_review (now : Z) (card_data : CardData) (quality : Z)
  : res ReviewResult :=
  let ease := ease_factor card_data in
  let quality := validate_quality quality in
  let? ri :=
    if quality <? 3 then Ok (0, 1)
    else
      let repetitions := repetition_count card_data + 1 in
      if repetitions =? 1 then Ok (repetitions, 1)
      else if repetitions =? 2 then Ok (repetitions, 6)
      else
        let? i := PyFloat.of_int (interval card_data) in
        let? n := PyFloat.to_int (i * ease)%float in
        Ok (repetitions, n) in
  let '(repetitions, new_int) := ri in
  let? new_ease := _update_ease_factor ease quality in
  let? next := DateTime.add_days now new_int in
  Ok {| card_id := id card_data;
        quality := quality;
        previous_interval := interval card_data;
        new_interval := new_int;
        previous_ease_factor := ease;
        new_ease_factor := new_ease;
        repetitions := repetitions;
        next_review := next;
        rr_review_count := review_count card_data + 1 |}.

(** [get_interval_progression]. *)
Fixpoint interval_progression_from (i : nat) (n : nat) (current_interval : Z)
    (ease : float) : res (list Z) :=
  match n with
  | O => Ok []
  | S n' =>
      let? next :=
        match i with
        | O => Ok 1
        | S O => Ok 6
        | _ => let? c := PyFloat.of_int current_interval in
               PyFloat.to_int (c * ease)%float
        end in
      let? rest := interval_progression_from (S i) n' next ease in
      Ok (current_interval :: rest)
  end.

Definition get_interval_progression (ease : float) (max_repetitions : nat) : res (list Z) :=
  interval_progression_from 0 max_repetitions 1 ease.

End SM2.

(** ** Python sequence helpers *)

Module PyList.

(** [l[i]]: a negative index counts from the end. *)
Definition getitem {A : Type} (l : list A) (i : Z) : res A :=
  let n := Z.of_nat (length l) in
  let j := if i <? 0 then i + n else i in
  if (0 <=? j) && (j <? n) then
    match l !! Z.to_nat j with
    | Some x => Ok x
    | None => Raise IndexError
    end
  else Raise IndexError.

(** [l[:n]]: a negative bound counts from the end. *)
Definition slice_to {A : Type} (n : Z) (l : list A) : list A :=
  if 0 <=? n then take (Z.to_nat n) l
  else take (Z.to_nat (Z.of_nat (length l) + n)) l.

(** [list.sort] is a stable sort driven by [<] only; here as the stable
    insertion sort, which yields the same list whenever [lt] is a strict
    weak order on the elements. *)
Fixpoint insert_sorted {A : Type} (lt : A -> A -> bool) (x : A) (l : list A) : list A :=
  match l with
  | [] => [x]
  | y :: l' => if lt y x then y :: insert_sorted lt x l' else x :: y :: l'
  end.

Definition sort {A : Type} (lt : A -> A -> bool) (l : list A) : list A :=
  foldr (insert_sorted lt) [] l.

(** [l.count(x)] on integers. *)
Definition count (x : Z) (l : list Z) : Z :=
  Z.of_nat (length (filter (fun y => y = x) l)).

(** [sum(l)] on integers. *)
Definition sum (l : list Z) : Z := foldr Z.add 0 l.

End PyList.

(** ** The flashcard table *)

Module Flashcard.

Record t : Type := {
  id : Z;
  user_id : Z;
  topic : string;
  question : string;
  answer : string;
  category : option string;
  difficulty : option string;
  last_reviewed : option Z;
  next_review : option Z;
  repetition_count : Z;
  review_count : Z;
  ease_factor : float;
  interval : Z;
  is_ai_generated : bool
}.

(** [Flashcard.query.filter_by(user_id=...)], optionally narrowed by
    [filter_by(category=...)], then [.all()]. *)
Definition query_user (table : list t) (uid : Z) : list t :=
  filter (fun c => user_id c = uid) table.

Definition query_category (rows : list t) (cat : string) : list t :=
  filter (fun c => category c = Some cat) rows.

(** [Flashcard.query.get(card_id)]. *)
Definition get (table : list t) (cid : Z) : option t :=
  List.find (fun c => Z.eqb (id c) cid) table.

(** The committed write: the row with primary key [id r] is replaced. *)
Definition put (table : list t) (r : t) : list t :=
  map (fun c => if Z.eqb (id c) (id r) then r else c) table.

End Flashcard.

(** ** SpacedRepetitionManager *)

Module Manager.

Record ReviewedCard : Type := {
  rc_card_id : Z;
  rc_quality : Z;
  review_time : Z;
  rc_new_interval : Z;
  rc_new_ease_factor : float
}.

Record ReviewSession : Type := {
  session_id : string;
  user_id : Z;
  start_time : Z;
  cards : list SM2.CardData;
  current_card_index : Z;
  reviewed_cards : list ReviewedCard;
  category : option string;
  max_cards : Z
}.

(** The manager's [review_sessions] dictionary together with the flashcard
    table it reads and writes. *)
Record State : Type := {
  review_sessions : gmap string ReviewSession;
  flashcards : list Flashcard.t
}.

Record Progress : Type := {
  completed : Z;
  total : Z;
  remaining : Z
}.

Record Summary : Type := {
  total_cards_reviewed : Z;
  average_quality : float;
  duration_minutes : float;
  summary_category : option string;
  summary_start_time : Z;
  end_time : Z
}.

Record QualityBreakdown : Type := {
  again : Z;
  hard : Z;
  good : Z;
  easy : Z;
  perfect : Z
}.

(** The [{"error": ...}] payloads. *)
Inductive ErrorMessage : Type :=
  | SessionNotFound          (* "Session not found" *)
  | NoMoreCards              (* "No more cards in session" *)
  | ExceptionText (e : PyExn) (* str(e) of a caught exception *).

Inductive StartResponse : Type :=
  | StartNothingDue (sid : string) (cards : list SM2.CardData) (total_due : Z)
  | StartSession (sid : string) (cards : list SM2.CardData) (total_cards : Z)
                 (current_card : Z) (category : option string).

Inductive ReviewResponse : Type :=
  | ReviewError (msg : ErrorMessage)
  | ReviewContinue (current_card : SM2.CardData) (progress : Progress)
                   (quality new_interval : Z) (new_ease_factor : float) (next_review : Z)
  | ReviewCompleted (sid : string) (summary : Summary) (quality_breakdown : QualityBreakdown).

Inductive ProgressResponse : Type :=
  | ProgressError (msg : ErrorMessage)
  | ProgressInfo (sid : string) (progress : Progress) (start_time : Z)
                 (duration_minutes : float) (category : option string).

(** [_is_card_due]. *)
Definition _is_card_due (now : Z) (card : Flashcard.t) : bool :=
  match Flashcard.next_review card with
  | None => true
  | Some next => next <=? now
  end.

Definition card_dict (card : Flashcard.t) : SM2.CardData :=
  {| SM2.id := Flashcard.id card;
     SM2.topic := Flashcard.topic card;
     SM2.question := Flashcard.question card;
     SM2.answer := Flashcard.answer card;
     SM2.category := Flashcard.category card;
     SM2.difficulty := Flashcard.difficulty card;
     SM2.ease_factor := Flashcard.ease_factor card;
     SM2.interval := Flashcard.interval card;
     SM2.repetition_count := Flashcard.repetition_count card;
     SM2.review_count := Flashcard.review_count card;
     SM2.is_ai_generated := Flashcard.is_ai_generated card |}.

(** The sort key of [_get_due_cards].  The card dictionaries have no
    ['next_review'] entry, so the first component is
    [datetime.min < datetime.now()] for every card. *)
Definition sort_key (now : Z) (x : SM2.CardData) : bool * float :=
  (0 <? now, SM2.ease_factor x).

(** [<] on [(bool, float)] tuples. *)
Definition key_lt (a b : bool * float) : bool :=
  if Bool.eqb (fst a) (fst b) then (snd a <? snd b)%float
  else negb (fst a) && fst b.

(** A category filter applies only when the argument is truthy. *)
Definition category_filter (category : option string) : option string :=
  match category with
  | Some c => if String.eqb c "" then None else Some c
  | None => None
  end.

(** [_get_due_cards]. *)
Definition _get_due_cards (now : Z) (table : list Flashcard.t) (user_id : Z)
    (category : option string) (max_cards : Z) : list SM2.CardData :=
  let query := Flashcard.query_user table user_id in
  let all_cards :=
    match category_filter category with
    | Some c => Flashcard.query_category query c
    | None => query
    end in
  let due_cards := map card_dict (filter (fun c => _is_card_due now c = true) all_cards) in
  let sorted := PyList.sort (fun x y => key_lt (sort_key now x) (sort_key now y)) due_cards in
  PyList.slice_to max_cards sorted.

(** [get_due_cards_count]. *)
Definition get_due_cards_count (now : Z) (table : list Flashcard.t) (user_id : Z)
    (category : option string) : Z :=
  let query := Flashcard.query_user table user_id in
  let all_cards :=
    match category_filter category with
    | Some c => Flashcard.query_category query c
    | None => query
    end in
  Z.of_nat (length (filter (fun c => _is_card_due now c = true) all_cards)).

Definition make_session_id (now : Z) (user_id : Z) : string :=
  "session_" +:+ pretty user_id +:+ "_" +:+ DateTime.strftime now.

(** [start_review_session]. *)
Definition start_review_session (now : Z) (user_id : Z) (category : option string)
    (max_cards : Z) (st : State) : State * StartResponse :=
  let sid := make_session_id now user_id in
  let due_cards := _get_due_cards now (flashcards st) user_id category max_cards in
  match due_cards with
  | [] => (st, StartNothingDue sid [] 0)
  | _ =>
      let session_data :=
        {| session_id := sid;
           user_id := user_id;
           start_time := now;
           cards := due_cards;
           current_card_index := 0;
           reviewed_cards := [];
           category := category;
           max_cards := max_cards |} in
      ({| review_sessions := <[sid := session_data]> (review_sessions st);
          flashcards := flashcards st |},
       StartSession sid due_cards (Z.of_nat (length due_cards)) 0 category)
  end.

(** [_update_card_in_database].  [commit_ok] tells whether
    [db.session.commit()] succeeds; a failure is caught and logged inside
    the function, which returns normally either way. *)
Definition _update_card_in_database (now : Z) (commit_ok : bool)
    (review_result : SM2.ReviewResult) (table : list Flashcard.t) : list Flashcard.t :=
  match Flashcard.get table (SM2.card_id review_result) with
  | None => table
  | Some card =>
      if commit_ok then
        Flashcard.put table
          {| Flashcard.id := Flashcard.id card;
             Flashcard.user_id := Flashcard.user_id card;
             Flashcard.topic := Flashcard.topic card;
             Flashcard.question := Flashcard.question card;
             Flashcard.answer := Flashcard.answer card;
             Flashcard.category := Flashcard.category card;
             Flashcard.difficulty := Flashcard.difficulty card;
             Flashcard.last_reviewed := Some now;
             Flashcard.next_review := Some (SM2.next_review review_result);
             Flashcard.repetition_count := SM2.repetitions review_result;
             Flashcard.review_count := SM2.rr_review_count review_result;
             Flashcard.ease_factor := SM2.new_ease_factor review_result;
             Flashcard.interval := SM2.new_interval review_result;
             Flashcard.is_ai_generated := Flashcard.is_ai_generated card |}
      else table
  end.

Definition progress_of (session : ReviewSession) : Progress :=
  let n := Z.of_nat (length (cards session)) in
  {| completed := current_card_index session;
     total := n;
     remaining := n - current_card_index session |}.

(** The statistics of [_complete_session], computed before the session is
    deleted. *)
Definition session_summary (now : Z) (session : ReviewSession)
  : res (Summary * QualityBreakdown) :=
  let total_cards := Z.of_nat (length (reviewed_cards session)) in
  let quality_scores := map rc_quality (reviewed_cards session) in
  let? avg_quality :=
    if 0 <? total_cards then PyFloat.int_truediv (PyList.sum quality_scores) total_cards
    else Ok 0%float in
  let? seconds := DateTime.total_seconds now (start_time session) in
  let duration := (seconds / 60)%float in
  Ok ({| total_cards_reviewed := total_cards;
         average_quality := PyFloat.round_to 2 avg_quality;
         duration_minutes := PyFloat.round_to 1 duration;
         summary_category := category session;
         summary_start_time := start_time session;
         end_time := now |},
      {| again := PyList.count 0 quality_scores;
         hard := PyList.count 1 quality_scores;
         good := PyList.count 2 quality_scores;
         easy := PyList.count 3 quality_scores;
         perfect := PyList.count 4 quality_scores |}).

(** [_complete_session]: on success the session is removed from the
    table; an exception leaves the table as it was. *)
Definition _complete_session (now : Z) (sid : string) (session : ReviewSession)
    (st : State) : State * res ReviewResponse :=
  match session_summary now session with
  | Raise e => (st, Raise e)
  | Ok (summary, breakdown) =>
      ({| review_sessions := delete sid (review_sessions st);
          flashcards := flashcards st |},
       Ok (ReviewCompleted sid summary breakdown))
  end.

(** [review_card]. *)
Definition review_card (now : Z) (commit_ok : bool) (sid : string) (quality : Z)
    (st : State) : State * ReviewResponse :=
  match review_sessions st !! sid with
  | None => (st, ReviewError SessionNotFound)
  | Some session =>
      let n := Z.of_nat (length (cards session)) in
      if n <=? current_card_index session then (st, ReviewError NoMoreCards)
      else
        match PyList.getitem (cards session) (current_card_index session) with
        | Raise e => (st, ReviewError (ExceptionText e))
        | Ok current_card =>
            match SM2.calculate_next_review now current_card quality with
            | Raise e => (st, ReviewError (ExceptionText e))
            | Ok review_result =>
                let table := _update_card_in_database now commit_ok review_result
                               (flashcards st) in
                let session' :=
                  {| session_id := session_id session;
                     user_id := user_id session;
                     start_time := start_time session;
                     cards := cards session;
                     current_card_index := current_card_index session + 1;
                     reviewed_cards :=
                       reviewed_cards session ++
                         [{| rc_card_id := SM2.id current_card;
                             rc_quality := quality;
                             review_time := now;
                             rc_new_interval := SM2.new_interval review_result;
                             rc_new_ease_factor := SM2.new_ease_factor review_result |}];
                     category := category session;
                     max_cards := max_cards session |} in
                let st' :=
                  {| review_sessions := <[sid := session']> (review_sessions st);
                     flashcards := table |} in
                if n <=? current_card_index session' then
                  match _complete_session now sid session' st' with
                  | (st'', Ok r) => (st'', r)
                  | (st'', Raise e) => (st'', ReviewError (ExceptionText e))
                  end
                else
                  match PyList.getitem (cards session') (current_card_index session') with
                  | Raise e => (st', ReviewError (ExceptionText e))
                  | Ok next_card =>
                      (st', ReviewContinue next_card (progress_of session') quality
                              (SM2.new_interval review_result)
                              (SM2.new_ease_factor review_result)
                              (SM2.next_review review_result))
                  end
            end
        end
  end.

(** [get_session_progress]; it has no handler of its own, so an exception
    would reach the caller. *)
Definition get_session_progress (now : Z) (sid : string) (st : State)
  : res ProgressResponse :=
  match review_sessions st !! sid with
  | None => Ok (ProgressError SessionNotFound)
  | Some session =>
      let? seconds := DateTime.total_seconds now (start_time session) in
      Ok (ProgressInfo sid (progress_of session) (start_time session)
            (seconds / 60)%float (category session))
  end.

(** The loop of [cleanup_expired_sessions] that collects the ids of the
    sessions older than 7200 seconds. *)
Fixpoint expired_sessions (now : Z) (items : list (string * ReviewSession))
  : res (list string) :=
  match items with
  | [] => Ok []
  | (sid, session) :: rest =>
      let? seconds := DateTime.total_seconds now (start_time session) in
      let? more := expired_sessions now rest in
      Ok (if (7200 <? seconds)%float then sid :: more else more)
  end.

(** [cleanup_expired_sessions]. *)
Definition cleanup_expired_sessions (now : Z) (st : State) : res (State * Z) :=
  let? expired := expired_sessions now (map_to_list (review_sessions st)) in
  Ok ({| review_sessions := foldr delete (review_sessions st) expired;
         flashcards := flashcards st |},
      Z.of_nat (length expired)).

(** [_calculate_retention_rate] on the ease factors of the cards. *)
Definition _calculate_retention_rate (eases : list float) : res float :=
  match eases with
  | [] => Ok 0%float
  | _ =>
      let retained := Z.of_nat (length (filter (fun e => (2 <? e)%float = true) eases)) in
      let total_cards := Z.of_nat (length eases) in
      let? ratio := PyFloat.int_truediv retained total_cards in
      Ok (ratio * 100)%float
  end.

(** [_calculate_review_streak] on the [last_reviewed] column of the cards:
    seven minus the whole days since the most recent review, floored at 0. *)
Definition _calculate_review_streak (now : Z) (last_reviewed : list (option Z)) : Z :=
  match omap (fun d => d) last_reviewed with
  | [] => 0
  | first :: others =>
      let most_recent := foldr Z.max first others in
      let days_since_last_review := now / DateTime.us_per_day - most_recent / DateTime.us_per_day in
      Z.max 0 (7 - days_since_last_review)
  end.

End Manager.

(** ** Python string helpers (ASCII text) *)

Module PyStr.

Definition lower_ascii (c : ascii) : ascii :=
  let n := nat_of_ascii c in
  if (65 <=? n)%nat && (n <=? 90)%nat then ascii_of_nat (n + 32) else c.

(** [s.lower()]. *)
Fixpoint lower (s : string) : string :=
  match s with
  | EmptyString => EmptyString
  | String c r => String (lower_ascii c) (lower r)
  end.

(** [sub in s]. *)
Fixpoint contains (sub s : string) : bool :=
  String.prefix sub s ||
  match s with
  | EmptyString => false
  | String _ r => contains sub r
  end.

End PyStr.

(** ** StudyGroupMatcher *)

Module Matcher.

Record UserProfile : Type := {
  user_id : Z;
  skill_level : string;
  interests : list string;
  coding_hours_per_week : float;
  preferred_schedule : string;
  timezone : string;
  learning_goals : list string;
  join_date : Z
}.

Record StudyGroupProfile : Type := {
  group_id : Z;
  name : string;
  topic : string;
  group_skill_level : string;
  current_size : Z;
  max_size : Z;
  activity_level : float;
  member_skill_distribution : list (string * Z);
  average_coding_hours : float;
  group_preferred_schedule : string;
  created_date : Z
}.

Definition skill_level_weights : list (string * Z) :=
  [("beginner", 1); ("intermediate", 2); ("advanced", 3)].

Definition topic_similarity_matrix : list (string * list string) :=
  [("algorithms", ["data_structures"; "problem_solving"; "competitive_programming"]);
   ("data_structures", ["algorithms"; "problem_solving"; "interview_prep"]);
   ("system_design", ["architecture"; "scalability"; "distributed_systems"]);
   ("web_development", ["frontend"; "backend"; "full_stack"]);
   ("mobile_development", ["ios"; "android"; "react_native"]);
   ("machine_learning", ["ai"; "data_science"; "deep_learning"]);
   ("competitive_programming", ["algorithms"; "data_structures"; "problem_solving"]);
   ("interview_preparation", ["algorithms"; "data_structures"; "system_design"])].

(** [d.get(key, default)] on a dictionary written as its item list. *)
Fixpoint dict_get {V : Type} (d : list (string * V)) (key : string) (default : V) : V :=
  match d with
  | [] => default
  | (k, v) :: rest => if String.eqb k key then v else dict_get rest key default
  end.

(** [l.index(x)]. *)
Fixpoint list_index (l : list string) (x : string) : res Z :=
  match l with
  | [] => Raise ValueError
  | y :: rest =>
      if String.eqb y x then Ok 0
      else let? i := list_index rest x in Ok (i + 1)
  end.

(** [_calculate_skill_compatibility]. *)
Definition _calculate_skill_compatibility (user_skill group_skill : string)
    (member_distribution : list (string * Z)) : res float :=
  if String.eqb user_skill group_skill then Ok 1.0%float
  else
    let skill_levels := ["beginner"; "intermediate"; "advanced"] in
    let? user_index := list_index skill_levels user_skill in
    let? group_index := list_index skill_levels group_skill in
    if Z.abs (user_index - group_index) =? 1 then Ok 0.7%float
    else if Z.abs (user_index - group_index) =? 2 then Ok 0.3%float
    else
      let total_members := PyList.sum (map snd member_distribution) in
      let? bonus :=
        if 0 <? total_members then
          let? user_skill_ratio :=
            PyFloat.int_truediv (dict_get member_distribution user_skill 0) total_members in
          if (user_skill_ratio <? 0.5)%float
          then Ok (Some (PyFloat.min 1.0 (0.8 + 0.2 * (1 - user_skill_ratio))%float))
          else Ok None
        else Ok None in
      match bonus with
      | Some b => Ok b
      | None => Ok 0.5%float
      end.

(** [_calculate_interest_compatibility]. *)
Definition _calculate_interest_compatibility (user_interests : list string)
    (group_topic : string) : float :=
  match user_interests with
  | [] => 0.5%float
  | _ =>
      let t := PyStr.lower group_topic in
      if existsb (fun interest => String.eqb (PyStr.lower interest) t) user_interests
      then 1.0%float
      else
        let related_topics := dict_get topic_similarity_matrix t [] in
        if existsb (fun interest =>
               existsb (fun related => PyStr.contains related (PyStr.lower interest))
                       related_topics) user_interests
        then 0.8%float
        else if existsb (fun interest =>
                    PyStr.contains t (PyStr.lower interest)
                    || PyStr.contains (PyStr.lower interest) t) user_interests
        then 0.6%float
        else 0.3%float
  end.

Definition schedule_groups : list (string * list string) :=
  [("morning", ["morning"; "early_morning"]);
   ("afternoon", ["afternoon"; "lunch_time"]);
   ("evening", ["evening"; "night"]);
   ("weekend", ["weekend"; "saturday"; "sunday"])].

Definition mem_string (x : string) (l : list string) : bool :=
  existsb (String.eqb x) l.

(** [_calculate_schedule_compatibility]. *)
Definition _calculate_schedule_compatibility (user_schedule group_schedule : string) : float :=
  if String.eqb user_schedule "flexible" || String.eqb group_schedule "flexible"
  then 0.8%float
  else if String.eqb user_schedule group_schedule then 1.0%float
  else if existsb (fun g => mem_string user_schedule (snd g)
                            && mem_string group_schedule (snd g)) schedule_groups
  then 0.7%float
  else 0.4%float.

(** [_calculate_activity_compatibility]. *)
Definition _calculate_activity_compatibility (user_hours group_avg_hours : float) : float :=
  if (group_avg_hours =? 0)%float then 0.5%float
  else
    let ratio := (user_hours / group_avg_hours)%float in
    if (0.7 <=? ratio)%float && (ratio <=? 1.5)%float then 1.0%float
    else if (0.5 <=? ratio)%float && (ratio <=? 2.0)%float then 0.8%float
    else if (0.3 <=? ratio)%float && (ratio <=? 3.0)%float then 0.6%float
    else 0.3%float.

(** [_calculate_size_compatibility]. *)
Definition _calculate_size_compatibility (current_size max_size : Z) : res float :=
  let? fill_ratio := PyFloat.int_truediv current_size max_size in
  if (0.3 <=? fill_ratio)%float && (fill_ratio <=? 0.7)%float then Ok 1.0%float
  else if (0.2 <=? fill_ratio)%float && (fill_ratio <=? 0.8)%float then Ok 0.8%float
  else if (0.1 <=? fill_ratio)%float && (fill_ratio <=? 0.9)%float then Ok 0.6%float
  else Ok 0.3%float.

(** The five [(name, score, weight)] entries of [_calculate_compatibility]. *)
Definition compatibility_scores (user_profile : UserProfile)
    (group_profile : StudyGroupProfile) : res (list (string * float * float)) :=
  let? skill_score :=
    _calculate_skill_compatibility (skill_level user_profile)
      (group_skill_level group_profile) (member_skill_distribution group_profile) in
  let interest_score :=
    _calculate_interest_compatibility (interests user_profile) (topic group_profile) in
  let schedule_score :=
    _calculate_schedule_compatibility (preferred_schedule user_profile)
      (group_preferred_schedule group_profile) in
  let activity_score :=
    _calculate_activity_compatibility (coding_hours_per_week user_profile)
      (average_coding_hours group_profile) in
  let? size_score :=
    _calculate_size_compatibility (current_size group_profile) (max_size group_profile) in
  Ok [("skill_level", skill_score, 0.4%float);
      ("interests", interest_score, 0.25%float);
      ("schedule", schedule_score, 0.15%float);
      ("activity", activity_score, 0.1%float);
      ("size", size_score, 0.1%float)].

(** [_calculate_compatibility]: any exception is caught and gives [0.0].
    [py_sum] is the interpreter's [sum] over floats ([PyFloat.sum] or
    [PyFloat.sum_compensated]). *)
Definition _calculate_compatibility (py_sum : list float -> float)
    (user_profile : UserProfile) (group_profile : StudyGroupProfile) : float :=
  match compatibility_scores user_profile group_profile with
  | Raise _ => 0.0%float
  | Ok scores =>
      let total_score := py_sum (map (fun e => (snd (fst e) * snd e)%float) scores) in
      PyFloat.min 1.0 (PyFloat.max 0.0 total_score)
  end.

(** [_determine_skill_level]. *)
Definition _determine_skill_level (total_problems : Z) : string :=
  if 200 <=? total_problems then "advanced"
  else if 50 <=? total_problems then "intermediate"
  else "beginner".

Definition keyword_mapping : list (string * string) :=
  [("algorithm", "algorithms");
   ("data structure", "data_structures");
   ("system design", "system_design");
   ("web development", "web_development");
   ("mobile", "mobile_development");
   ("machine learning", "machine_learning");
   ("ai", "machine_learning");
   ("competitive", "competitive_programming");
   ("interview", "interview_preparation")].

(** [_extract_interests_from_goals]. *)
Definition _extract_interests_from_goals (learning_goals : string) : list string :=
  let learning_goals_lower := PyStr.lower learning_goals in
  map snd (filter (fun kv => PyStr.contains (fst kv) learning_goals_lower = true)
                  keyword_mapping).

(** [_get_match_reasons]. *)
Definition _get_match_reasons (user_profile : UserProfile)
    (group_profile : StudyGroupProfile) : res (list string) :=
  let r1 :=
    if String.eqb (skill_level user_profile) (group_skill_level group_profile)
    then ["Same skill level (" +:+ skill_level user_profile +:+ ")"] else [] in
  let r2 :=
    if existsb (fun interest =>
           PyStr.contains (PyStr.lower (topic group_profile)) (PyStr.lower interest))
         (interests user_profile)
    then ["Interested in " +:+ topic group_profile] else [] in
  let r3 :=
    if (abs (coding_hours_per_week user_profile - average_coding_hours group_profile) <=? 5)%float
    then ["Similar activity level"] else [] in
  let? m := PyFloat.of_int (max_size group_profile) in
  let r4 :=
    if PyFloat.int_lt_float (current_size group_profile) (m * 0.7)%float
    then ["Group has available spots"] else [] in
  Ok (r1 ++ r2 ++ r3 ++ r4).

Record Match : Type := {
  m_group_id : Z;
  m_group_name : string;
  m_topic : string;
  m_skill_level : string;
  m_current_size : Z;
  m_max_size : Z;
  compatibility_score : float;
  match_reasons : list string;
  m_activity_level : float
}.

(** The loop of [find_best_matches] over the group profiles already built:
    a group is kept when its score exceeds 0.3. *)
Fixpoint collect_matches (py_sum : list float -> float) (user_profile : UserProfile)
    (groups : list StudyGroupProfile) : res (list Match) :=
  match groups with
  | [] => Ok []
  | g :: rest =>
      let score := _calculate_compatibility py_sum user_profile g in
      let? this :=
        if (0.3 <? score)%float then
          let? reasons := _get_match_reasons user_profile g in
          Ok [{| m_group_id := group_id g;
                 m_group_name := name g;
                 m_topic := topic g;
                 m_skill_level := group_skill_level g;
                 m_current_size := current_size g;
                 m_max_size := max_size g;
                 compatibility_score := score;
                 match_reasons := reasons;
                 m_activity_level := activity_level g |}]
        else Ok [] in
      let? more := collect_matches py_sum user_profile rest in
      Ok (this ++ more)
  end.

(** [find_best_matches] from the user profile and the group profiles: the
    matches sorted by score in descending order (stable), cut to [limit];
    any exception gives the empty list. *)
Definition find_best_matches (py_sum : list float -> float) (user_profile : UserProfile)
    (groups : list StudyGroupProfile) (limit : Z) : list Match :=
  match collect_matches py_sum user_profile groups with
  | Raise _ => []
  | Ok matches =>
      PyList.slice_to limit
        (PyList.sort (fun a b => (compatibility_score b <? compatibility_score a)%float)
                     matches)
  end.

End Matcher.

(** * Verification *)

(** ** Auxiliary definitions *)

(** The value of a finite float in units of [2^-1074]. *)
Definition SFint (x : spec_float) : Z :=
  match x with
  | S754_finite s m e => (if s then Z.neg m else Z.pos m) * 2 ^ (e + 1074)
  | _ => 0
  end.

Definition SFfinite (x : spec_float) : bool :=
  match x with
  | S754_zero _ | S754_finite _ _ _ => true
  | _ => false
  end.

(** A finite float as the integer number of its [2^-1074] units. *)
Definition fval (x : float) : option Z :=
  if SFfinite (Prim2SF x) then Some (SFint (Prim2SF x)) else None.

(** The binary64 nearest to [n / 100], as [round(_, 2)] builds it. *)
Definition hundredths (n : Z) : float :=
  match n with
  | Zpos p => SF2Prim (SFdiv prec emax (S754_finite false p 0) (S754_finite false 100 0))
  | _ => 0%float
  end.

(** A check over the 271 two-decimal values from 1.30 to 4.00: each lies in
    the ease range and is at most its successor. *)
Definition hundredths_table : bool :=
  forallb (fun n =>
      (SM2.min_ease_factor <=? hundredths n)%float
      && (hundredths n <=? SM2.max_ease_factor)%float
      && (hundredths n <=? hundredths (n + 1))%float)
    (seqZ 130 271).

Definition in_ease_range (x : float) : Prop :=
  (SM2.min_ease_factor <=? x)%float = true /\ (x <=? SM2.max_ease_factor)%float = true.

(** The clamping step of [_update_ease_factor]. *)
Definition clamp (x : float) : float :=
  PyFloat.max SM2.min_ease_factor (PyFloat.min SM2.max_ease_factor x).

Definition z_min : Z := 5854679515581645 * 2 ^ 1022.
Definition z_max : Z := 4503599627370496 * 2 ^ 1024.

Definition clampZ (z : Z) : Z :=
  if z <? z_max then (if z_min <? z then z else z_min) else z_max.

(** The quality-dependent increment of the SM-2 formula. *)
Definition delta (q : Z) : float :=
  match PyFloat.of_int (5 - q) with
  | Ok k => (0.1 - k * (0.08 + k * 0.02))%float
  | Raise _ => nan
  end.

(** The increments in units of [2^-55], negated. *)
Definition delta_units (q : Z) : Z :=
  match q with
  | 0 => 7205759403792793 * 4
  | 1 => 4863887597560136 * 4
  | 2 => 5764607523034236 * 2
  | 3 => 5044031582654955
  | _ => 0
  end.

(** A review response that is not an [{"error": ...}] payload. *)
Definition is_error (r : Manager.ReviewResponse) : bool :=
  match r with
  | Manager.ReviewError _ => true
  | _ => false
  end.


(** The session after one accepted review of [card]. *)
Definition advance (now : Z) (quality : Z) (card : SM2.CardData) (rr : SM2.ReviewResult)
    (session : Manager.ReviewSession) : Manager.ReviewSession :=
  {| Manager.session_id := Manager.session_id session;
     Manager.user_id := Manager.user_id session;
     Manager.start_time := Manager.start_time session;
     Manager.cards := Manager.cards session;
     Manager.current_card_index := Manager.current_card_index session + 1;
     Manager.reviewed_cards :=
       Manager.reviewed_cards session ++
         [{| Manager.rc_card_id := SM2.id card;
             Manager.rc_quality := quality;
             Manager.review_time := now;
             Manager.rc_new_interval := SM2.new_interval rr;
             Manager.rc_new_ease_factor := SM2.new_ease_factor rr |}];
     Manager.category := Manager.category session;
     Manager.max_cards := Manager.max_cards session |}.

(** The fields of a progress response other than the elapsed time. *)
Definition progress_fields (r : Manager.ProgressResponse)
  : option (string * Manager.Progress * Z * option string) :=
  match r with
  | Manager.ProgressError _ => None
  | Manager.ProgressInfo sid p start _ cat => Some (sid, p, start, cat)
  end.

Definition progress_duration (r : res Manager.ProgressResponse) : spec_float :=
  match r with
  | Ok (Manager.ProgressInfo _ _ _ d _) => Prim2SF d
  | _ => S754_nan
  end.

(** *** Sample data *)

Definition sample_card : SM2.CardData :=
  {| SM2.id := 1; SM2.topic := "sorting"; SM2.question := "q"; SM2.answer := "a";
     SM2.category := None; SM2.difficulty := None;
     SM2.ease_factor := 2.5%float; SM2.interval := 6;
     SM2.repetition_count := 2; SM2.review_count := 2;
     SM2.is_ai_generated := false |}.

(** 2024-01-01T12:00:00. *)
Definition sample_now : Z := 738885 * DateTime.us_per_day + 12 * 3600 * DateTime.us_per_second.

Definition sample_flashcard (i : Z) (ease : float) (next : option Z) : Flashcard.t :=
  {| Flashcard.id := i; Flashcard.user_id := 7; Flashcard.topic := "sorting";
     Flashcard.question := "q"; Flashcard.answer := "a";
     Flashcard.category := Some "algorithms"; Flashcard.difficulty := None;
     Flashcard.last_reviewed := None; Flashcard.next_review := next;
     Flashcard.repetition_count := 0; Flashcard.review_count := 0;
     Flashcard.ease_factor := ease; Flashcard.interval := 1;
     Flashcard.is_ai_generated := false |}.

(** Card 1 fell due a day ago; card 2 falls due at this very instant. *)
Definition sample_table : list Flashcard.t :=
  [sample_flashcard 1 2.5%float (Some (sample_now - DateTime.us_per_day));
   sample_flashcard 2 1.3%float (Some sample_now)].

Definition sample_state : Manager.State :=
  {| Manager.review_sessions := ∅; Manager.flashcards := sample_table |}.

Definition sample_sid : string := "session_7_20240101_120000".

(** The state after user 7 has started a session at [sample_now]. *)
Definition started_state : Manager.State :=
  fst (Manager.start_review_session sample_now 7 None 20 sample_state).

Definition three_hours : Z := 3 * 3600 * DateTime.us_per_second.

(** *** Predicates used by the further properties *)

(** The session invariant: the cursor lies within the card list and counts
    the logged reviews. *)
Definition session_ok (s : Manager.ReviewSession) : Prop :=
  0 <= Manager.current_card_index s <= Z.of_nat (length (Manager.cards s)) /\
  Z.of_nat (length (Manager.reviewed_cards s)) = Manager.current_card_index s.

Definition sessions_ok (st : Manager.State) : Prop :=
  forall sid s, Manager.review_sessions st !! sid = Some s -> session_ok s.

(** A float that is not NaN. *)
Definition not_nan (x : float) : Prop := (x =? x)%float = true.

(** The due rows of a user, as [_get_due_cards] selects them. *)
Definition due_rows (now : Z) (table : list Flashcard.t) (user_id : Z)
    (category : option string) : list Flashcard.t :=
  let query := Flashcard.query_user table user_id in
  filter (fun c => Manager._is_card_due now c = true)
    match Manager.category_filter category with
    | Some c => Flashcard.query_category query c
    | None => query
    end.

Definition sample_user : Matcher.UserProfile :=
  {| Matcher.user_id := 7; Matcher.skill_level := "intermediate";
     Matcher.interests := ["algorithms"]; Matcher.coding_hours_per_week := 10%float;
     Matcher.preferred_schedule := "flexible"; Matcher.timezone := "UTC";
     Matcher.learning_goals := []; Matcher.join_date := sample_now |}.

Definition sample_group (gid size capacity : Z) (level : string) : Matcher.StudyGroupProfile :=
  {| Matcher.group_id := gid; Matcher.name := "group"; Matcher.topic := "algorithms";
     Matcher.group_skill_level := level; Matcher.current_size := size;
     Matcher.max_size := capacity; Matcher.activity_level := 1%float;
     Matcher.member_skill_distribution := []; Matcher.average_coding_hours := 10%float;
     Matcher.group_preferred_schedule := "flexible"; Matcher.created_date := sample_now |}.

(** *** The specification's product *)

(** [floor(interval x ease_factor)] as the specification writes it: the floor
    of the exact product of the interval and the number that the stored
    ease factor denotes. *)
Definition spec_floor_product (interval : Z) (ease : float) : option Z :=
  match Prim2SF ease with
  | S754_zero _ => Some 0
  | S754_finite s m e =>
      let v := interval * (if s then Z.neg m else Z.pos m) in
      Some (if 0 <=? e then v * 2 ^ e else v / 2 ^ (- e))
  | _ => None
  end.

(** The same floor when the ease factor is read as the two-decimal number
    [h / 100] that [round(_, 2)] was asked for. *)
Definition spec_floor_product_decimal (interval h : Z) : Z := interval * h / 100.

(** A card that has never been reviewed, with the defaults of
    [SM2Algorithm]. *)
Definition fresh_card : SM2.CardData :=
  {| SM2.id := 1; SM2.topic := "sorting"; SM2.question := "q"; SM2.answer := "a";
     SM2.category := None; SM2.difficulty := None;
     SM2.ease_factor := SM2.default_ease_factor; SM2.interval := SM2.default_interval;
     SM2.repetition_count := 0; SM2.review_count := 0;
     SM2.is_ai_generated := false |}.

(** The card as it is read back after [_update_card_in_database] has stored
    a review result. *)
Definition card_after (card : SM2.CardData) (r : SM2.ReviewResult) : SM2.CardData :=
  {| SM2.id := SM2.id card; SM2.topic := SM2.topic card;
     SM2.question := SM2.question card; SM2.answer := SM2.answer card;
     SM2.category := SM2.category card; SM2.difficulty := SM2.difficulty card;
     SM2.ease_factor := SM2.new_ease_factor r; SM2.interval := SM2.new_interval r;
     SM2.repetition_count := SM2.repetitions r; SM2.review_count := SM2.rr_review_count r;
     SM2.is_ai_generated := SM2.is_ai_generated card |}.

(** A card reviewed with each of [qualities] in turn, every review on the
    day the previous one scheduled. *)
Fixpoint review_chain (now : Z) (card : SM2.CardData) (qualities : list Z)
  : res SM2.CardData :=
  match qualities with
  | [] => Ok card
  | q :: rest =>
      let? r := SM2.calculate_next_review now card q in
      review_chain (SM2.next_review r) (card_after card r) rest
  end.

(** *** Inactivity *)

(** The latest activity that a session records: its start or the last
    accepted review. *)
Definition last_activity (s : Manager.ReviewSession) : Z :=
  foldr Z.max (Manager.start_time s) (map Manager.review_time (Manager.reviewed_cards s)).

Definition one_hour : Z := 3600 * DateTime.us_per_second.

(** The started session after its first card was reviewed one hour in. *)
Definition reviewed_state : Manager.State :=
  fst (Manager.review_card (sample_now + one_hour) true sample_sid 4 started_state).

(** [reviewed_state] after a sweep three hours after that review. *)
Definition swept_state : Manager.State :=
  match Manager.cleanup_expired_sessions (sample_now + one_hour + three_hours)
          reviewed_state with
  | Ok (st, _) => st
  | Raise _ => reviewed_state
  end.

(** ** Binary64: digits, order and rounding *)

Lemma digits2_pos_bounds (m : positive) :
  2 ^ (Z.pos (digits2_pos m) - 1) <= Z.pos m < 2 ^ Z.pos (digits2_pos m).
Proof.
  induction m as [p IH | p IH | ]; cbn [digits2_pos].
  - rewrite Pos2Z.inj_succ.
    replace (Z.succ (Z.pos (digits2_pos p)) - 1) with (Z.succ (Z.pos (digits2_pos p) - 1)) by lia.
    rewrite !Z.pow_succ_r by lia. lia.
  - rewrite Pos2Z.inj_succ.
    replace (Z.succ (Z.pos (digits2_pos p)) - 1) with (Z.succ (Z.pos (digits2_pos p) - 1)) by lia.
    rewrite !Z.pow_succ_r by lia. lia.
  - cbn. lia.
Qed.

Lemma bounded_inv m e :
  bounded prec emax m e = true ->
  -1074 <= e <= 971 /\ Z.pos (digits2_pos m) <= 53 /\
  (-1074 < e -> Z.pos (digits2_pos m) = 53).
Proof.
  unfold bounded, canonical_mantissa, fexp, SpecFloat.emin, prec, emax.
  intros H. apply andb_prop in H as [H1 H2].
  apply Z.eqb_eq in H1. apply Z.leb_le in H2. lia.
Qed.

Lemma finite_pos_lt m1 e1 m2 e2 :
  bounded prec emax m1 e1 = true -> bounded prec emax m2 e2 = true ->
  e1 < e2 ->
  Z.pos m1 * 2 ^ (e1 + 1074) < Z.pos m2 * 2 ^ (e2 + 1074).
Proof.
  intros B1 B2 Hlt.
  apply bounded_inv in B1 as (R1 & D1 & _).
  apply bounded_inv in B2 as (R2 & _ & D2).
  specialize (D2 ltac:(lia)).
  pose proof (digits2_pos_bounds m1) as [_ U1].
  pose proof (digits2_pos_bounds m2) as [L2 _].
  rewrite D2 in L2.
  assert (U1' : Z.pos m1 < 2 ^ 53).
  { eapply Z.lt_le_trans; [exact U1|]. apply Z.pow_le_mono_r; lia. }
  assert (P : 2 ^ (e1 + 1074 + 1) <= 2 ^ (e2 + 1074)) by (apply Z.pow_le_mono_r; lia).
  rewrite Z.pow_add_r in P by lia.
  assert (0 < 2 ^ (e1 + 1074)) by (apply Z.pow_pos_nonneg; lia).
  change (2 ^ 53) with (2 * 2 ^ 52) in U1'.
  change (53 - 1) with 52 in L2. change (2 ^ 1) with 2 in P.
  set (a := 2 ^ (e1 + 1074)) in *. set (b := 2 ^ (e2 + 1074)) in *.
  set (c := 2 ^ 52) in *.
  assert (0 < c) by (subst c; lia).
  nia.
Qed.

Lemma SFcompare_finite x y :
  valid_binary x = true -> valid_binary y = true ->
  SFfinite x = true -> SFfinite y = true ->
  SFcompare x y = Some (SFint x ?= SFint y).
Proof.
  intros Vx Vy Fx Fy.
  destruct x as [sx | sx | | sx mx ex]; try discriminate;
  destruct y as [sy | sy | | sy my ey]; try discriminate; cbn [SFcompare SFint].
  - reflexivity.
  - assert (0 < 2 ^ (ey + 1074)) by (apply Z.pow_pos_nonneg; apply bounded_inv in Vy; lia).
    destruct sy; f_equal; symmetry; [apply Z.compare_gt_iff | apply Z.compare_lt_iff]; nia.
  - assert (0 < 2 ^ (ex + 1074)) by (apply Z.pow_pos_nonneg; apply bounded_inv in Vx; lia).
    destruct sx; f_equal; symmetry; [apply Z.compare_lt_iff | apply Z.compare_gt_iff]; nia.
  - cbn in Vx, Vy.
    assert (Hx : 0 < 2 ^ (ex + 1074)) by (apply Z.pow_pos_nonneg; apply bounded_inv in Vx; lia).
    assert (Hy : 0 < 2 ^ (ey + 1074)) by (apply Z.pow_pos_nonneg; apply bounded_inv in Vy; lia).
    destruct sx, sy; f_equal.
    + destruct (Z.compare_spec ex ey) as [E | L | G].
      * subst ey. rewrite Pos.compare_cont_spec; cbn [Pos.switch_Eq].
        change (Pos.compare mx my) with (Z.pos mx ?= Z.pos my).
        destruct (Z.compare_spec (Z.pos mx) (Z.pos my)) as [E | L | G]; cbn [CompOpp]; symmetry.
        -- apply Z.compare_eq_iff. congruence.
        -- apply Z.compare_gt_iff. nia.
        -- apply Z.compare_lt_iff. nia.
      * pose proof (finite_pos_lt _ _ _ _ Vx Vy L). symmetry. apply Z.compare_gt_iff. lia.
      * pose proof (finite_pos_lt _ _ _ _ Vy Vx ltac:(lia)). symmetry. apply Z.compare_lt_iff. lia.
    + symmetry. apply Z.compare_lt_iff. nia.
    + symmetry. apply Z.compare_gt_iff. nia.
    + destruct (Z.compare_spec ex ey) as [E | L | G].
      * subst ey. rewrite Pos.compare_cont_spec; cbn [Pos.switch_Eq].
        change (Pos.compare mx my) with (Z.pos mx ?= Z.pos my).
        destruct (Z.compare_spec (Z.pos mx) (Z.pos my)) as [E | L | G]; symmetry.
        -- apply Z.compare_eq_iff. congruence.
        -- apply Z.compare_lt_iff. nia.
        -- apply Z.compare_gt_iff. nia.
      * pose proof (finite_pos_lt _ _ _ _ Vx Vy L). symmetry. apply Z.compare_lt_iff. lia.
      * pose proof (finite_pos_lt _ _ _ _ Vy Vx ltac:(lia)). symmetry. apply Z.compare_gt_iff. lia.
Qed.

Lemma fval_ltb a b za zb :
  fval a = Some za -> fval b = Some zb -> (a <? b)%float = (za <? zb).
Proof.
  unfold fval. intros Ha Hb.
  destruct (SFfinite (Prim2SF a)) eqn:Fa; [|discriminate].
  destruct (SFfinite (Prim2SF b)) eqn:Fb; [|discriminate].
  injection Ha as <-. injection Hb as <-.
  rewrite ltb_spec. unfold SFltb.
  rewrite SFcompare_finite by (auto using Prim2SF_valid).
  unfold Z.ltb. now destruct (_ ?= _).
Qed.

Lemma fval_leb a b za zb :
  fval a = Some za -> fval b = Some zb -> (a <=? b)%float = (za <=? zb).
Proof.
  unfold fval. intros Ha Hb.
  destruct (SFfinite (Prim2SF a)) eqn:Fa; [|discriminate].
  destruct (SFfinite (Prim2SF b)) eqn:Fb; [|discriminate].
  injection Ha as <-. injection Hb as <-.
  rewrite leb_spec. unfold SFleb.
  rewrite SFcompare_finite by (auto using Prim2SF_valid).
  unfold Z.leb. now destruct (_ ?= _).
Qed.

(** A float between two finite floats is finite. *)
Lemma leb_finite_between lo hi x :
  SFfinite (Prim2SF lo) = true -> SFfinite (Prim2SF hi) = true ->
  (lo <=? x)%float = true -> (x <=? hi)%float = true ->
  SFfinite (Prim2SF x) = true.
Proof.
  rewrite !leb_spec. unfold SFleb.
  destruct (Prim2SF lo) as [s1|s1| |s1 m1 e1]; try discriminate;
  destruct (Prim2SF hi) as [s2|s2| |s2 m2 e2]; try discriminate;
  destruct (Prim2SF x) as [s|s| |s m e]; cbn; try reflexivity; try discriminate;
  destruct s; try discriminate; destruct s1; discriminate.
Qed.

Lemma ltb_leb a b : (a <? b)%float = true -> (a <=? b)%float = true.
Proof.
  rewrite ltb_spec, leb_spec. unfold SFltb, SFleb.
  destruct (SFcompare _ _) as [[]|]; easy.
Qed.

Lemma digits2_pos_unique (p : positive) (k : Z) :
  2 ^ (k - 1) <= Z.pos p < 2 ^ k -> Z.pos (digits2_pos p) = k.
Proof.
  intros [L U]. pose proof (digits2_pos_bounds p) as [L' U'].
  set (d := Z.pos (digits2_pos p)) in *.
  assert (0 < d) by (subst d; lia).
  destruct (Z_lt_le_dec k 1) as [Hk|Hk].
  { assert (2 ^ k <= 2 ^ 0) by (destruct (Z_lt_le_dec k 0);
      [rewrite Z.pow_neg_r by lia; cbn; lia | apply Z.pow_le_mono_r; lia]).
    cbn in H0. lia. }
  destruct (Z.lt_trichotomy d k) as [Hlt | [Heq | Hgt]]; [exfalso | exact Heq | exfalso].
  - assert (2 ^ d <= 2 ^ (k - 1)) by (apply Z.pow_le_mono_r; lia). lia.
  - assert (2 ^ k <= 2 ^ (d - 1)) by (apply Z.pow_le_mono_r; lia). lia.
Qed.

Lemma iter_pos_nat {A} (f : A -> A) (p : positive) (x : A) :
  SpecFloat.iter_pos f p x = Nat.iter (Pos.to_nat p) f x.
Proof.
  revert x. induction p as [p IH | p IH | ]; intros x; cbn [SpecFloat.iter_pos].
  - rewrite !IH.
    replace (Pos.to_nat p~1) with (Pos.to_nat p + S (Pos.to_nat p))%nat by lia.
    rewrite Nat.iter_add, Nat.iter_succ_r. reflexivity.
  - rewrite !IH.
    replace (Pos.to_nat p~0) with (Pos.to_nat p + Pos.to_nat p)%nat by lia.
    rewrite Nat.iter_add. reflexivity.
  - reflexivity.
Qed.

Lemma shr_1_m (mrs : shr_record) :
  0 <= shr_m mrs -> shr_m (shr_1 mrs) = shr_m mrs / 2.
Proof.
  destruct mrs as [m r s]. cbn [shr_m shr_1]. intros Hm.
  destruct m as [|[q|q|]|q]; cbn [shr_m]; try lia.
  - reflexivity.
  - change (Z.pos q~1) with (2 * Z.pos q + 1).
    apply Z.div_unique with 1; lia.
  - change (Z.pos q~0) with (2 * Z.pos q).
    apply Z.div_unique with 0; lia.
  - reflexivity.
Qed.

Lemma shr_iter_m (n : nat) (mrs : shr_record) :
  0 <= shr_m mrs -> shr_m (Nat.iter n shr_1 mrs) = shr_m mrs / 2 ^ Z.of_nat n.
Proof.
  intros Hm. induction n as [|n IH].
  - cbn. now rewrite Z.div_1_r.
  - rewrite Nat.iter_succ, shr_1_m.
    + rewrite IH, Nat2Z.inj_succ, Z.pow_succ_r by lia.
      rewrite Z.div_div by (try lia; apply Z.pow_pos_nonneg; lia).
      f_equal. lia.
    + rewrite IH. apply Z.div_pos; [lia | apply Z.pow_pos_nonneg; lia].
Qed.

Lemma shr_m_spec (m : Z) (r s : bool) (e n : Z) :
  0 <= m -> 0 <= n ->
  shr_m (fst (shr (Build_shr_record m r s) e n)) = m / 2 ^ n /\
  snd (shr (Build_shr_record m r s) e n) = e + n.
Proof.
  intros Hm Hn. unfold shr. destruct n as [|p|p]; try lia.
  - cbn. rewrite Z.div_1_r. split; [reflexivity | lia].
  - cbn [fst snd]. rewrite iter_pos_nat, shr_iter_m by (cbn; lia).
    cbn [shr_m]. rewrite positive_nat_Z. auto.
Qed.

Lemma round_nearest_even_cases m l :
  round_nearest_even m l = m \/ round_nearest_even m l = m + 1.
Proof.
  unfold round_nearest_even. destruct l as [|[]]; auto. destruct (Z.even m); auto.
Qed.

(** Rounding a positive integer [M * 2^e] with at least 53 digits to binary64:
    the result is a normal float within one unit in the last place, or the
    infinity when the exponent leaves the format. *)
Lemma binary_round_aux_faithful (s : bool) (M : positive) (e : Z) (l : location) :
  let d := Z.pos (digits2_pos M) in
  let e1 := d + e - 53 in
  53 <= d -> -1074 <= e1 ->
  (exists m' e',
    binary_round_aux prec emax s (Z.pos M) e l = S754_finite s m' e' /\
    e1 <= e' <= 971 /\ e' <= e1 + 1 /\
    2 ^ 52 <= Z.pos m' < 2 ^ 53 /\
    Z.pos M - 2 ^ (e1 - e) <= Z.pos m' * 2 ^ (e' - e) <= Z.pos M + 2 ^ (e1 - e)) \/
  (binary_round_aux prec emax s (Z.pos M) e l = S754_infinity s /\ 971 <= e1).
Proof.
  intros d e1 Hd Hn.
  pose proof (digits2_pos_bounds M) as [LM UM]. fold d in LM, UM.
  unfold binary_round_aux, shr_fexp.
  cbn [Zdigits2]. fold d.
  assert (Hf : fexp prec emax (d + e) = e1).
  { unfold fexp, SpecFloat.emin, prec, emax. subst e1. lia. }
  rewrite Hf.
  set (n := e1 - e). assert (Hn0 : 0 <= n) by (subst n e1; lia).
  assert (Hrec : exists r0 s0, shr_record_of_loc (Z.pos M) l = Build_shr_record (Z.pos M) r0 s0).
  { destruct l as [|[]]; cbn; eauto. }
  destruct Hrec as (r0 & s0 & ->).
  destruct (shr_m_spec (Z.pos M) r0 s0 e n ltac:(lia) Hn0) as [Sm Se].
  destruct (shr _ e n) as [mrs' e'] eqn:Es. cbn [fst snd] in Sm, Se.
  set (m1 := Z.pos M / 2 ^ n) in *.
  assert (Hpn : 0 < 2 ^ n) by (apply Z.pow_pos_nonneg; lia).
  assert (Hdm : 2 ^ n * m1 <= Z.pos M < 2 ^ n * (m1 + 1)).
  { subst m1. pose proof (Z.mul_div_le (Z.pos M) (2 ^ n) Hpn).
    pose proof (Z.mul_succ_div_gt (Z.pos M) (2 ^ n) Hpn). lia. }
  assert (Hm1 : 2 ^ 52 <= m1 < 2 ^ 53).
  { assert (E1 : 2 ^ (d - 1) = 2 ^ 52 * 2 ^ n).
    { rewrite <- Z.pow_add_r by lia. f_equal. subst n e1. lia. }
    assert (E2 : 2 ^ d = 2 ^ 53 * 2 ^ n).
    { rewrite <- Z.pow_add_r by lia. f_equal. subst n e1. lia. }
    rewrite E1 in LM. rewrite E2 in UM. split.
    - apply Z.div_le_lower_bound; lia.
    - apply Z.div_lt_upper_bound; lia. }
  assert (He' : e' = e1) by (subst n; lia). subst e'.
  rewrite Sm.
  set (m2 := round_nearest_even m1 (loc_of_shr_record mrs')).
  assert (Hm2 : m2 = m1 \/ m2 = m1 + 1) by apply round_nearest_even_cases.
  assert (Hm2pos : 0 < m2) by lia.
  destruct m2 as [|p2|p2] eqn:Em2; try lia.
  cbn [Zdigits2 shr_record_of_loc]. rewrite !He'.
  destruct (Z_lt_le_dec (Z.pos p2) (2 ^ 53)) as [Hlt | Hge].
  - (* no carry *)
    rewrite (digits2_pos_unique p2 53) by (change (53 - 1) with 52; lia).
    assert (Hf2 : fexp prec emax (53 + e1) - e1 = 0).
    { unfold fexp, SpecFloat.emin, prec, emax. lia. }
    rewrite Hf2. cbn [shr shr_m].
    destruct (Z.leb_spec e1 (emax - prec)) as [Hb | Hb]; unfold emax, prec in Hb.
    + left. exists p2, e1. split; [reflexivity|]. split; [lia|]. split; [lia|].
      split; [lia|]. fold n. nia.
    + right. split; [reflexivity | lia].
  - (* carry to the next binade *)
    assert (Ep2 : Z.pos p2 = 2 ^ 53) by lia.
    rewrite (digits2_pos_unique p2 54) by (change (54 - 1) with 53; rewrite Ep2; cbn; lia).
    assert (Hf2 : fexp prec emax (54 + e1) - e1 = 1).
    { unfold fexp, SpecFloat.emin, prec, emax. lia. }
    rewrite Hf2.
    assert (Hp2 : p2 = 9007199254740992%positive) by (apply Pos2Z.inj; rewrite Ep2; reflexivity).
    subst p2. cbn [shr SpecFloat.iter_pos shr_1 shr_m].
    destruct (Z.leb_spec (e1 + 1) (emax - prec)) as [Hb | Hb]; unfold emax, prec in Hb.
    + left. exists 4503599627370496%positive, (e1 + 1).
      split; [reflexivity|]. split; [lia|]. split; [lia|].
      split; [cbn; lia|].
      replace (e1 + 1 - e) with (n + 1) by (subst n; lia).
      rewrite Z.pow_add_r by lia. change (2 ^ 1) with 2.
      change (Z.pos 9007199254740992) with (Z.pos 4503599627370496 * 2) in Hm2.
      nia.
    + right. split; [reflexivity | lia].
Qed.

Lemma bounded_normal (m : positive) (e : Z) :
  2 ^ 52 <= Z.pos m < 2 ^ 53 -> -1074 <= e <= 971 -> bounded prec emax m e = true.
Proof.
  intros Hm He. unfold bounded, canonical_mantissa.
  rewrite (digits2_pos_unique m 53) by (change (53 - 1) with 52; lia).
  apply andb_true_intro. split.
  - apply Z.eqb_eq. unfold fexp, SpecFloat.emin, prec, emax. lia.
  - apply Z.leb_le. unfold emax, prec. lia.
Qed.

Lemma binary_round_aux_sign (s : bool) (M e : Z) (l : location) (s' : bool) (m' : positive) (e' : Z) :
  binary_round_aux prec emax s M e l = S754_finite s' m' e' -> s' = s.
Proof.
  unfold binary_round_aux.
  destruct (shr_fexp _ _ M e l) as [mrs1 e1].
  destruct (shr_fexp _ _ _ e1 loc_Exact) as [mrs2 e2].
  destruct (shr_m mrs2); try discriminate.
  destruct (e2 <=? emax - prec); [|discriminate]. now intros [= <- _ _].
Qed.

Lemma iter_xO_spec (m d : positive) :
  Z.pos (Pos.iter xO m d) = Z.pos m * 2 ^ Z.pos d.
Proof.
  induction d as [|d IH] using Pos.peano_ind.
  - cbn. lia.
  - rewrite Pos.iter_succ, Pos2Z.inj_xO, IH, Pos2Z.inj_succ, Z.pow_succ_r by lia. lia.
Qed.

Lemma shl_align_spec (m : positive) (e e' : Z) :
  e' <= e -> Z.pos (fst (shl_align m e e')) = Z.pos m * 2 ^ (e - e').
Proof.
  intros H. unfold shl_align.
  destruct (e' - e) as [|p|p] eqn:E; cbn [fst]; try lia.
  - replace (e - e') with 0 by lia. cbn. lia.
  - rewrite iter_xO_spec. f_equal. f_equal. lia.
Qed.

(** Adding a negative finite float of smaller exponent to a positive one,
    when the exact difference still has 53 digits or more. *)
Lemma SFadd_pos_neg_faithful (m : positive) (e : Z) (md : positive) (ed : Z) (M : positive) :
  ed <= e ->
  Z.pos M = Z.pos m * 2 ^ (e - ed) - Z.pos md ->
  let d := Z.pos (digits2_pos M) in
  53 <= d -> -1074 <= d + ed - 53 -> d + ed - 53 < 970 ->
  exists m' e',
    SFadd prec emax (S754_finite false m e) (S754_finite true md ed) = S754_finite false m' e' /\
    d + ed - 53 <= e' /\
    Z.pos M - 2 ^ (d - 53) <= Z.pos m' * 2 ^ (e' - ed) <= Z.pos M + 2 ^ (d - 53).
Proof.
  intros Hed HM d Hd Hn Ho.
  cbn [SFadd]. rewrite Z.min_r by lia.
  assert (E2 : fst (shl_align md ed ed) = md).
  { unfold shl_align. rewrite Z.sub_diag. reflexivity. }
  rewrite E2. cbn [cond_Zopp].
  assert (EM : Z.pos (fst (shl_align m e ed)) + - Z.pos md = Z.pos M).
  { rewrite shl_align_spec by lia. lia. }
  rewrite EM. cbn [binary_normalize]. unfold binary_round.
  assert (Hf : fexp prec emax (Z.pos (digits2_pos M) + ed) = d + ed - 53).
  { fold d. unfold fexp, SpecFloat.emin, prec, emax. lia. }
  rewrite Hf.
  assert (Es : shl_align M ed (d + ed - 53) = (M, ed)).
  { unfold shl_align. destruct (d + ed - 53 - ed) eqn:E; try reflexivity. lia. }
  rewrite Es.
  destruct (binary_round_aux_faithful false M ed loc_Exact Hd Hn)
    as [(m' & e' & R & He' & _ & _ & B) | [_ Hinf]]; [|fold d in Hinf; lia].
  fold d in He', B.
  exists m', e'. split; [exact R|]. split; [lia|].
  replace (d + ed - 53 - ed) with (d - 53) in B by lia. exact B.
Qed.

Lemma digits2_pos_ge (M : positive) (k : Z) :
  2 ^ k <= Z.pos M -> k + 1 <= Z.pos (digits2_pos M).
Proof.
  intros H. pose proof (digits2_pos_bounds M) as [_ U].
  destruct (Z_lt_le_dec (Z.pos (digits2_pos M)) (k + 1)) as [Hlt|]; [exfalso | assumption].
  assert (2 ^ Z.pos (digits2_pos M) <= 2 ^ k) by (apply Z.pow_le_mono_r; lia). lia.
Qed.

Lemma digits2_pos_le (M : positive) (k : Z) :
  0 <= k -> Z.pos M < 2 ^ k -> Z.pos (digits2_pos M) <= k.
Proof.
  intros Hk H. pose proof (digits2_pos_bounds M) as [L _].
  destruct (Z_lt_le_dec k (Z.pos (digits2_pos M))) as [Hlt|]; [exfalso | assumption].
  assert (2 ^ k <= 2 ^ (Z.pos (digits2_pos M) - 1)) by (apply Z.pow_le_mono_r; lia). lia.
Qed.

(** Values are measured in units of [2^-55]. *)
Lemma SFadd_delta (m : positive) (e : Z) (md : positive) (ed : Z) :
  -52 <= e <= -50 -> -55 <= ed <= -53 ->
  let E := Z.pos m * 2 ^ (e + 55) in
  let D := Z.pos md * 2 ^ (ed + 55) in
  2 ^ (ed + 107) <= E - D -> E <= 2 ^ 57 ->
  exists m' e',
    SFadd prec emax (S754_finite false m e) (S754_finite true md ed) = S754_finite false m' e' /\
    -55 <= e' /\
    E - D - 16 <= Z.pos m' * 2 ^ (e' + 55) <= E - D + 16.
Proof.
  intros He Hed E D Hlo Hhi.
  set (k := ed + 55). assert (Hk : 0 <= k <= 2) by (subst k; lia).
  assert (Hpk : 0 < 2 ^ k) by (apply Z.pow_pos_nonneg; lia).
  assert (EE : E = Z.pos m * 2 ^ (e - ed) * 2 ^ k).
  { subst E k. rewrite <- Z.mul_assoc, <- Z.pow_add_r by lia. do 2 f_equal. lia. }
  assert (E107 : 2 ^ (ed + 107) = 2 ^ 52 * 2 ^ k).
  { subst k. rewrite <- Z.pow_add_r by lia. f_equal. lia. }
  assert (E57 : 2 ^ 57 = 2 ^ (2 - ed) * 2 ^ k).
  { subst k. rewrite <- Z.pow_add_r by lia. f_equal. lia. }
  set (Mz := Z.pos m * 2 ^ (e - ed) - Z.pos md).
  assert (EM : E - D = Mz * 2 ^ k) by (subst Mz D; fold k; lia).
  assert (HM52 : 2 ^ 52 <= Mz).
  { apply (Z.mul_le_mono_pos_r _ _ (2 ^ k) Hpk). lia. }
  assert (HMhi : Mz < 2 ^ (2 - ed)).
  { apply (Z.mul_lt_mono_pos_r (2 ^ k) _ _ Hpk).
    assert (0 < D) by (subst D; fold k; lia). lia. }
  assert (HMpos : 0 < Mz) by (change (2 ^ 52) with 4503599627370496 in HM52; lia).
  destruct Mz as [|M|M] eqn:EMz; try lia.
  pose proof (digits2_pos_ge M 52 HM52) as Hd1.
  pose proof (digits2_pos_le M (2 - ed) ltac:(lia) HMhi) as Hd2.
  destruct (SFadd_pos_neg_faithful m e md ed M ltac:(lia) ltac:(subst Mz; lia)
              ltac:(lia) ltac:(lia) ltac:(lia)) as (m' & e' & R & He' & B).
  set (d := Z.pos (digits2_pos M)) in *.
  exists m', e'. split; [exact R|]. split; [lia|].
  assert (E' : Z.pos m' * 2 ^ (e' + 55) = Z.pos m' * 2 ^ (e' - ed) * 2 ^ k).
  { subst k. rewrite <- Z.mul_assoc, <- Z.pow_add_r by lia. do 2 f_equal. lia. }
  assert (Herr : 2 ^ (d - 53) * 2 ^ k <= 16).
  { rewrite <- Z.pow_add_r by lia. change 16 with (2 ^ 4).
    apply Z.pow_le_mono_r; subst k; lia. }
  rewrite E', EM. nia.
Qed.

Lemma binary_round_pos_shape (p : positive) :
  (exists m e, binary_round prec emax false p 0 = S754_finite false m e /\
               bounded prec emax m e = true) \/
  binary_round prec emax false p 0 = S754_infinity false.
Proof.
  unfold binary_round.
  pose proof (digits2_pos_bounds p) as [Lp Up].
  set (d := Z.pos (digits2_pos p)) in *.
  assert (Hd0 : 1 <= d) by (subst d; lia).
  assert (Hf : fexp prec emax (d + 0) = d - 53).
  { unfold fexp, SpecFloat.emin, prec, emax. lia. }
  rewrite Hf.
  destruct (Z_lt_le_dec d 53) as [Hlt | Hge].
  - (* fewer than 53 digits: the mantissa is shifted left, exactly *)
    unfold shl_align. destruct (d - 53 - 0) as [|k|k] eqn:Ek; try lia.
    set (mz := Pos.iter xO p k).
    assert (Emz : Z.pos mz = Z.pos p * 2 ^ Z.pos k) by apply iter_xO_spec.
    assert (Hk : Z.pos k = 53 - d) by lia.
    assert (P1 : 2 ^ 52 = 2 ^ (d - 1) * 2 ^ Z.pos k).
    { rewrite <- Z.pow_add_r by lia. f_equal. lia. }
    assert (P2 : 2 ^ 53 = 2 ^ d * 2 ^ Z.pos k).
    { rewrite <- Z.pow_add_r by lia. f_equal. lia. }
    assert (HK : 0 < 2 ^ Z.pos k) by (apply Z.pow_pos_nonneg; lia).
    assert (Hmz : 2 ^ 52 <= Z.pos mz < 2 ^ 53) by (rewrite Emz, P1, P2; nia).
    assert (Dz : Z.pos (digits2_pos mz) = 53)
      by (apply digits2_pos_unique; change (53 - 1) with 52; lia).
    destruct (binary_round_aux_faithful false mz (d - 53) loc_Exact)
      as [(m' & e' & R & He' & _ & Hm' & _) | [R _]]; rewrite ?Dz; try lia.
    + left. exists m', e'. split; [exact R|]. rewrite Dz in He'.
      apply bounded_normal; [exact Hm' | lia].
    + right. exact R.
  - unfold shl_align. destruct (d - 53 - 0) as [|k|k] eqn:Ek; try lia.
    + destruct (binary_round_aux_faithful false p 0 loc_Exact)
        as [(m' & e' & R & He' & _ & Hm' & _) | [R _]]; fold d; try lia.
      * left. exists m', e'. split; [exact R|]. fold d in He'.
        apply bounded_normal; [exact Hm' | lia].
      * right. exact R.
    + destruct (binary_round_aux_faithful false p 0 loc_Exact)
        as [(m' & e' & R & He' & _ & Hm' & _) | [R _]]; fold d; try lia.
      * left. exists m', e'. split; [exact R|]. fold d in He'.
        apply bounded_normal; [exact Hm' | lia].
      * right. exact R.
Qed.

(** [float(z)] of a positive integer is a positive finite float. *)
Lemma of_int_pos (z : Z) (i : float) :
  1 <= z -> PyFloat.of_int z = Ok i ->
  exists m e, Prim2SF i = S754_finite false m e.
Proof.
  intros Hz. unfold PyFloat.of_int. destruct z as [|p|p]; try lia.
  cbn [binary_normalize].
  destruct (binary_round_pos_shape p) as [(m & e & R & V) | R]; rewrite R.
  - intros [= <-]. exists m, e. exact (Prim2SF_SF2Prim (S754_finite false m e) V).
  - discriminate.
Qed.

Lemma mul_pos_sign (a b : float) (ma mb : positive) (ea eb : Z) :
  Prim2SF a = S754_finite false ma ea -> Prim2SF b = S754_finite false mb eb ->
  match Prim2SF (a * b)%float with
  | S754_finite s _ _ => s = false
  | _ => True
  end.
Proof.
  intros Ha Hb. rewrite mul_spec, Ha, Hb. unfold SF64mul. cbn [SFmul xorb].
  destruct (binary_round_aux _ _ _ _ _ _) eqn:R; auto.
  now apply binary_round_aux_sign in R.
Qed.

(** On a float that is not negative, [int] and [math.floor] agree. *)
Lemma to_int_floor_nonneg (x : float) (n : Z) :
  match Prim2SF x with
  | S754_finite s _ _ => s = false
  | _ => True
  end ->
  PyFloat.to_int x = Ok n -> PyFloat.floor x = Ok n.
Proof.
  unfold PyFloat.to_int, PyFloat.floor.
  destruct (Prim2SF x) as [s | s | | s m e]; auto.
  intros ->. destruct (0 <=? e); auto.
Qed.

(** ** Decimal rounding *)

Lemma round_half_even_cases num den :
  0 < den ->
  let q := num / den in let r := num mod den in
  num = den * q + r /\ 0 <= r < den /\
  ((PyFloat.round_half_even num den = q /\ 2 * r <= den /\ (2 * r = den -> Z.even q = true)) \/
   (PyFloat.round_half_even num den = q + 1 /\ den <= 2 * r /\ (2 * r = den -> Z.even q = false))).
Proof.
  intros Hd q r.
  pose proof (Z.div_mod num den ltac:(lia)) as E.
  pose proof (Z.mod_pos_bound num den Hd) as B.
  fold q in E. fold r in E, B.
  split; [exact E|]. split; [exact B|].
  unfold PyFloat.round_half_even. fold q r.
  destruct (Z.compare_spec (2 * r) den) as [H | H | H].
  - destruct (Z.even q) eqn:Ev; [left | right]; repeat split; auto; lia.
  - left. repeat split; try lia.
  - right. repeat split; try lia.
Qed.

Lemma round_half_even_mono n1 d1 n2 d2 :
  0 < d1 -> 0 < d2 -> n1 * d2 <= n2 * d1 ->
  PyFloat.round_half_even n1 d1 <= PyFloat.round_half_even n2 d2.
Proof.
  intros H1 H2 Hle.
  destruct (round_half_even_cases n1 d1 H1) as (E1 & B1 & C1).
  destruct (round_half_even_cases n2 d2 H2) as (E2 & B2 & C2).
  set (q1 := n1 / d1) in *. set (r1 := n1 mod d1) in *.
  set (q2 := n2 / d2) in *. set (r2 := n2 mod d2) in *.
  assert (Hq : q1 <= q2).
  { destruct (Z_le_gt_dec q1 q2) as [|G]; [assumption|exfalso].
    assert (q2 + 1 <= q1) by lia.
    assert (n2 * d1 < (q2 + 1) * d2 * d1) by nia.
    assert ((q2 + 1) * d2 * d1 <= q1 * d1 * d2) by nia.
    nia. }
  destruct (Z.eq_dec q1 q2) as [Eq | Ne].
  - assert (Hr : r1 * d2 <= r2 * d1) by nia.
    destruct C1 as [(-> & C1 & T1) | (-> & C1 & T1)];
    destruct C2 as [(-> & C2 & T2) | (-> & C2 & T2)]; try lia.
    exfalso.
    assert (2 * r2 = d2) by nia.
    assert (2 * r1 = d1) by nia.
    rewrite Eq in T1. rewrite T1 in T2 by assumption. now specialize (T2 ltac:(assumption)).
  - destruct C1 as [(-> & _) | (-> & _)];
    destruct C2 as [(-> & _) | (-> & _)]; lia.
Qed.

Lemma round_half_even_exact a den : 0 < den -> PyFloat.round_half_even (a * den) den = a.
Proof.
  intros Hd. unfold PyFloat.round_half_even.
  rewrite Z.div_mul, Z.mod_mul by lia.
  destruct (Z.compare_spec (2 * 0) den); lia.
Qed.

Lemma round_half_even_bounds a b num den :
  0 < den -> a * den <= num <= b * den -> a <= PyFloat.round_half_even num den <= b.
Proof.
  intros Hd [L U]. split.
  - rewrite <- (round_half_even_exact a den Hd).
    apply round_half_even_mono; nia.
  - etransitivity; [|apply Z.eq_le_incl, (round_half_even_exact b den Hd)].
    apply round_half_even_mono; nia.
Qed.

(** ** The ease factor *)

Lemma Prim2SF_min_ease : Prim2SF SM2.min_ease_factor = S754_finite false 5854679515581645 (-52).
Proof. vm_compute. reflexivity. Qed.
Lemma Prim2SF_max_ease : Prim2SF SM2.max_ease_factor = S754_finite false 4503599627370496 (-50).
Proof. vm_compute. reflexivity. Qed.

Lemma pow2_1074 : 2 ^ 1074 = 4503599627370496 * 2 ^ 1022.
Proof. change 1074 with (52 + 1022). rewrite Z.pow_add_r by lia. reflexivity. Qed.

(** Shape of a float lying between [min_ease_factor] and [max_ease_factor]. *)
Lemma in_range_shape (c : float) :
  (SM2.min_ease_factor <=? c)%float = true ->
  (c <=? SM2.max_ease_factor)%float = true ->
  exists m e, Prim2SF c = S754_finite false m e /\ -52 <= e <= -50 /\
              130 * 2 ^ (- e) <= 100 * Z.pos m <= 400 * 2 ^ (- e).
Proof.
  intros Hlo Hhi.
  assert (Fc : SFfinite (Prim2SF c) = true).
  { apply (leb_finite_between SM2.min_ease_factor SM2.max_ease_factor);
      rewrite ?Prim2SF_min_ease, ?Prim2SF_max_ease; auto. }
  assert (Vc := Prim2SF_valid c).
  rewrite leb_spec in Hlo, Hhi. unfold SFleb in Hlo, Hhi.
  rewrite SFcompare_finite in Hlo, Hhi
    by (auto using Prim2SF_valid; rewrite ?Prim2SF_min_ease, ?Prim2SF_max_ease; reflexivity).
  rewrite Prim2SF_min_ease in Hlo. rewrite Prim2SF_max_ease in Hhi.
  assert (Lo : SFint (S754_finite false 5854679515581645 (-52)) <= SFint (Prim2SF c)).
  { apply Z.compare_le_iff. intros E. rewrite E in Hlo. discriminate. }
  assert (Hi : SFint (Prim2SF c) <= SFint (S754_finite false 4503599627370496 (-50))).
  { apply Z.compare_le_iff. intros E. rewrite E in Hhi. discriminate. }
  clear Hlo Hhi.
  cbn [SFint] in Lo, Hi.
  change (-52 + 1074) with 1022 in Lo. change (-50 + 1074) with (2 + 1022) in Hi.
  rewrite Z.pow_add_r in Hi by lia. change (2 ^ 2) with 4 in Hi.
  assert (HP : 0 < 2 ^ 1022) by (apply Z.pow_pos_nonneg; lia).
  pose proof pow2_1074 as P74.
  set (P := 2 ^ 1022) in *.
  destruct (Prim2SF c) as [s | s | | s m e] eqn:Ec; try discriminate.
  - cbn in Lo. lia.
  - cbn [valid_binary] in Vc. apply bounded_inv in Vc as (Re & D & Dn).
    cbn [SFint] in Lo, Hi.
    assert (Hpe : 0 < 2 ^ (e + 1074)) by (apply Z.pow_pos_nonneg; lia).
    destruct s; [nia|].
    exists m, e. split; [reflexivity|].
    assert (He : e <= -50).
    { destruct (Z_le_gt_dec e (-50)) as [|G]; [assumption|exfalso].
      specialize (Dn ltac:(lia)).
      pose proof (digits2_pos_bounds m) as [L _]. rewrite Dn in L.
      change (2 ^ (53 - 1)) with 4503599627370496 in L.
      assert (2 ^ (3 + 1022) <= 2 ^ (e + 1074)) by (apply Z.pow_le_mono_r; lia).
      rewrite Z.pow_add_r in H by lia. change (2 ^ 3) with 8 in H. fold P in H.
      nia. }
    assert (Hk : 0 < 2 ^ (- e)) by (apply Z.pow_pos_nonneg; lia).
    assert (Hs : 2 ^ (e + 1074) * 2 ^ (- e) = 2 ^ 1074).
    { rewrite <- Z.pow_add_r by lia. f_equal. lia. }
    rewrite P74 in Hs.
    assert (B : 130 * 2 ^ (- e) <= 100 * Z.pos m <= 400 * 2 ^ (- e)).
    { set (A := 2 ^ (e + 1074)) in *. set (K := 2 ^ (- e)) in *.
      split.
      + apply (Z.mul_le_mono_pos_r _ _ A Hpe). nia.
      + apply (Z.mul_le_mono_pos_r _ _ A Hpe). nia. }
    split; [|exact B].
    split; [|lia].
    destruct (Z_le_gt_dec (-52) e) as [|G]; [assumption|exfalso].
    pose proof (digits2_pos_bounds m) as [_ U].
    assert (2 ^ Z.pos (digits2_pos m) <= 2 ^ 53) by (apply Z.pow_le_mono_r; lia).
    assert (2 ^ 53 <= 2 ^ (- e)) by (apply Z.pow_le_mono_r; lia).
    lia.
Qed.

Lemma hundredths_table_ok : hundredths_table = true.
Proof. vm_compute. reflexivity. Qed.

Lemma hundredths_entry n :
  130 <= n <= 400 ->
  (SM2.min_ease_factor <=? hundredths n)%float = true /\
  (hundredths n <=? SM2.max_ease_factor)%float = true /\
  (hundredths n <=? hundredths (n + 1))%float = true.
Proof.
  intros Hn. pose proof hundredths_table_ok as T. unfold hundredths_table in T.
  rewrite forallb_forall in T. specialize (T n).
  rewrite <- list_elem_of_In, elem_of_seqZ in T. specialize (T ltac:(lia)).
  apply andb_prop in T as [T T3]. apply andb_prop in T as [T1 T2]. auto.
Qed.

Lemma hundredths_range n :
  130 <= n <= 400 ->
  (SM2.min_ease_factor <=? hundredths n)%float = true /\
  (hundredths n <=? SM2.max_ease_factor)%float = true.
Proof. intros Hn. destruct (hundredths_entry n Hn) as (? & ? & _). auto. Qed.

Lemma leb_trans_between lo hi a b c :
  SFfinite (Prim2SF lo) = true -> SFfinite (Prim2SF hi) = true ->
  (lo <=? a)%float = true -> (a <=? b)%float = true ->
  (b <=? c)%float = true -> (c <=? hi)%float = true ->
  (a <=? c)%float = true.
Proof.
  intros Flo Fhi Hla Hab Hbc Hch.
  assert (Fb : SFfinite (Prim2SF b) = true).
  { revert Hab Hbc Hla Hch. rewrite !leb_spec. unfold SFleb.
    destruct (Prim2SF lo) as [s1|s1| |s1 m1 e1]; try discriminate;
    destruct (Prim2SF hi) as [s2|s2| |s2 m2 e2]; try discriminate;
    destruct (Prim2SF a) as [sa|sa| |sa ma ea]; try discriminate;
    destruct (Prim2SF c) as [sc|sc| |sc mc ec]; try discriminate;
    destruct (Prim2SF b) as [sb|sb| |sb mb eb]; cbn; try reflexivity; try discriminate;
    repeat match goal with s : bool |- _ => destruct s end; discriminate. }
  assert (Fa : SFfinite (Prim2SF a) = true).
  { apply (leb_finite_between lo b); auto. }
  assert (Fc : SFfinite (Prim2SF c) = true).
  { apply (leb_finite_between b hi); auto. }
  assert (Va : fval a = Some (SFint (Prim2SF a))) by (unfold fval; now rewrite Fa).
  assert (Vb : fval b = Some (SFint (Prim2SF b))) by (unfold fval; now rewrite Fb).
  assert (Vc : fval c = Some (SFint (Prim2SF c))) by (unfold fval; now rewrite Fc).
  rewrite (fval_leb _ _ _ _ Va Vb) in Hab. rewrite (fval_leb _ _ _ _ Vb Vc) in Hbc.
  rewrite (fval_leb _ _ _ _ Va Vc). lia.
Qed.

Lemma hundredths_mono n1 n2 :
  130 <= n1 -> n1 <= n2 -> n2 <= 400 ->
  (hundredths n1 <=? hundredths n2)%float = true.
Proof.
  intros H1 H12 H2.
  assert (Hrefl : forall n, 130 <= n <= 400 -> (hundredths n <=? hundredths n)%float = true).
  { intros n Hn. destruct (hundredths_range n Hn) as [A B].
    assert (F : SFfinite (Prim2SF (hundredths n)) = true).
    { apply (leb_finite_between SM2.min_ease_factor SM2.max_ease_factor);
        rewrite ?Prim2SF_min_ease, ?Prim2SF_max_ease; auto. }
    assert (V : fval (hundredths n) = Some (SFint (Prim2SF (hundredths n))))
      by (unfold fval; now rewrite F).
    rewrite (fval_leb _ _ _ _ V V). lia. }
  replace n2 with (n1 + Z.of_nat (Z.to_nat (n2 - n1))) in * by lia.
  induction (Z.to_nat (n2 - n1)) as [|k IH].
  - rewrite Z.add_0_r. apply Hrefl. lia.
  - rewrite Nat2Z.inj_succ in *.
    destruct (hundredths_entry (n1 + Z.of_nat k) ltac:(lia)) as (_ & _ & St).
    replace (n1 + Z.succ (Z.of_nat k)) with (n1 + Z.of_nat k + 1) by lia.
    destruct (hundredths_range n1 ltac:(lia)) as [A _].
    destruct (hundredths_range (n1 + Z.of_nat k + 1) ltac:(lia)) as [_ B].
    apply (leb_trans_between SM2.min_ease_factor SM2.max_ease_factor _ (hundredths (n1 + Z.of_nat k)));
      rewrite ?Prim2SF_min_ease, ?Prim2SF_max_ease; auto.
    apply IH; lia.
Qed.

(** [round(c, 2)] of a float in the ease range is a table entry. *)
Lemma round_to_in_range (c : float) :
  (SM2.min_ease_factor <=? c)%float = true ->
  (c <=? SM2.max_ease_factor)%float = true ->
  exists m e, Prim2SF c = S754_finite false m e /\ -52 <= e <= -50 /\
    130 <= PyFloat.round_half_even (100 * Z.pos m) (2 ^ (- e)) <= 400 /\
    PyFloat.round_to 2 c = hundredths (PyFloat.round_half_even (100 * Z.pos m) (2 ^ (- e))).
Proof.
 intros Hlo Hhi.
 destruct (in_range_shape c Hlo Hhi) as (m & e & Ec & He & B).
  exists m, e. split; [exact Ec|]. split; [exact He|].
  assert (Hk : 0 < 2 ^ (- e)) by (apply Z.pow_pos_nonneg; lia).
  assert (R : 130 <= PyFloat.round_half_even (100 * Z.pos m) (2 ^ (- e)) <= 400).
  { apply round_half_even_bounds; lia. }
  split; [exact R|].
  unfold PyFloat.round_to, PyFloat.scaled_round, PyFloat.pow2. rewrite Ec.
  destruct (Z.leb_spec 0 e); [lia|].
 change (10 ^ 2) with 100.
 destruct (PyFloat.round_half_even _ _) as [|p|p]; try lia.
  reflexivity.
Qed.

Lemma clamp_in_range (x : float) : in_ease_range (clamp x).
Proof.
  unfold in_ease_range, clamp, PyFloat.max, PyFloat.min.
  destruct (x <? SM2.max_ease_factor)%float eqn:H4.
  - destruct (SM2.min_ease_factor <? x)%float eqn:H13.
    + split; now apply ltb_leb.
    + split; vm_compute; reflexivity.
  - split; vm_compute; reflexivity.
Qed.

Lemma fval_min_ease : fval SM2.min_ease_factor = Some z_min.
Proof. unfold fval. rewrite Prim2SF_min_ease. reflexivity. Qed.
Lemma fval_max_ease : fval SM2.max_ease_factor = Some z_max.
Proof. unfold fval. rewrite Prim2SF_max_ease. reflexivity. Qed.

Lemma z_min_lt_max : z_min < z_max.
Proof.
  unfold z_min, z_max. change 1024 with (2 + 1022).
  rewrite Z.pow_add_r by lia.
  assert (0 < 2 ^ 1022) by (apply Z.pow_pos_nonneg; lia).
  change (2 ^ 2) with 4. set (P := 2 ^ 1022) in *. lia.
Qed.

Lemma clamp_fval (a : float) (za : Z) :
  fval a = Some za -> fval (clamp a) = Some (clampZ za).
Proof.
  intros Ha. unfold clamp, PyFloat.max, PyFloat.min, clampZ.
  rewrite (fval_ltb a _ _ _ Ha fval_max_ease).
  destruct (za <? z_max).
  - rewrite (fval_ltb _ a _ _ fval_min_ease Ha).
    destruct (z_min <? za); [exact Ha | exact fval_min_ease].
  - rewrite (fval_ltb _ _ _ _ fval_min_ease fval_max_ease).
    pose proof z_min_lt_max. destruct (Z.ltb_spec z_min z_max); [|lia].
    exact fval_max_ease.
Qed.

Lemma clampZ_mono (a b : Z) : a <= b -> clampZ a <= clampZ b.
Proof.
  intros H. pose proof z_min_lt_max. unfold clampZ.
  destruct (Z.ltb_spec a z_max), (Z.ltb_spec b z_max),
           (Z.ltb_spec z_min a), (Z.ltb_spec z_min b); lia.
Qed.

(** Rounding to two decimals is monotone on the ease range. *)
Lemma round_to_mono_in_range (a b : float) (za zb : Z) :
  in_ease_range a -> in_ease_range b ->
  fval a = Some za -> fval b = Some zb -> za <= zb ->
  (PyFloat.round_to 2 a <=? PyFloat.round_to 2 b)%float = true.
Proof.
  intros [La Ua] [Lb Ub] Ha Hb Hle.
  destruct (round_to_in_range a La Ua) as (ma & ea & Ea & Hea & Ra & ->).
  destruct (round_to_in_range b Lb Ub) as (mb & eb & Eb & Heb & Rb & ->).
  apply hundredths_mono; try lia.
  unfold fval in Ha, Hb. rewrite Ea in Ha. rewrite Eb in Hb.
  cbn in Ha, Hb. injection Ha as <-. injection Hb as <-.
  apply round_half_even_mono; try (apply Z.pow_pos_nonneg; lia).
  assert (Ta : 2 ^ (ea + 1074) * 2 ^ (- ea) = 2 ^ 1074)
    by (rewrite <- Z.pow_add_r by lia; f_equal; lia).
  assert (Tb : 2 ^ (eb + 1074) * 2 ^ (- eb) = 2 ^ 1074)
    by (rewrite <- Z.pow_add_r by lia; f_equal; lia).
  assert (HT : 0 < 2 ^ 1074) by (apply Z.pow_pos_nonneg; lia).
  assert (HKa : 0 < 2 ^ (- ea)) by (apply Z.pow_pos_nonneg; lia).
  assert (HKb : 0 < 2 ^ (- eb)) by (apply Z.pow_pos_nonneg; lia).
  set (T := 2 ^ 1074) in *.
  set (Aa := 2 ^ (ea + 1074)) in *. set (Ab := 2 ^ (eb + 1074)) in *.
  set (Ka := 2 ^ (- ea)) in *. set (Kb := 2 ^ (- eb)) in *.
  apply (Z.mul_le_mono_pos_r _ _ T HT).
  assert (S1 : Z.pos ma * Aa * (Ka * Kb) <= Z.pos mb * Ab * (Ka * Kb)).
  { apply Z.mul_le_mono_nonneg_r; [nia | exact Hle]. }
  replace (100 * Z.pos ma * Kb * T) with (100 * (Z.pos ma * Aa * (Ka * Kb)))
    by (rewrite <- Ta; ring).
  replace (100 * Z.pos mb * Ka * T) with (100 * (Z.pos mb * Ab * (Ka * Kb)))
    by (rewrite <- Tb; ring).
  lia.
Qed.

Lemma clamp_round_mono (a b : float) (za zb : Z) :
  fval a = Some za -> fval b = Some zb -> za <= zb ->
  (PyFloat.round_to 2 (clamp a) <=? PyFloat.round_to 2 (clamp b))%float = true.
Proof.
  intros Ha Hb Hle.
  apply (round_to_mono_in_range _ _ (clampZ za) (clampZ zb));
    auto using clamp_in_range, clamp_fval, clampZ_mono.
Qed.

Lemma update_ease_factor_eq (ease : float) (q : Z) :
  0 <= q <= 4 ->
  SM2._update_ease_factor ease q = Ok (PyFloat.round_to 2 (clamp (ease + delta q)%float)).
Proof.
  intros Hq. unfold SM2._update_ease_factor, delta, clamp.
  assert (C : q = 0 \/ q = 1 \/ q = 2 \/ q = 3 \/ q = 4) by lia.
  destruct C as [-> | [-> | [-> | [-> | ->]]]];
    (destruct (PyFloat.of_int _) eqn:E; [reflexivity | vm_compute in E; discriminate]).
Qed.

Lemma delta_0 : Prim2SF (delta 0) = S754_finite true 7205759403792793 (-53).
Proof. vm_compute. reflexivity. Qed.
Lemma delta_1 : Prim2SF (delta 1) = S754_finite true 4863887597560136 (-53).
Proof. vm_compute. reflexivity. Qed.
Lemma delta_2 : Prim2SF (delta 2) = S754_finite true 5764607523034236 (-54).
Proof. vm_compute. reflexivity. Qed.
Lemma delta_3 : Prim2SF (delta 3) = S754_finite true 5044031582654955 (-55).
Proof. vm_compute. reflexivity. Qed.
Lemma delta_4 : Prim2SF (delta 4) = S754_zero false.
Proof. vm_compute. reflexivity. Qed.

Lemma pow2_1074_split (e : Z) :
  -55 <= e -> 2 ^ (e + 1074) = 2 ^ (e + 55) * 2 ^ 1019.
Proof. intros H. rewrite <- Z.pow_add_r by lia. f_equal. lia. Qed.

(** [ease + delta q] is finite and within 16 units of the exact sum. *)
Lemma add_delta_fval (ease : float) (q : Z) :
  in_ease_range ease -> 0 <= q <= 4 ->
  exists m e W,
    Prim2SF ease = S754_finite false m e /\ -52 <= e <= -50 /\
    fval (ease + delta q)%float = Some (W * 2 ^ 1019) /\
    Z.pos m * 2 ^ (e + 55) - delta_units q - 16 <= W
      <= Z.pos m * 2 ^ (e + 55) - delta_units q + 16.
Proof.
  intros [Lo Hi] Hq.
  destruct (in_range_shape ease Lo Hi) as (m & e & Ee & He & B).
  exists m, e.
  assert (HE : 5854679515581645 * 8 <= Z.pos m * 2 ^ (e + 55) <= 2 ^ 57).
  { assert (C : e = -52 \/ e = -51 \/ e = -50) by lia.
    destruct C as [-> | [-> | ->]]; cbn in B |- *; lia. }
  assert (C : q = 0 \/ q = 1 \/ q = 2 \/ q = 3 \/ q = 4) by lia.
  unfold fval. rewrite add_spec, Ee.
  destruct C as [-> | [-> | [-> | [-> | ->]]]];
    rewrite ?delta_0, ?delta_1, ?delta_2, ?delta_3, ?delta_4.
  5: { exists (Z.pos m * 2 ^ (e + 55)). split; [reflexivity|]. split; [lia|].
       cbn [SF64add SFadd SFfinite SFint]. split; [|cbn; lia].
       rewrite pow2_1074_split by lia. f_equal. ring. }
  all: match goal with
       | |- context [SF64add _ (S754_finite true ?md ?ed)] =>
           destruct (SFadd_delta m e md ed He ltac:(lia)
                       ltac:(cbn; cbn in HE; lia) ltac:(lia))
             as (m' & e' & R & He' & Bd)
       end;
    unfold SF64add; rewrite R; cbn [SFfinite SFint];
    exists (Z.pos m' * 2 ^ (e' + 55));
    (split; [reflexivity|]); (split; [lia|]);
    (split; [rewrite pow2_1074_split by lia; f_equal; ring | cbn in Bd |- *; lia]).
Qed.

Lemma delta_units_gap (q1 q2 : Z) :
  0 <= q1 -> q1 < q2 -> q2 <= 4 -> delta_units q2 + 32 <= delta_units q1.
Proof.
  intros H1 H12 H2.
  assert (C1 : q1 = 0 \/ q1 = 1 \/ q1 = 2 \/ q1 = 3) by lia.
  assert (C2 : q2 = 1 \/ q2 = 2 \/ q2 = 3 \/ q2 = 4) by lia.
  destruct C1 as [-> | [-> | [-> | ->]]], C2 as [-> | [-> | [-> | ->]]]; cbn; lia.
Qed.

Lemma update_ease_factor_range (ease : float) (q : Z) (r : float) :
  SM2._update_ease_factor ease q = Ok r -> in_ease_range r.
Proof.
  unfold SM2._update_ease_factor. destruct (PyFloat.of_int (5 - q)) as [k|]; [|discriminate].
  cbn [res_bind]. intros [= <-].
  match goal with |- in_ease_range (PyFloat.round_to 2 ?c) =>
    change c with (clamp (ease + (0.1 - k * (0.08 + k * 0.02)))%float) end.
  destruct (clamp_in_range (ease + (0.1 - k * (0.08 + k * 0.02)))%float) as [L U].
  destruct (round_to_in_range _ L U) as (m & e & _ & _ & R & ->).
  apply hundredths_range, R.
Qed.

Lemma update_ease_factor_mono (ease : float) (q1 q2 : Z) :
  in_ease_range ease -> 0 <= q1 -> q1 <= q2 -> q2 <= 4 ->
  exists r1 r2,
    SM2._update_ease_factor ease q1 = Ok r1 /\
    SM2._update_ease_factor ease q2 = Ok r2 /\
    (r1 <=? r2)%float = true.
Proof.
  intros Hr H1 H12 H2.
  rewrite !update_ease_factor_eq by lia.
  eexists _, _. split; [reflexivity|]. split; [reflexivity|].
  destruct (add_delta_fval ease q1 Hr ltac:(lia)) as (m1 & e1 & W1 & E1 & He1 & F1 & B1).
  destruct (add_delta_fval ease q2 Hr ltac:(lia)) as (m2 & e2 & W2 & E2 & He2 & F2 & B2).
  rewrite E1 in E2. injection E2 as <- <-.
  apply (clamp_round_mono _ _ _ _ F1 F2).
  assert (HP : 0 < 2 ^ 1019) by (apply Z.pow_pos_nonneg; lia).
  apply Z.mul_le_mono_nonneg_r; [lia|].
  destruct (Z.eq_dec q1 q2) as [-> | Hne].
  - rewrite F1 in F2. injection F2 as F2.
    apply Z.mul_reg_r in F2; lia.
  - pose proof (delta_units_gap q1 q2 H1 ltac:(lia) H2). lia.
Qed.

(** ** Binary64: exact conversions and directed bounds *)

Lemma binary_round_aux_exact (s : bool) (M : positive) (e : Z) :
  Z.pos (digits2_pos M) = 53 -> -1074 <= e <= 971 ->
  binary_round_aux prec emax s (Z.pos M) e loc_Exact = S754_finite s M e.
Proof.
  intros Hd He. unfold binary_round_aux, shr_fexp.
  cbn [Zdigits2 shr_record_of_loc]. rewrite Hd.
  assert (Hf : fexp prec emax (53 + e) - e = 0).
  { unfold fexp, SpecFloat.emin, prec, emax. lia. }
  rewrite Hf. cbn [shr loc_of_shr_record round_nearest_even shr_m Zdigits2].
  rewrite Hd, Hf. cbn [shr shr_m].
  destruct (Z.leb_spec e (emax - prec)) as [_ | H]; [reflexivity|].
  unfold emax, prec in H. lia.
Qed.

(** [float(z)] is exact for a positive integer below [2^53]. *)
Lemma of_int_exact (z : Z) :
  1 <= z < 2 ^ 53 ->
  exists i mi ei,
    PyFloat.of_int z = Ok i /\ Prim2SF i = S754_finite false mi ei /\
    -52 <= ei <= 0 /\ Z.pos mi = z * 2 ^ (- ei) /\ 2 ^ 52 <= Z.pos mi < 2 ^ 53.
Proof.
  intros [Hz1 Hz2]. destruct z as [|p|p]; try lia.
  unfold PyFloat.of_int. cbn [binary_normalize]. unfold binary_round.
  pose proof (digits2_pos_bounds p) as [Lp Up].
  set (d := Z.pos (digits2_pos p)) in *.
  assert (Hd1 : 1 <= d) by (subst d; lia).
  assert (Hd53 : d <= 53) by (subst d; apply digits2_pos_le; lia).
  assert (Hf : fexp prec emax (d + 0) = d - 53).
  { unfold fexp, SpecFloat.emin, prec, emax. lia. }
  rewrite Hf. unfold shl_align.
  destruct (d - 53 - 0) as [|k|k] eqn:Ek; try lia.
  - (* exactly 53 digits *)
    assert (Hd : d = 53) by lia.
    rewrite binary_round_aux_exact by (fold d; lia).
    eexists _, p, 0. split; [reflexivity|]. split.
    + apply Prim2SF_SF2Prim. cbn [valid_binary]. apply bounded_normal; [|lia].
      rewrite Hd in Lp, Up. change (53 - 1) with 52 in Lp. lia.
    + split; [lia|]. split; [cbn; lia|].
      rewrite Hd in Lp, Up. change (53 - 1) with 52 in Lp. lia.
  - set (mz := Pos.iter xO p k).
    assert (Emz : Z.pos mz = Z.pos p * 2 ^ Z.pos k) by apply iter_xO_spec.
    assert (Hk : Z.pos k = 53 - d) by lia.
    assert (P1 : 2 ^ 52 = 2 ^ (d - 1) * 2 ^ Z.pos k).
    { rewrite <- Z.pow_add_r by lia. f_equal. lia. }
    assert (P2 : 2 ^ 53 = 2 ^ d * 2 ^ Z.pos k).
    { rewrite <- Z.pow_add_r by lia. f_equal. lia. }
    assert (HK : 0 < 2 ^ Z.pos k) by (apply Z.pow_pos_nonneg; lia).
    assert (Hmz : 2 ^ 52 <= Z.pos mz < 2 ^ 53) by (rewrite Emz, P1, P2; nia).
    assert (Dz : Z.pos (digits2_pos mz) = 53)
      by (apply digits2_pos_unique; change (53 - 1) with 52; lia).
    rewrite binary_round_aux_exact by (auto; lia).
    eexists _, mz, (d - 53). split; [reflexivity|]. split.
    + apply Prim2SF_SF2Prim. cbn [valid_binary]. apply bounded_normal; [exact Hmz | lia].
    + split; [lia|]. split; [|exact Hmz].
      rewrite Emz. do 2 f_equal. lia.
Qed.

(** Rounding lands on one of the two neighbours of the exact value on the
    grid of the result's binade. *)
Lemma binary_round_aux_between (s : bool) (M : positive) (e : Z) (l : location) :
  let d := Z.pos (digits2_pos M) in
  let e1 := d + e - 53 in
  53 <= d -> -1074 <= e1 ->
  (exists m' e',
    binary_round_aux prec emax s (Z.pos M) e l = S754_finite s m' e' /\
    e1 <= e' <= 971 /\
    2 ^ 52 <= Z.pos m' < 2 ^ 53 /\
    Z.pos M / 2 ^ (e1 - e) * 2 ^ (e1 - e) <= Z.pos m' * 2 ^ (e' - e)
      <= (Z.pos M / 2 ^ (e1 - e) + 1) * 2 ^ (e1 - e)) \/
  (binary_round_aux prec emax s (Z.pos M) e l = S754_infinity s /\ 971 <= e1).
Proof.
  intros d e1 Hd Hn.
  pose proof (digits2_pos_bounds M) as [LM UM]. fold d in LM, UM.
  unfold binary_round_aux, shr_fexp.
  cbn [Zdigits2]. fold d.
  assert (Hf : fexp prec emax (d + e) = e1).
  { unfold fexp, SpecFloat.emin, prec, emax. subst e1. lia. }
  rewrite Hf.
  set (n := e1 - e). assert (Hn0 : 0 <= n) by (subst n e1; lia).
  assert (Hrec : exists r0 s0, shr_record_of_loc (Z.pos M) l = Build_shr_record (Z.pos M) r0 s0).
  { destruct l as [|[]]; cbn; eauto. }
  destruct Hrec as (r0 & s0 & ->).
  destruct (shr_m_spec (Z.pos M) r0 s0 e n ltac:(lia) Hn0) as [Sm Se].
  destruct (shr _ e n) as [mrs' e'] eqn:Es. cbn [fst snd] in Sm, Se.
  set (m1 := Z.pos M / 2 ^ n) in *.
  assert (Hpn : 0 < 2 ^ n) by (apply Z.pow_pos_nonneg; lia).
  assert (Hm1 : 2 ^ 52 <= m1 < 2 ^ 53).
  { assert (E1 : 2 ^ (d - 1) = 2 ^ 52 * 2 ^ n).
    { rewrite <- Z.pow_add_r by lia. f_equal. subst n e1. lia. }
    assert (E2 : 2 ^ d = 2 ^ 53 * 2 ^ n).
    { rewrite <- Z.pow_add_r by lia. f_equal. subst n e1. lia. }
    rewrite E1 in LM. rewrite E2 in UM. split.
    - apply Z.div_le_lower_bound; lia.
    - apply Z.div_lt_upper_bound; lia. }
  assert (He' : e' = e1) by (subst n; lia). subst e'.
  rewrite Sm.
  set (m2 := round_nearest_even m1 (loc_of_shr_record mrs')).
  assert (Hm2 : m2 = m1 \/ m2 = m1 + 1) by apply round_nearest_even_cases.
  assert (Hm2pos : 0 < m2) by lia.
  destruct m2 as [|p2|p2] eqn:Em2; try lia.
  cbn [Zdigits2 shr_record_of_loc]. rewrite !He'.
  destruct (Z_lt_le_dec (Z.pos p2) (2 ^ 53)) as [Hlt | Hge].
  - rewrite (digits2_pos_unique p2 53) by (change (53 - 1) with 52; lia).
    assert (Hf2 : fexp prec emax (53 + e1) - e1 = 0).
    { unfold fexp, SpecFloat.emin, prec, emax. lia. }
    rewrite Hf2. cbn [shr shr_m].
    destruct (Z.leb_spec e1 (emax - prec)) as [Hb | Hb]; unfold emax, prec in Hb.
    + left. exists p2, e1. split; [reflexivity|]. split; [lia|]. split; [lia|].
      fold n. destruct Hm2 as [-> | ->]; nia.
    + right. split; [reflexivity | lia].
  - assert (Ep2 : Z.pos p2 = 2 ^ 53) by lia.
    rewrite (digits2_pos_unique p2 54) by (change (54 - 1) with 53; rewrite Ep2; cbn; lia).
    assert (Hf2 : fexp prec emax (54 + e1) - e1 = 1).
    { unfold fexp, SpecFloat.emin, prec, emax. lia. }
    rewrite Hf2.
    assert (Hp2 : p2 = 9007199254740992%positive) by (apply Pos2Z.inj; rewrite Ep2; reflexivity).
    subst p2. cbn [shr SpecFloat.iter_pos shr_1 shr_m].
    destruct (Z.leb_spec (e1 + 1) (emax - prec)) as [Hb | Hb]; unfold emax, prec in Hb.
    + left. exists 4503599627370496%positive, (e1 + 1).
      split; [reflexivity|]. split; [lia|]. split; [cbn; lia|].
      replace (e1 + 1 - e) with (n + 1) by (subst n; lia).
      rewrite Z.pow_add_r by lia. change (2 ^ 1) with 2.
      change (Z.pos 9007199254740992) with (Z.pos 4503599627370496 * 2) in Hm2.
      destruct Hm2 as [Hm2 | Hm2]; nia.
    + right. split; [reflexivity | lia].
Qed.

Lemma floor_between_neighbours (M V N J K : Z) :
  0 < N -> 0 < J -> K = N * J ->
  M / N * N <= V <= (M / N + 1) * N ->
  M / K <= V / K <= M / K + 1.
Proof.
  intros HN HJ HK [L U].
  assert (K0 : 0 < K) by (subst K; apply Z.mul_pos_pos; lia).
  set (p := M / K).
  assert (P1 : K * p <= M) by (apply Z.mul_div_le; exact K0).
  assert (P2 : M < K * Z.succ p) by (apply Z.mul_succ_div_gt; exact K0).
  split.
  - apply Z.div_le_lower_bound; [exact K0|].
    assert (Q : p * J <= M / N).
    { apply Z.div_le_lower_bound; [exact HN|]. rewrite HK in P1.
      replace (N * (p * J)) with (N * J * p) by ring. exact P1. }
    apply (Z.mul_le_mono_nonneg_r _ _ N) in Q; [|lia].
    replace (K * p) with (p * J * N) by (rewrite HK; ring). lia.
  - apply Z.lt_succ_r, Z.div_lt_upper_bound; [exact K0|].
    assert (Q : M / N < Z.succ p * J).
    { apply Z.div_lt_upper_bound; [exact HN|]. rewrite HK in P2.
      replace (N * (Z.succ p * J)) with (N * J * Z.succ p) by ring. exact P2. }
    assert (Q' : (M / N + 1) * N <= Z.succ p * J * N)
      by (apply Z.mul_le_mono_nonneg_r; lia).
    replace (K * Z.succ (p + 1)) with (Z.succ p * J * N + K) by (rewrite HK; ring).
    lia.
Qed.

(** [int(float(z) * ease)] against the floor of the exact product, for an
    ease factor in range and an interval below [2^50]. *)
Lemma float_product_floor (z : Z) (i ease : float) :
  1 <= z < 2 ^ 50 -> PyFloat.of_int z = Ok i -> in_ease_range ease ->
  exists n p, PyFloat.to_int (i * ease)%float = Ok n /\
              spec_floor_product z ease = Some p /\
              p <= n <= p + 1.
Proof.
  intros Hz Hi [Lo Hi'].
  destruct (of_int_exact z ltac:(change (2 ^ 53) with (8 * 2 ^ 50); lia))
    as (i' & mi & ei & Hi2 & Si & Hei & Emi & Bmi).
  rewrite Hi in Hi2. injection Hi2 as <-.
  destruct (in_range_shape ease Lo Hi') as (me & ee & Se & Hee & Be).
  assert (Vme := Prim2SF_valid ease). rewrite Se in Vme. cbn [valid_binary] in Vme.
  apply bounded_inv in Vme as (_ & Dme & Dn). specialize (Dn ltac:(lia)).
  pose proof (digits2_pos_bounds me) as [Lme Ume]. rewrite Dn in Lme, Ume.
  change (53 - 1) with 52 in Lme.
  (* the shift of the interval is at least 3 *)
  assert (Hei3 : 3 <= - ei).
  { destruct (Z_lt_le_dec (- ei) 3) as [Hlt|]; [exfalso | assumption].
    assert (2 ^ (- ei) <= 2 ^ 2) by (apply Z.pow_le_mono_r; lia).
    change (2 ^ 2) with 4 in *. change (2 ^ 50) with 1125899906842624 in Hz.
    change (2 ^ 52) with 4503599627370496 in Bmi. nia. }
  unfold spec_floor_product. rewrite Se.
  destruct (Z.leb_spec 0 ee) as [Hbad|_]; [lia|].
  unfold PyFloat.to_int. rewrite mul_spec, Si, Se. unfold SF64mul. cbn [SFmul xorb].
  set (M := (mi * me)%positive). set (e := ei + ee).
  assert (EM : Z.pos M = Z.pos mi * Z.pos me) by reflexivity.
  assert (HM : 2 ^ 104 <= Z.pos M < 2 ^ 106).
  { change (2 ^ 104) with (2 ^ 52 * 2 ^ 52). change (2 ^ 106) with (2 ^ 53 * 2 ^ 53).
    rewrite EM. split.
    - apply Z.mul_le_mono_nonneg; lia.
    - apply Z.mul_lt_mono_nonneg; lia. }
  assert (HD : 105 <= Z.pos (digits2_pos M) <= 106).
  { split; [apply (digits2_pos_ge M 104) | apply (digits2_pos_le M 106)]; lia. }
  set (D := Z.pos (digits2_pos M)) in *.
  destruct (binary_round_aux_between false M e loc_Exact)
    as [(m' & e' & R & He' & _ & B) | [_ Hinf]]; fold D; subst e; try lia.
  fold D in He', B. rewrite R.
  set (e := ei + ee) in *.
  replace (D + e - 53 - e) with (D - 53) in B by lia.
  set (V := Z.pos m' * 2 ^ (e' - e)) in *.
  set (K := 2 ^ (- e)). assert (HK : 0 < K) by (subst K; apply Z.pow_pos_nonneg; lia).
  assert (Hn : (if 0 <=? e' then Z.pos m' * PyFloat.pow2 e'
                else Z.pos m' / PyFloat.pow2 (- e')) = V / K).
  { unfold PyFloat.pow2. destruct (Z.leb_spec 0 e') as [Hp | Hp].
    - subst V K. replace (e' - e) with (e' + - e) by lia.
      rewrite Z.pow_add_r by lia. rewrite Z.mul_assoc, Z.div_mul by lia. reflexivity.
    - subst V K. replace (- e) with (- e' + (e' - e)) by lia.
      rewrite Z.pow_add_r by lia.
      rewrite Z.div_mul_cancel_r; [reflexivity | | ];
        apply Z.pow_nonzero; lia. }
  cbn zeta.
  assert (Hp : z * Z.pos me / 2 ^ (- ee) = Z.pos M / K).
  { rewrite EM, Emi. subst K e. replace (- (ei + ee)) with (- ee + - ei) by lia.
    rewrite Z.pow_add_r by lia.
    replace (z * 2 ^ (- ei) * Z.pos me) with (z * Z.pos me * 2 ^ (- ei)) by ring.
    rewrite Z.div_mul_cancel_r; [reflexivity | |]; apply Z.pow_nonzero; lia. }
  exists (V / K), (Z.pos M / K).
  split; [now rewrite Hn|]. split; [now rewrite Hp|].
  apply (floor_between_neighbours (Z.pos M) V (2 ^ (D - 53)) (2 ^ (- e - (D - 53))) K).
  - apply Z.pow_pos_nonneg; lia.
  - apply Z.pow_pos_nonneg; subst e; lia.
  - subst K. rewrite <- Z.pow_add_r by (subst e; lia). f_equal. lia.
  - exact B.
Qed.

(** ** Seconds of a time difference *)

(** The quotient that [SFdiv] rounds when a positive number of microseconds
    is divided by [10^6]. *)
Lemma div_core_microseconds (p : positive) :
  let s := Z.max 0 (73 - Z.pos (digits2_pos p)) in
  exists l,
    SFdiv_core_binary prec emax (Z.pos p) 0 1000000 0
      = (Z.pos p * 2 ^ s / 1000000, - s, l).
Proof.
  intros s. unfold SFdiv_core_binary.
  cbn [Zdigits2]. change (Z.pos (digits2_pos 1000000)) with 20.
  set (d1 := Z.pos (digits2_pos p)) in *.
  assert (Hd1 : 0 < d1) by (subst d1; lia).
  assert (Hf : fexp prec emax (d1 + 0 - (20 + 0)) = d1 - 73).
  { unfold fexp, SpecFloat.emin, prec, emax. lia. }
  rewrite Hf. change (0 - 0) with 0.
  assert (He : Z.min (d1 - 73) 0 = - s) by (subst s; lia).
  rewrite He. replace (0 - - s) with s by lia.
  assert (Hm : match s with
               | 0 => Z.pos p
               | Z.pos _ => Z.shiftl (Z.pos p) s
               | Z.neg _ => 0
               end = Z.pos p * 2 ^ s).
  { assert (Hs : 0 <= s) by (subst s; lia).
    clear He. clearbody s.
    destruct s as [|q|q]; try lia.
    apply Z.shiftl_mul_pow2. lia. }
  rewrite Hm.
  unfold Z.div. destruct (Z.div_eucl (Z.pos p * 2 ^ s) 1000000) as [q r].
  eexists. reflexivity.
Qed.

Lemma seconds_threshold (p S Q N V : Z) :
  7200000000 < p -> 0 < S -> 0 < N ->
  (p < 2 ^ 51 -> 2 ^ 22 <= S /\ p * S < 2 ^ 73) ->
  (2 ^ 51 <= p -> 2 ^ 72 <= p * S) ->
  Q = p * S / 1000000 ->
  N * 2 ^ 52 <= Q ->
  Q / N * N <= V ->
  7200 * S < V.
Proof.
  intros Hp HS HN Hsmall Hbig HQ HNQ HV.
  assert (Q1 : 1000000 * Q <= p * S) by (subst Q; apply Z.mul_div_le; lia).
  assert (Q2 : p * S < 1000000 * Z.succ Q) by (subst Q; apply Z.mul_succ_div_gt; lia).
  assert (V1 : Q < Q / N * N + N).
  { pose proof (Z.mul_succ_div_gt Q N HN). lia. }
  assert (V2 : Q - N < V) by lia.
  assert (V3 : (Q - N) * 2 ^ 52 >= Q * 2 ^ 52 - Q) by lia.
  change (2 ^ 52) with 4503599627370496 in *.
  change (2 ^ 51) with 2251799813685248 in *.
  change (2 ^ 22) with 4194304 in *.
  change (2 ^ 72) with 4722366482869645213696 in *.
  change (2 ^ 73) with 9444732965739290427392 in *.
  assert (HpS : 7200000001 * S <= p * S) by (apply Z.mul_le_mono_nonneg_r; lia).
  assert (G : 7200 * S * 4503599627370496 <= (Q - N) * 4503599627370496);
    [|apply Z.mul_le_mono_pos_r in G; lia].
  destruct (Z_lt_le_dec p 2251799813685248) as [Hlt | Hge].
  - destruct (Hsmall Hlt) as [S22 PS]. lia.
  - specialize (Hbig Hge).
    assert (S * 2251799813685248 <= p * S) by nia.
    lia.
Qed.

(** More than 7200 seconds in microseconds are more than 7200.0 seconds
    after the division by [10^6]. *)
Lemma truediv_seconds_gt (d : Z) (t : float) :
  7200000000 < d -> PyFloat.int_truediv d 1000000 = Ok t -> (7200 <? t)%float = true.
Proof.
  intros Hd H. destruct d as [|p|p]; try lia.
  unfold PyFloat.int_truediv in H.
  set (sf := SFdiv prec emax (S754_finite false p 0) (S754_finite false 1000000 0)) in H.
  assert (Hsf : sf = S754_infinity false \/
                exists m e, sf = S754_finite false m e /\ bounded prec emax m e = true /\
                            7200 * 2 ^ 1074 < Z.pos m * 2 ^ (e + 1074)).
  { subst sf. unfold SFdiv.
    destruct (div_core_microseconds p) as [l El]. cbn zeta in El. rewrite El. cbn [xorb].
    pose proof (digits2_pos_bounds p) as [Lp Up].
    set (d1 := Z.pos (digits2_pos p)) in *.
    assert (Hd1 : 0 < d1) by (subst d1; lia).
    set (s := Z.max 0 (73 - d1)) in *.
    assert (Hs : 0 <= s <= 73) by (subst s; lia).
    set (S := 2 ^ s). assert (HS : 0 < S) by (subst S; apply Z.pow_pos_nonneg; lia).
    assert (FA : 2 ^ 72 <= Z.pos p * S).
    { destruct (Z_le_gt_dec d1 73) as [Hle | Hgt].
      - replace 72 with (d1 - 1 + s) by (subst s; lia).
        rewrite Z.pow_add_r by lia. fold S. apply Z.mul_le_mono_nonneg_r; lia.
      - assert (2 ^ 72 <= 2 ^ (d1 - 1)) by (apply Z.pow_le_mono_r; lia).
        assert (1 <= S) by lia. nia. }
    assert (FB : Z.pos p < 2 ^ 51 -> 2 ^ 22 <= S /\ Z.pos p * S < 2 ^ 73).
    { intros Hlt.
      assert (Hd51 : d1 <= 51).
      { destruct (Z_le_gt_dec d1 51) as [|Hgt]; [assumption | exfalso].
        assert (2 ^ 51 <= 2 ^ (d1 - 1)) by (apply Z.pow_le_mono_r; lia). lia. }
      split.
      - subst S. apply Z.pow_le_mono_r; subst s; lia.
      - replace 73 with (d1 + s) by (subst s; lia).
        rewrite Z.pow_add_r by lia. fold S. apply Z.mul_lt_mono_pos_r; lia. }
    set (Q := Z.pos p * S / 1000000) in *.
    assert (HQ : 2 ^ 52 <= Q).
    { subst Q. etransitivity; [|apply Z.div_le_mono; [lia | exact FA]].
      vm_compute. discriminate. }
    destruct Q as [|q|q] eqn:EQ; try (change (2 ^ 52) with 4503599627370496 in HQ; lia).
    pose proof (digits2_pos_bounds q) as [Lq Uq].
    assert (HD : 53 <= Z.pos (digits2_pos q)) by (apply (digits2_pos_ge q 52); exact HQ).
    set (D := Z.pos (digits2_pos q)) in *.
    destruct (binary_round_aux_between false q (- s) l)
      as [(m' & e' & R & He' & Hm' & B) | [R _]]; fold D; try lia.
    2: { left. exact R. }
    fold D in He', B. right. exists m', e'. split; [exact R|]. split.
    { apply bounded_normal; [exact Hm' | lia]. }
    replace (D + - s - 53 - - s) with (D - 53) in B by lia.
    replace (e' - - s) with (e' + s) in B by lia.
    assert (T : 7200 * S < Z.pos m' * 2 ^ (e' + s)).
    { assert (HN : 0 < 2 ^ (D - 53)) by (apply Z.pow_pos_nonneg; lia).
      assert (HNQ : 2 ^ (D - 53) * 2 ^ 52 <= Z.pos q).
      { rewrite <- Z.pow_add_r by lia. replace (D - 53 + 52) with (D - 1) by lia. exact Lq. }
      exact (seconds_threshold (Z.pos p) S (Z.pos q) (2 ^ (D - 53)) _
               Hd HS HN FB (fun _ => FA) (eq_sym EQ) HNQ (proj1 B)). }
    assert (HR : 0 < 2 ^ (1074 - s)) by (apply Z.pow_pos_nonneg; lia).
    replace (2 ^ 1074) with (S * 2 ^ (1074 - s))
      by (subst S; rewrite <- Z.pow_add_r by lia; f_equal; lia).
    replace (2 ^ (e' + 1074)) with (2 ^ (e' + s) * 2 ^ (1074 - s))
      by (rewrite <- Z.pow_add_r by lia; f_equal; lia).
    rewrite !Z.mul_assoc. apply Z.mul_lt_mono_pos_r; [exact HR | exact T]. }
  destruct Hsf as [Hinf | (m & e & Hfin & Hb & Hgt)].
  - rewrite Hinf in H. discriminate.
  - rewrite Hfin in H.
    assert (Et : t = SF2Prim (S754_finite false m e)) by congruence.
    rewrite Et, ltb_spec.
    rewrite (Prim2SF_SF2Prim (S754_finite false m e) Hb).
    change (Prim2SF 7200) with (S754_finite false 7916483719987200 (-40)).
    unfold SFltb. rewrite SFcompare_finite by (auto; vm_compute; reflexivity).
    cbn [SFint].
    change (Z.pos 7916483719987200 * 2 ^ (-40 + 1074)) with (7200 * 2 ^ 1074).
    apply Z.compare_lt_iff in Hgt. rewrite Hgt. reflexivity.
Qed.

(** ** The scheduler *)

Lemma validate_quality_id (q : Z) : 0 <= q <= 4 -> SM2.validate_quality q = q.
Proof.
  intros H. unfold SM2.validate_quality.
  destruct (Z.ltb_spec q 0), (Z.ltb_spec 4 q); cbn; lia.
Qed.

Lemma validate_quality_range (q : Z) : 0 <= SM2.validate_quality q <= 4.
Proof.
  unfold SM2.validate_quality.
  destruct (Z.ltb_spec q 0), (Z.ltb_spec 4 q); cbn; lia.
Qed.

(** What a successful [calculate_next_review] has computed. *)
Lemma calculate_next_review_inv (now : Z) (card : SM2.CardData) (quality : Z)
    (r : SM2.ReviewResult) :
  SM2.calculate_next_review now card quality = Ok r ->
  let q := SM2.validate_quality quality in
  SM2._update_ease_factor (SM2.ease_factor card) q = Ok (SM2.new_ease_factor r) /\
  DateTime.add_days now (SM2.new_interval r) = Ok (SM2.next_review r) /\
  SM2.quality r = q /\
  SM2.card_id r = SM2.id card /\
  SM2.previous_interval r = SM2.interval card /\
  SM2.previous_ease_factor r = SM2.ease_factor card /\
  SM2.rr_review_count r = SM2.review_count card + 1 /\
  (q < 3 -> SM2.repetitions r = 0 /\ SM2.new_interval r = 1) /\
  (3 <= q ->
     SM2.repetitions r = SM2.repetition_count card + 1 /\
     (SM2.repetitions r = 1 -> SM2.new_interval r = 1) /\
     (SM2.repetitions r = 2 -> SM2.new_interval r = 6) /\
     (SM2.repetitions r <> 1 -> SM2.repetitions r <> 2 ->
        exists i, PyFloat.of_int (SM2.interval card) = Ok i /\
                  PyFloat.to_int (i * SM2.ease_factor card)%float = Ok (SM2.new_interval r))).
Proof.
  intros H q. unfold SM2.calculate_next_review in H. fold q in H.
  destruct (Z.ltb_spec q 3) as [Hq | Hq]; cbn [res_bind] in H.
  - destruct (SM2._update_ease_factor _ q) as [e'|] eqn:Ee; [|discriminate].
    cbn [res_bind] in H.
    destruct (DateTime.add_days now 1) as [t|] eqn:Et; [|discriminate].
    injection H as <-. cbn. repeat split; auto; lia.
  - destruct (Z.eqb_spec (SM2.repetition_count card + 1) 1) as [R1 | R1];
      [|destruct (Z.eqb_spec (SM2.repetition_count card + 1) 2) as [R2 | R2]];
      cbn [res_bind] in H.
    + destruct (SM2._update_ease_factor _ q) as [e'|] eqn:Ee; [|discriminate].
      cbn [res_bind] in H.
      destruct (DateTime.add_days now 1) as [t|] eqn:Et; [|discriminate].
      injection H as <-. cbn. repeat split; auto; lia.
    + destruct (SM2._update_ease_factor _ q) as [e'|] eqn:Ee; [|discriminate].
      cbn [res_bind] in H.
      destruct (DateTime.add_days now 6) as [t|] eqn:Et; [|discriminate].
      injection H as <-. cbn. repeat split; auto; lia.
    + destruct (PyFloat.of_int (SM2.interval card)) as [i|] eqn:Ei; [|discriminate].
      cbn [res_bind] in H.
      destruct (PyFloat.to_int _) as [n|] eqn:En; [|discriminate].
      cbn [res_bind] in H.
      destruct (SM2._update_ease_factor _ q) as [e'|] eqn:Ee; [|discriminate].
      cbn [res_bind] in H.
      destruct (DateTime.add_days now n) as [t|] eqn:Et; [|discriminate].
      injection H as <-. cbn. repeat split; auto; try lia.
      intros _ _. exists i. auto.
Qed.

(** C1.  For every scheduling state whose ease factor lies in [1.3, 4.0] and
    every integer quality in [0, 4], the ease-factor update returns, its
    value lies in [1.3, 4.0], and it is the ease factor of every output of
    [calculate_next_review]. *)
Theorem ease_factor_bounds (now : Z) (card : SM2.CardData) (quality : Z) :
  in_ease_range (SM2.ease_factor card) -> 0 <= quality <= 4 ->
  exists e',
    SM2._update_ease_factor (SM2.ease_factor card) quality = Ok e' /\
    (SM2.min_ease_factor <=? e')%float = true /\
    (e' <=? SM2.max_ease_factor)%float = true /\
    forall r, SM2.calculate_next_review now card quality = Ok r ->
              SM2.new_ease_factor r = e'.
Proof.
  intros Hr Hq.
  rewrite update_ease_factor_eq by exact Hq.
  eexists. split; [reflexivity|].
  assert (R : in_ease_range (PyFloat.round_to 2
                (clamp (SM2.ease_factor card + delta quality)%float))).
  { apply (update_ease_factor_range (SM2.ease_factor card) quality).
    apply update_ease_factor_eq, Hq. }
  destruct R as [L U]. split; [exact L|]. split; [exact U|].
  intros r Hcalc. apply calculate_next_review_inv in Hcalc as (E & _).
  rewrite validate_quality_id in E by exact Hq.
  rewrite update_ease_factor_eq in E by exact Hq. congruence.
Qed.

Lemma ease_factor_bounds_witness :
  exists e',
    SM2._update_ease_factor (SM2.ease_factor sample_card) 4 = Ok e' /\
    (SM2.min_ease_factor <=? e')%float = true /\
    (e' <=? SM2.max_ease_factor)%float = true /\
    forall r, SM2.calculate_next_review sample_now sample_card 4 = Ok r ->
              SM2.new_ease_factor r = e'.
Proof.
  apply (ease_factor_bounds sample_now sample_card 4).
  - split; vm_compute; reflexivity.
  - lia.
Defined.

(** C6.  For a fixed prior ease factor in [1.3, 4.0] and qualities
    [q1 <= q2] in [0, 4], the new ease factor for [q1] is at most the new
    ease factor for [q2], and both stay within [1.3, 4.0]. *)
Theorem ease_factor_monotone_in_quality (ease : float) (q1 q2 : Z) :
  in_ease_range ease -> 0 <= q1 -> q1 <= q2 -> q2 <= 4 ->
  exists r1 r2,
    SM2._update_ease_factor ease q1 = Ok r1 /\
    SM2._update_ease_factor ease q2 = Ok r2 /\
    (r1 <=? r2)%float = true /\
    in_ease_range r1 /\ in_ease_range r2.
Proof.
  intros Hr H1 H12 H2.
  destruct (update_ease_factor_mono ease q1 q2 Hr H1 H12 H2) as (r1 & r2 & E1 & E2 & Hle).
  exists r1, r2. repeat split; auto;
    first [apply (update_ease_factor_range _ _ _ E1) | apply (update_ease_factor_range _ _ _ E2)].
Qed.

Lemma ease_factor_monotone_in_quality_witness :
  exists r1 r2,
    SM2._update_ease_factor 2.5%float 1 = Ok r1 /\
    SM2._update_ease_factor 2.5%float 3 = Ok r2 /\
    (r1 <=? r2)%float = true /\
    in_ease_range r1 /\ in_ease_range r2.
Proof.
  apply (ease_factor_monotone_in_quality 2.5%float 1 3).
  - split; vm_compute; reflexivity.
  - lia.
  - lia.
  - lia.
Defined.

(** C2 (as the code computes).  The SM-2 transition of
    [calculate_next_review] on a scheduling state (ease factor in
    [1.3, 4.0], interval of at least one day) and a quality in [0, 4]: a
    quality below 3 resets the repetition count to 0 and the interval to 1;
    otherwise the count grows by one and the interval is 1 at count 1, 6 at
    count 2 and, from count 3 on, the integer part of the binary64 product
    [float(interval) * ease_factor].  For an interval below [2^50] that
    integer is the floor of the exact product of the interval and the stored
    ease factor, or one more; the review count always grows by one. *)
Theorem sm2_transition (now : Z) (card : SM2.CardData) (quality : Z) (r : SM2.ReviewResult) :
  in_ease_range (SM2.ease_factor card) -> 1 <= SM2.interval card -> 0 <= quality <= 4 ->
  SM2.calculate_next_review now card quality = Ok r ->
  SM2.rr_review_count r = SM2.review_count card + 1 /\
  (quality < 3 -> SM2.repetitions r = 0 /\ SM2.new_interval r = 1) /\
  (3 <= quality ->
     SM2.repetitions r = SM2.repetition_count card + 1 /\
     (SM2.repetitions r = 1 -> SM2.new_interval r = 1) /\
     (SM2.repetitions r = 2 -> SM2.new_interval r = 6) /\
     (3 <= SM2.repetitions r ->
        (exists i, PyFloat.of_int (SM2.interval card) = Ok i /\
                   PyFloat.floor (i * SM2.ease_factor card)%float
                     = Ok (SM2.new_interval r)) /\
        (SM2.interval card < 2 ^ 50 ->
         exists p, spec_floor_product (SM2.interval card) (SM2.ease_factor card) = Some p /\
                   p <= SM2.new_interval r <= p + 1))).
Proof.
  intros [Lo Hi] Hint Hq Hcalc.
  apply calculate_next_review_inv in Hcalc.
  rewrite validate_quality_id in Hcalc by exact Hq.
  destruct Hcalc as (_ & _ & _ & _ & _ & _ & Hrc & Hlow & Hhigh).
  split; [exact Hrc|]. split; [exact Hlow|].
  intros H3. destruct (Hhigh H3) as (Hrep & I1 & I2 & I3).
  split; [exact Hrep|]. split; [exact I1|]. split; [exact I2|].
  intros Hge. destruct (I3 ltac:(lia) ltac:(lia)) as (i & Ei & En).
  split.
  - exists i. split; [exact Ei|].
    destruct (of_int_pos _ _ Hint Ei) as (mi & ei & Si).
    destruct (in_range_shape _ Lo Hi) as (me & ee & Se & _).
    apply to_int_floor_nonneg; [|exact En].
    exact (mul_pos_sign _ _ _ _ _ _ Si Se).
  - intros Hsmall.
    destruct (float_product_floor _ i _ (conj Hint Hsmall) Ei (conj Lo Hi))
      as (n & p & En' & Ep & Hnp).
    rewrite En in En'. injection En' as <-.
    exists p. split; [exact Ep | exact Hnp].
Qed.

Lemma sm2_transition_witness :
  SM2.rr_review_count
    {| SM2.card_id := 1; SM2.quality := 4; SM2.previous_interval := 6; SM2.new_interval := 15;
       SM2.previous_ease_factor := 2.5%float; SM2.new_ease_factor := 2.5%float;
       SM2.repetitions := 3; SM2.next_review := sample_now + 15 * DateTime.us_per_day;
       SM2.rr_review_count := 3 |} = SM2.review_count sample_card + 1 /\
  (4 < 3 -> 3 = 0 /\ 15 = 1) /\
  (3 <= 4 ->
     3 = SM2.repetition_count sample_card + 1 /\
     (3 = 1 -> 15 = 1) /\
     (3 = 2 -> 15 = 6) /\
     (3 <= 3 ->
        (exists i, PyFloat.of_int (SM2.interval sample_card) = Ok i /\
                   PyFloat.floor (i * SM2.ease_factor sample_card)%float = Ok 15) /\
        (SM2.interval sample_card < 2 ^ 50 ->
         exists p, spec_floor_product (SM2.interval sample_card)
                     (SM2.ease_factor sample_card) = Some p /\
                   p <= 15 <= p + 1))).
Proof.
  apply (sm2_transition sample_now sample_card 4).
  - split; vm_compute; reflexivity.
  - vm_compute. discriminate.
  - lia.
  - vm_compute. reflexivity.
Defined.

(** C2, counterexample: the interval is not the floor of the exact product.
    Both cards are reached from a fresh card by the listed reviews.  With
    interval 85 and ease factor 1.40 the code schedules 118 days, while
    [floor(85 x 1.40)] is 119; with interval 10 and ease factor 1.70 the
    code schedules 17 days, while the floor of the exact product of 10 and
    the stored ease factor is 16. *)
Lemma exact_product_counterexample :
  (exists card r,
     review_chain sample_now fresh_card [1; 3; 3; 4; 4; 3; 4; 3; 4] = Ok card /\
     SM2.interval card = 85 /\ SM2.ease_factor card = hundredths 140 /\
     SM2.repetition_count card = 8 /\
     SM2.calculate_next_review sample_now card 4 = Ok r /\
     SM2.new_interval r = 118 /\
     spec_floor_product_decimal 85 140 = 119) /\
  (exists card r,
     review_chain sample_now fresh_card [0; 4; 4; 4] = Ok card /\
     SM2.interval card = 10 /\ SM2.ease_factor card = hundredths 170 /\
     SM2.repetition_count card = 3 /\
     SM2.calculate_next_review sample_now card 4 = Ok r /\
     SM2.new_interval r = 17 /\
     spec_floor_product 10 (SM2.ease_factor card) = Some 16).
Proof.
  split.
  - eexists _, _. split; [vm_compute; reflexivity|].
    repeat split; vm_compute; reflexivity.
  - eexists _, _. split; [vm_compute; reflexivity|].
    repeat split; vm_compute; reflexivity.
Qed.

(** ** The matcher *)

(** C5.  The exact-match scenario: an intermediate user interested in
    "algorithms" with 10 coding hours and a flexible schedule, against an
    intermediate "algorithms" group of 4 out of 10 members averaging 10
    hours with a flexible schedule, scores 0.97, whatever the remaining
    profile fields are and under either summation of the interpreter. *)
Theorem exact_match_score (uid : Z) (tz : string) (goals : list string) (joined : Z)
    (gid : Z) (gname : string) (activity : float) (dist : list (string * Z)) (created : Z) :
  let user :=
    {| Matcher.user_id := uid; Matcher.skill_level := "intermediate";
       Matcher.interests := ["algorithms"]; Matcher.coding_hours_per_week := 10%float;
       Matcher.preferred_schedule := "flexible"; Matcher.timezone := tz;
       Matcher.learning_goals := goals; Matcher.join_date := joined |} in
  let group :=
    {| Matcher.group_id := gid; Matcher.name := gname; Matcher.topic := "algorithms";
       Matcher.group_skill_level := "intermediate"; Matcher.current_size := 4;
       Matcher.max_size := 10; Matcher.activity_level := activity;
       Matcher.member_skill_distribution := dist; Matcher.average_coding_hours := 10%float;
       Matcher.group_preferred_schedule := "flexible"; Matcher.created_date := created |} in
  Matcher._calculate_compatibility PyFloat.sum user group = 0.97%float /\
  Matcher._calculate_compatibility PyFloat.sum_compensated user group = 0.97%float.
Proof.
  cbv zeta. split; vm_compute; reflexivity.
Qed.

(** ** The session manager *)

Lemma review_card_unknown (now : Z) (commit_ok : bool) (sid : string) (quality : Z)
    (st : Manager.State) :
  Manager.review_sessions st !! sid = None ->
  Manager.review_card now commit_ok sid quality st
    = (st, Manager.ReviewError Manager.SessionNotFound).
Proof. intros H. unfold Manager.review_card. now rewrite H. Qed.

Lemma get_session_progress_unknown (now : Z) (sid : string) (st : Manager.State) :
  Manager.review_sessions st !! sid = None ->
  Manager.get_session_progress now sid st = Ok (Manager.ProgressError Manager.SessionNotFound).
Proof. intros H. unfold Manager.get_session_progress. now rewrite H. Qed.

(** One accepted [review_card] step: either the session moves on to the
    next card, or it was the last card and the session is removed. *)
Lemma review_card_accepted (now : Z) (commit_ok : bool) (sid : string) (quality : Z)
    (st st' : Manager.State) (s : Manager.ReviewSession) (r : Manager.ReviewResponse) :
  Manager.review_sessions st !! sid = Some s ->
  Manager.review_card now commit_ok sid quality st = (st', r) ->
  is_error r = false ->
  let n := Z.of_nat (length (Manager.cards s)) in
  Manager.current_card_index s < n /\
  exists card rr,
    PyList.getitem (Manager.cards s) (Manager.current_card_index s) = Ok card /\
    SM2.calculate_next_review now card quality = Ok rr /\
    Manager.flashcards st'
      = Manager._update_card_in_database now commit_ok rr (Manager.flashcards st) /\
    let s' := advance now quality card rr s in
    ((Manager.current_card_index s + 1 < n /\
      Manager.review_sessions st' = <[sid := s']> (Manager.review_sessions st) /\
      exists next,
        PyList.getitem (Manager.cards s) (Manager.current_card_index s + 1) = Ok next /\
        r = Manager.ReviewContinue next (Manager.progress_of s') quality
              (SM2.new_interval rr) (SM2.new_ease_factor rr) (SM2.next_review rr)) \/
     (n <= Manager.current_card_index s + 1 /\
      Manager.review_sessions st' = delete sid (<[sid := s']> (Manager.review_sessions st)) /\
      exists summary breakdown,
        Manager.session_summary now s' = Ok (summary, breakdown) /\
        r = Manager.ReviewCompleted sid summary breakdown)).
Proof.
  intros Hs Hrun Hok n. unfold Manager.review_card in Hrun. rewrite Hs in Hrun.
  fold n in Hrun.
  destruct (Z.leb_spec n (Manager.current_card_index s)) as [Hge | Hlt].
  { injection Hrun as <- <-. discriminate. }
  split; [exact Hlt|].
  destruct (PyList.getitem _ _) as [card|e] eqn:Ecard.
  2: { injection Hrun as <- <-. discriminate. }
  destruct (SM2.calculate_next_review now card quality) as [rr|e] eqn:Err.
  2: { injection Hrun as <- <-. discriminate. }
  exists card, rr. split; [reflexivity|]. split; [exact Err|].
  fold (advance now quality card rr s) in Hrun.
  set (s' := advance now quality card rr s) in *.
  cbn [Manager.current_card_index Manager.cards] in Hrun.
  change (Manager.current_card_index s') with (Manager.current_card_index s + 1) in Hrun.
  change (Manager.cards s') with (Manager.cards s) in Hrun.
  destruct (Z.leb_spec n (Manager.current_card_index s + 1)) as [Hlast | Hmore].
  - unfold Manager._complete_session in Hrun.
    destruct (Manager.session_summary now s') as [[summary breakdown]|e] eqn:Esum.
    + injection Hrun as <- <-. split; [reflexivity|]. right.
      split; [exact Hlast|]. split; [reflexivity|]. eauto.
    + injection Hrun as <- <-. discriminate.
  - destruct (PyList.getitem (Manager.cards s) (Manager.current_card_index s + 1))
      as [next|e] eqn:Enext.
    + injection Hrun as <- <-. split; [reflexivity|]. left.
      split; [exact Hmore|]. split; [reflexivity|]. eauto.
    + injection Hrun as <- <-. discriminate.
Qed.

(** The commit outcome reaches neither the session table nor the response. *)
Lemma review_card_commit_irrelevant (now : Z) (sid : string) (quality : Z) (st : Manager.State) :
  snd (Manager.review_card now false sid quality st)
    = snd (Manager.review_card now true sid quality st) /\
  Manager.review_sessions (fst (Manager.review_card now false sid quality st))
    = Manager.review_sessions (fst (Manager.review_card now true sid quality st)).
Proof.
  unfold Manager.review_card.
  destruct (Manager.review_sessions st !! sid) as [s|]; [|auto].
  destruct (_ <=? Manager.current_card_index s); [auto|].
  destruct (PyList.getitem _ _) as [card|]; [|auto].
  destruct (SM2.calculate_next_review _ _ _) as [rr|]; [|auto].
  cbn [Manager.current_card_index Manager.cards].
  destruct (_ <=? _).
  - unfold Manager._complete_session.
    destruct (Manager.session_summary _ _) as [[summary breakdown]|]; auto.
  - destruct (PyList.getitem _ _); auto.
Qed.

Lemma review_card_commit_failure_table (now : Z) (sid : string) (quality : Z)
    (st : Manager.State) :
  Manager.flashcards (fst (Manager.review_card now false sid quality st))
    = Manager.flashcards st.
Proof.
  unfold Manager.review_card.
  destruct (Manager.review_sessions st !! sid) as [s|]; [|auto].
  destruct (_ <=? Manager.current_card_index s); [auto|].
  destruct (PyList.getitem _ _) as [card|]; [|auto].
  destruct (SM2.calculate_next_review _ _ _) as [rr|]; [|auto].
  assert (T : Manager._update_card_in_database now false rr (Manager.flashcards st)
              = Manager.flashcards st).
  { unfold Manager._update_card_in_database. now destruct (Flashcard.get _ _). }
  rewrite T.
  cbn [Manager.current_card_index Manager.cards].
  destruct (_ <=? _).
  - unfold Manager._complete_session.
    destruct (Manager.session_summary _ _) as [[summary breakdown]|]; auto.
  - destruct (PyList.getitem _ _); auto.
Qed.

(** C3 (as the code behaves).  When the commit fails, [review_card] gives
    the same response and the same session table as when it succeeds: the
    failure is logged inside [_update_card_in_database] and never reaches the
    caller; the flashcard table alone is left as it was.  In particular a
    step that is answered with the next card has advanced the cursor and
    logged the review. *)
Theorem commit_failure_is_swallowed (now : Z) (sid : string) (quality : Z) (st : Manager.State) :
  snd (Manager.review_card now false sid quality st)
    = snd (Manager.review_card now true sid quality st) /\
  Manager.review_sessions (fst (Manager.review_card now false sid quality st))
    = Manager.review_sessions (fst (Manager.review_card now true sid quality st)) /\
  Manager.flashcards (fst (Manager.review_card now false sid quality st))
    = Manager.flashcards st /\
  forall s next p q i e t,
    Manager.review_sessions st !! sid = Some s ->
    snd (Manager.review_card now false sid quality st) = Manager.ReviewContinue next p q i e t ->
    exists s',
      Manager.review_sessions (fst (Manager.review_card now false sid quality st)) !! sid
        = Some s' /\
      Manager.current_card_index s' = Manager.current_card_index s + 1 /\
      length (Manager.reviewed_cards s') = S (length (Manager.reviewed_cards s)).
Proof.
  split; [apply review_card_commit_irrelevant|].
  split; [apply review_card_commit_irrelevant|].
  split; [apply review_card_commit_failure_table|].
  intros s next p q i e t Hs Hr.
  destruct (Manager.review_card now false sid quality st) as [st' r] eqn:Erun.
  cbn [fst snd] in *. subst r.
  destruct (review_card_accepted _ _ _ _ _ _ _ _ Hs Erun eq_refl)
    as (_ & card & rr & _ & _ & _ & [(_ & Hst & _) | (_ & _ & sm & bd & _ & Hc)]);
    [|discriminate].
  exists (advance now quality card rr s). rewrite Hst, lookup_insert_eq.
  split; [reflexivity|]. split; [reflexivity|].
  cbn. rewrite length_app. cbn. lia.
Qed.

(** C3, counterexample: with two cards due and a failing commit, the first
    review is answered with the next card, the cursor has moved from 0 to 1
    and the log has one entry. *)
Lemma commit_failure_counterexample :
  is_error (snd (Manager.review_card sample_now false sample_sid 4 started_state)) = false /\
  (Manager.current_card_index <$> Manager.review_sessions started_state !! sample_sid)
    = Some 0 /\
  (Manager.current_card_index <$>
     Manager.review_sessions
       (fst (Manager.review_card sample_now false sample_sid 4 started_state)) !! sample_sid)
    = Some 1 /\
  (length <$> (Manager.reviewed_cards <$>
     Manager.review_sessions
       (fst (Manager.review_card sample_now false sample_sid 4 started_state)) !! sample_sid))
    = Some 1%nat.
Proof. vm_compute. repeat split; reflexivity. Qed.






(** C7, the failing input.  Card 1 is overdue by a day (ease 2.5) and card 2
    falls due at the very instant of the call (ease 1.3): both are selected,
    and the card that is not overdue comes first, because the sort key never
    sees [next_review]. *)
Lemma due_now_before_overdue :
  map SM2.id (Manager._get_due_cards sample_now sample_table 7 None 20) = [2; 1] /\
  map Flashcard.next_review sample_table
    = [Some (sample_now - DateTime.us_per_day); Some sample_now] /\
  map (Manager.sort_key sample_now)
      (Manager._get_due_cards sample_now sample_table 7 None 20)
    = [(true, 1.3%float); (true, 2.5%float)].
Proof. vm_compute. repeat split; reflexivity. Qed.

(** *** Expiry *)

Lemma expired_sessions_complete (now : Z) (items : list (string * Manager.ReviewSession)) :
  forall (expired : list string) (sid : string) (s : Manager.ReviewSession) (t : float),
    Manager.expired_sessions now items = Ok expired ->
    (sid, s) ∈ items ->
    DateTime.total_seconds now (Manager.start_time s) = Ok t ->
    (7200 <? t)%float = true ->
    sid ∈ expired.
Proof.
  induction items as [|[k v] rest IH]; intros expired sid s t Hrun Hin Ht Hexp.
  { inversion Hin. }
  cbn [Manager.expired_sessions] in Hrun.
  destruct (DateTime.total_seconds now (Manager.start_time v)) as [tv|] eqn:Etv;
    [|discriminate].
  cbn [res_bind] in Hrun.
  destruct (Manager.expired_sessions now rest) as [more|] eqn:Emore; [|discriminate].
  cbn [res_bind] in Hrun. injection Hrun as <-.
  apply elem_of_cons in Hin as [Heq | Hin].
  - injection Heq as <- <-. rewrite Ht in Etv. injection Etv as <-.
    rewrite Hexp. apply list_elem_of_here.
  - specialize (IH more sid s t eq_refl Hin Ht Hexp).
    destruct (7200 <? tv)%float; [apply list_elem_of_further|]; exact IH.
Qed.

Lemma lookup_foldr_delete_elem (m : gmap string Manager.ReviewSession) (l : list string)
    (sid : string) :
  sid ∈ l -> foldr delete m l !! sid = None.
Proof.
  induction l as [|x l IH]; intros Hin; [inversion Hin|].
  cbn [foldr]. destruct (decide (x = sid)) as [-> | Hne].
  - apply lookup_delete_eq.
  - rewrite lookup_delete_ne by exact Hne. apply IH.
    apply elem_of_cons in Hin as [-> | Hin]; [congruence | exact Hin].
Qed.

Lemma expired_sessions_defined (now : Z) (items : list (string * Manager.ReviewSession)) :
  forall (expired : list string) (sid : string) (s : Manager.ReviewSession),
    Manager.expired_sessions now items = Ok expired ->
    (sid, s) ∈ items ->
    exists t, DateTime.total_seconds now (Manager.start_time s) = Ok t.
Proof.
  induction items as [|[k v] rest IH]; intros expired sid s Hrun Hin.
  { inversion Hin. }
  cbn [Manager.expired_sessions] in Hrun.
  destruct (DateTime.total_seconds now (Manager.start_time v)) as [tv|] eqn:Etv;
    [|discriminate].
  cbn [res_bind] in Hrun.
  destruct (Manager.expired_sessions now rest) as [more|] eqn:Emore; [|discriminate].
  apply elem_of_cons in Hin as [Heq | Hin].
  - injection Heq as <- <-. exists tv. exact Etv.
  - exact (IH more sid s eq_refl Hin).
Qed.

Lemma start_time_le_last_activity (s : Manager.ReviewSession) :
  Manager.start_time s <= last_activity s.
Proof.
  unfold last_activity.
  induction (map Manager.review_time (Manager.reviewed_cards s)) as [|x l IH];
    cbn [foldr]; lia.
Qed.

(** C8 (as the code behaves).  A session with no activity for more than
    two hours is invalid once the sweep has run: when
    [cleanup_expired_sessions] runs more than 7200 seconds after the
    session's last recorded activity (its start or its last accepted
    review; a progress read leaves no trace, and one made later only
    lengthens the recorded idle time), the session is gone and
    [review_card] and [get_session_progress] answer "Session not found". *)
Theorem swept_session_not_found (now : Z) (st st' : Manager.State) (count : Z)
    (sid : string) (s : Manager.ReviewSession) :
  Manager.cleanup_expired_sessions now st = Ok (st', count) ->
  Manager.review_sessions st !! sid = Some s ->
  7200 * DateTime.us_per_second < now - last_activity s ->
  Manager.review_sessions st' !! sid = None /\
  (forall now' commit_ok quality,
     Manager.review_card now' commit_ok sid quality st'
       = (st', Manager.ReviewError Manager.SessionNotFound)) /\
  (forall now',
     Manager.get_session_progress now' sid st'
       = Ok (Manager.ProgressError Manager.SessionNotFound)).
Proof.
  intros Hrun Hs Hidle. unfold Manager.cleanup_expired_sessions in Hrun.
  destruct (Manager.expired_sessions now _) as [expired|] eqn:Eexp; [|discriminate].
  cbn [res_bind] in Hrun. injection Hrun as <- <-.
  assert (Hin : (sid, s) ∈ map_to_list (Manager.review_sessions st))
    by now apply elem_of_map_to_list.
  destruct (expired_sessions_defined now _ expired sid s Eexp Hin) as [t Ht].
  assert (Hexp : (7200 <? t)%float = true).
  { apply (truediv_seconds_gt (now - Manager.start_time s)); [|exact Ht].
    pose proof (start_time_le_last_activity s).
    change DateTime.us_per_second with 1000000 in Hidle. lia. }
  assert (Hnone : foldr delete (Manager.review_sessions st) expired !! sid = None).
  { apply lookup_foldr_delete_elem.
    exact (expired_sessions_complete now _ expired sid s t Eexp Hin Ht Hexp). }
  split; [exact Hnone|]. split.
  - intros now' ok q. now apply review_card_unknown.
  - intros now'. now apply get_session_progress_unknown.
Qed.

Lemma swept_session_not_found_witness :
  Manager.review_sessions swept_state !! sample_sid = None /\
  (forall now' commit_ok quality,
     Manager.review_card now' commit_ok sample_sid quality swept_state
       = (swept_state, Manager.ReviewError Manager.SessionNotFound)) /\
  (forall now',
     Manager.get_session_progress now' sample_sid swept_state
       = Ok (Manager.ProgressError Manager.SessionNotFound)).
Proof.
  refine (swept_session_not_found (sample_now + one_hour + three_hours)
            reviewed_state swept_state 1 sample_sid _ _ _ _).
  - vm_compute. reflexivity.
  - vm_compute. reflexivity.
  - vm_compute. reflexivity.
Defined.

(** C8, counterexample: three hours after its start, with no sweep in
    between, the session still accepts a review and still reports progress. *)
Lemma stale_session_counterexample :
  (exists t, DateTime.total_seconds (sample_now + three_hours) sample_now = Ok t /\
             (7200 <? t)%float = true) /\
  is_error (snd (Manager.review_card (sample_now + three_hours) true sample_sid 4
                   started_state)) = false /\
  (exists p d, Manager.get_session_progress (sample_now + three_hours) sample_sid started_state
     = Ok (Manager.ProgressInfo sample_sid p sample_now d None)).
Proof.
  split; [|split].
  - eexists. split; vm_compute; reflexivity.
  - vm_compute. reflexivity.
  - eexists _, _. vm_compute. reflexivity.
Qed.

(** *** Progress *)

(** C9 (as the code behaves).  Two [get_session_progress] calls on the same
    session state agree on the session id, the progress counters, the start
    time and the category; the elapsed minutes are recomputed from the clock,
    so the whole results agree when the clock reads the same. *)
Theorem progress_snapshot (now1 now2 : Z) (sid : string) (st : Manager.State)
    (r1 r2 : Manager.ProgressResponse) :
  Manager.get_session_progress now1 sid st = Ok r1 ->
  Manager.get_session_progress now2 sid st = Ok r2 ->
  progress_fields r1 = progress_fields r2 /\ (now1 = now2 -> r1 = r2).
Proof.
  unfold Manager.get_session_progress. intros H1 H2.
  destruct (Manager.review_sessions st !! sid) as [s|].
  - destruct (DateTime.total_seconds now1 _) as [t1|] eqn:E1; [|discriminate].
    destruct (DateTime.total_seconds now2 _) as [t2|] eqn:E2; [|discriminate].
    cbn [res_bind] in H1, H2. injection H1 as <-. injection H2 as <-.
    split; [reflexivity|]. intros <-. congruence.
  - injection H1 as <-. injection H2 as <-. auto.
Qed.

Lemma progress_snapshot_witness :
  progress_fields
    (Manager.ProgressInfo sample_sid
       {| Manager.completed := 0; Manager.total := 2; Manager.remaining := 2 |}
       sample_now 1.5%float None)
  = progress_fields
      (Manager.ProgressInfo sample_sid
         {| Manager.completed := 0; Manager.total := 2; Manager.remaining := 2 |}
         sample_now 180%float None) /\
  (sample_now + 90 * DateTime.us_per_second = sample_now + three_hours ->
   Manager.ProgressInfo sample_sid
     {| Manager.completed := 0; Manager.total := 2; Manager.remaining := 2 |}
     sample_now 1.5%float None
   = Manager.ProgressInfo sample_sid
       {| Manager.completed := 0; Manager.total := 2; Manager.remaining := 2 |}
       sample_now 180%float None).
Proof.
  apply (progress_snapshot (sample_now + 90 * DateTime.us_per_second)
           (sample_now + three_hours) sample_sid started_state).
  - vm_compute. reflexivity.
  - vm_compute. reflexivity.
Defined.

(** C9, counterexample: the same session state queried 90 seconds and three
    hours after the start gives two different results. *)
Lemma progress_counterexample :
  Manager.get_session_progress (sample_now + 90 * DateTime.us_per_second)
      sample_sid started_state
  <> Manager.get_session_progress (sample_now + three_hours) sample_sid started_state.
Proof.
  intros H. apply (f_equal progress_duration) in H. vm_compute in H. discriminate.
Qed.

(** *** Nothing due *)

(** C10 (as the code behaves).  When no card is due, [start_review_session]
    returns the generated session id with an empty card list and leaves the
    session table untouched; the id is therefore unknown to [review_card] and
    [get_session_progress] whenever no session already sits under it. *)
Theorem nothing_due_session_not_stored (now : Z) (user_id : Z) (category : option string)
    (max_cards : Z) (st : Manager.State) :
  Manager._get_due_cards now (Manager.flashcards st) user_id category max_cards = [] ->
  Manager.start_review_session now user_id category max_cards st
    = (st, Manager.StartNothingDue (Manager.make_session_id now user_id) [] 0) /\
  (Manager.review_sessions st !! Manager.make_session_id now user_id = None ->
   (forall now' commit_ok quality,
      Manager.review_card now' commit_ok (Manager.make_session_id now user_id) quality st
        = (st, Manager.ReviewError Manager.SessionNotFound)) /\
   (forall now',
      Manager.get_session_progress now' (Manager.make_session_id now user_id) st
        = Ok (Manager.ProgressError Manager.SessionNotFound))).
Proof.
  intros Hdue. split.
  - unfold Manager.start_review_session. now rewrite Hdue.
  - intros Hfresh. split.
    + intros now' ok q. now apply review_card_unknown.
    + intros now'. now apply get_session_progress_unknown.
Qed.

Lemma nothing_due_session_not_stored_witness :
  Manager.start_review_session sample_now 7 (Some "graphs") 20 sample_state
    = (sample_state, Manager.StartNothingDue (Manager.make_session_id sample_now 7) [] 0) /\
  (Manager.review_sessions sample_state !! Manager.make_session_id sample_now 7 = None ->
   (forall now' commit_ok quality,
      Manager.review_card now' commit_ok (Manager.make_session_id sample_now 7) quality
        sample_state
        = (sample_state, Manager.ReviewError Manager.SessionNotFound)) /\
   (forall now',
      Manager.get_session_progress now' (Manager.make_session_id sample_now 7) sample_state
        = Ok (Manager.ProgressError Manager.SessionNotFound))).
Proof.
  apply (nothing_due_session_not_stored sample_now 7 (Some "graphs") 20 sample_state).
  vm_compute. reflexivity.
Defined.

(** C10, counterexample: user 7 starts a session and, within the same
    second, asks for a category with nothing due.  The second call returns
    the id of the first session with an empty card list, and a review under
    that id is accepted. *)
Lemma nothing_due_counterexample :
  snd (Manager.start_review_session sample_now 7 (Some "graphs") 20 started_state)
    = Manager.StartNothingDue sample_sid [] 0 /\
  fst (Manager.start_review_session sample_now 7 (Some "graphs") 20 started_state)
    = started_state /\
  is_error (snd (Manager.review_card sample_now true sample_sid 4 started_state)) = false /\
  (exists p d, Manager.get_session_progress sample_now sample_sid started_state
     = Ok (Manager.ProgressInfo sample_sid p sample_now d None)).
Proof.
  split; [|split; [|split]].
  - vm_compute. reflexivity.
  - vm_compute. reflexivity.
  - vm_compute. reflexivity.
  - eexists _, _. vm_compute. reflexivity.
Qed.

(** ** Further properties: sorting and slicing *)

Lemma insert_sorted_perm {A : Type} (lt : A -> A -> bool) (x : A) (l : list A) :
  PyList.insert_sorted lt x l ≡ₚ x :: l.
Proof.
  induction l as [|y l IH]; cbn [PyList.insert_sorted]; [reflexivity|].
  destruct (lt y x); [|reflexivity].
  rewrite IH. apply Permutation_swap.
Qed.

Lemma sort_perm {A : Type} (lt : A -> A -> bool) (l : list A) : PyList.sort lt l ≡ₚ l.
Proof.
  unfold PyList.sort. induction l as [|x l IH]; cbn [foldr]; [reflexivity|].
  rewrite insert_sorted_perm. now rewrite IH.
Qed.

Lemma insert_sorted_hd {A : Type} (lt : A -> A -> bool) (R : A -> A -> Prop) (x y : A)
    (l : list A) :
  R y x -> HdRel R y l -> HdRel R y (PyList.insert_sorted lt x l).
Proof.
  intros Hyx Hhd. destruct l as [|z l]; cbn [PyList.insert_sorted]; [now constructor|].
  destruct (lt z x); constructor; [now inversion Hhd | exact Hyx].
Qed.

(** The insertion sort leaves no adjacent pair out of order; this needs no
    more than the asymmetry of [lt]. *)
Lemma sort_sorted {A : Type} (lt : A -> A -> bool) (l : list A) :
  (forall a b, lt a b = true -> lt b a = false) ->
  Sorted (fun a b => lt b a = false) (PyList.sort lt l).
Proof.
  intros Hasym. unfold PyList.sort.
  induction l as [|x l IH]; cbn [foldr]; [constructor|].
  set (s := foldr (PyList.insert_sorted lt) [] l) in *. clearbody s.
  induction s as [|y s IHs]; cbn [PyList.insert_sorted].
  - repeat constructor.
  - destruct (lt y x) eqn:E.
    + inversion IH as [|? ? Hs Hhd]; subst. constructor; [now apply IHs|].
      apply insert_sorted_hd; [now apply Hasym | exact Hhd].
    + constructor; [exact IH|]. now constructor.
Qed.

Lemma Sorted_take {A : Type} (R : A -> A -> Prop) (n : nat) (l : list A) :
  Sorted R l -> Sorted R (take n l).
Proof.
  intros H. revert n. induction H as [|x l Hs IH Hhd]; intros [|n]; cbn; try constructor.
  - apply IH.
  - destruct Hhd; destruct n; cbn; constructor; auto.
Qed.

Lemma slice_to_take {A : Type} (n : Z) (l : list A) :
  exists k, PyList.slice_to n l = take k l /\
            (0 <= n -> k = Z.to_nat n).
Proof.
  unfold PyList.slice_to. destruct (Z.leb_spec 0 n); eexists; split; eauto; lia.
Qed.

Lemma slice_to_length {A : Type} (n : Z) (l : list A) :
  0 <= n -> Z.of_nat (length (PyList.slice_to n l)) = Z.min n (Z.of_nat (length l)).
Proof.
  intros H. unfold PyList.slice_to. destruct (Z.leb_spec 0 n); [|lia].
  rewrite length_take. lia.
Qed.

(** ** Further properties: the order of floats that are not NaN *)

Lemma SFcompare_antisym (x y : spec_float) :
  SFcompare y x = option_map CompOpp (SFcompare x y).
Proof.
  destruct x as [sx | sx | | sx mx ex], y as [sy | sy | | sy my ey]; cbn;
    try reflexivity;
    try (destruct sx; reflexivity); try (destruct sy; reflexivity);
    try (destruct sx, sy; reflexivity).
  destruct sx, sy; cbn; try reflexivity;
    rewrite (Z.compare_antisym ex ey); destruct (ex ?= ey); cbn; try reflexivity;
    rewrite !Pos.compare_cont_spec; cbn [Pos.switch_Eq];
    rewrite (Pos.compare_antisym mx my); destruct (mx ?= my)%positive; reflexivity.
Qed.

Lemma ltb_asym (a b : float) : (a <? b)%float = true -> (b <? a)%float = false.
Proof.
  rewrite !ltb_spec. unfold SFltb. rewrite (SFcompare_antisym (Prim2SF a) (Prim2SF b)).
  destruct (SFcompare (Prim2SF a) (Prim2SF b)) as [[]|]; cbn; congruence.
Qed.

Lemma not_nan_compare (a b : float) :
  not_nan a -> not_nan b -> exists c, SFcompare (Prim2SF a) (Prim2SF b) = Some c.
Proof.
  unfold not_nan. rewrite !FloatAxioms.eqb_spec. unfold SFeqb.
  destruct (Prim2SF a) as [sa | sa | | sa ma ea], (Prim2SF b) as [sb | sb | | sb mb eb];
    cbn; intros Ha Hb; try discriminate; eauto.
Qed.

Lemma ltb_false_leb (a b : float) :
  not_nan a -> not_nan b -> (b <? a)%float = false -> (a <=? b)%float = true.
Proof.
  intros Ha Hb. destruct (not_nan_compare a b Ha Hb) as (c & Hc).
  rewrite ltb_spec, leb_spec. unfold SFltb, SFleb.
  rewrite (SFcompare_antisym (Prim2SF a) (Prim2SF b)), Hc.
  destruct c; cbn; congruence.
Qed.

Lemma Sorted_strengthen {A : Type} (R R' : A -> A -> Prop) (P : A -> Prop) (l : list A) :
  (forall a b, P a -> P b -> R a b -> R' a b) ->
  Forall P l -> Sorted R l -> Sorted R' l.
Proof.
  intros Himp HP Hs. induction Hs as [|x l Hs IH Hhd]; [constructor|].
  apply Forall_cons in HP as [Px Pl]. constructor; [now apply IH|].
  destruct Hhd as [|y l' Hxy]; constructor.
  apply Forall_cons in Pl as [Py _]. now apply Himp.
Qed.

(** ** Further properties: the cards selected for a session *)

Lemma get_due_cards_eq (now : Z) (table : list Flashcard.t) (user_id : Z)
    (category : option string) (max_cards : Z) :
  Manager._get_due_cards now table user_id category max_cards
    = PyList.slice_to max_cards
        (PyList.sort
           (fun x y => Manager.key_lt (Manager.sort_key now x) (Manager.sort_key now y))
           (map Manager.card_dict (due_rows now table user_id category))).
Proof. reflexivity. Qed.

Lemma get_due_cards_sub (now : Z) (table : list Flashcard.t) (user_id : Z)
    (category : option string) (max_cards : Z) :
  Manager._get_due_cards now table user_id category max_cards
    ⊆+ map Manager.card_dict (due_rows now table user_id category).
Proof.
  rewrite get_due_cards_eq.
  destruct (slice_to_take max_cards
              (PyList.sort
                 (fun x y => Manager.key_lt (Manager.sort_key now x) (Manager.sort_key now y))
                 (map Manager.card_dict (due_rows now table user_id category))))
    as (k & -> & _).
  etransitivity; [apply sublist_submseteq, sublist_take|].
  apply Permutation_submseteq, sort_perm.
Qed.

Lemma due_rows_spec (now : Z) (table : list Flashcard.t) (user_id : Z)
    (category : option string) (row : Flashcard.t) :
  row ∈ due_rows now table user_id category <->
  row ∈ table /\ Flashcard.user_id row = user_id /\ Manager._is_card_due now row = true /\
  match Manager.category_filter category with
  | Some c => Flashcard.category row = Some c
  | None => True
  end.
Proof.
  unfold due_rows, Flashcard.query_category, Flashcard.query_user.
  destruct (Manager.category_filter category) as [c|];
    rewrite !list_elem_of_filter; tauto.
Qed.

(** X1.  Every card handed out by [_get_due_cards] is the dictionary of a row
    of the table that belongs to the user, is due at the clock reading, and
    lies in the requested category when a non-empty category is given. *)
Theorem due_cards_are_due (now : Z) (table : list Flashcard.t) (user_id : Z)
    (category : option string) (max_cards : Z) (card : SM2.CardData) :
  card ∈ Manager._get_due_cards now table user_id category max_cards ->
  exists row,
    row ∈ table /\ card = Manager.card_dict row /\
    Flashcard.user_id row = user_id /\
    Manager._is_card_due now row = true /\
    match Manager.category_filter category with
    | Some c => Flashcard.category row = Some c
    | None => True
    end.
Proof.
  intros Hin.
  pose proof (elem_of_submseteq _ _ _ Hin (get_due_cards_sub now table user_id category
                                            max_cards)) as Hin'.
  apply list_elem_of_fmap in Hin' as (row & -> & Hrow).
  apply due_rows_spec in Hrow as (? & ? & ? & ?). eauto 10.
Qed.

Lemma due_cards_are_due_witness :
  exists row,
    row ∈ sample_table /\
    Manager.card_dict (sample_flashcard 2 1.3%float (Some sample_now)) = Manager.card_dict row /\
    Flashcard.user_id row = 7 /\
    Manager._is_card_due sample_now row = true /\
    match Manager.category_filter (Some "algorithms") with
    | Some c => Flashcard.category row = Some c
    | None => True
    end.
Proof.
  apply (due_cards_are_due sample_now sample_table 7 (Some "algorithms") 20).
  vm_compute. apply list_elem_of_here.
Defined.

(** X2.  For a non-negative [max_cards], [_get_due_cards] returns
    [min(max_cards, get_due_cards_count)] cards, and when the count fits the
    result is a rearrangement of all due cards. *)
Theorem due_cards_count (now : Z) (table : list Flashcard.t) (user_id : Z)
    (category : option string) (max_cards : Z) :
  0 <= max_cards ->
  Z.of_nat (length (Manager._get_due_cards now table user_id category max_cards))
    = Z.min max_cards (Manager.get_due_cards_count now table user_id category) /\
  (Manager.get_due_cards_count now table user_id category <= max_cards ->
   Manager._get_due_cards now table user_id category max_cards
     ≡ₚ map Manager.card_dict (due_rows now table user_id category)).
Proof.
  intros Hmax. rewrite get_due_cards_eq.
  assert (Hc : Manager.get_due_cards_count now table user_id category
               = Z.of_nat (length (due_rows now table user_id category))) by reflexivity.
  rewrite Hc. split.
  - rewrite slice_to_length by exact Hmax.
    rewrite (Permutation_length (sort_perm _ _)), length_map. reflexivity.
  - intros Hfit. unfold PyList.slice_to. destruct (Z.leb_spec 0 max_cards); [|lia].
    rewrite take_ge.
    + apply sort_perm.
    + rewrite (Permutation_length (sort_perm _ _)), length_map. lia.
Qed.

Lemma due_cards_count_witness :
  Z.of_nat (length (Manager._get_due_cards sample_now sample_table 7 None 1))
    = Z.min 1 (Manager.get_due_cards_count sample_now sample_table 7 None) /\
  (Manager.get_due_cards_count sample_now sample_table 7 None <= 1 ->
   Manager._get_due_cards sample_now sample_table 7 None 1
     ≡ₚ map Manager.card_dict (due_rows sample_now sample_table 7 None)).
Proof. apply (due_cards_count sample_now sample_table 7 None 1). lia. Defined.

Lemma key_lt_asym (now : Z) (a b : SM2.CardData) :
  Manager.key_lt (Manager.sort_key now a) (Manager.sort_key now b) = true ->
  Manager.key_lt (Manager.sort_key now b) (Manager.sort_key now a) = false.
Proof.
  unfold Manager.key_lt, Manager.sort_key. cbn [fst snd].
  rewrite Bool.eqb_reflx. apply ltb_asym.
Qed.

Lemma key_lt_ease (now : Z) (a b : SM2.CardData) :
  Manager.key_lt (Manager.sort_key now a) (Manager.sort_key now b)
    = (SM2.ease_factor a <? SM2.ease_factor b)%float.
Proof.
  unfold Manager.key_lt, Manager.sort_key. cbn [fst snd]. now rewrite Bool.eqb_reflx.
Qed.

(** X3.  What the sort of [_get_due_cards] achieves: when no ease factor of
    the table is NaN, the selected cards come in ascending order of ease
    factor, whatever their due dates. *)
Theorem due_cards_sorted_by_ease (now : Z) (table : list Flashcard.t) (user_id : Z)
    (category : option string) (max_cards : Z) :
  Forall (fun row => not_nan (Flashcard.ease_factor row)) table ->
  Sorted (fun a b => (SM2.ease_factor a <=? SM2.ease_factor b)%float = true)
    (Manager._get_due_cards now table user_id category max_cards).
Proof.
  intros Hnan.
  apply (Sorted_strengthen
           (fun a b => Manager.key_lt (Manager.sort_key now b) (Manager.sort_key now a) = false)
           _ (fun c => not_nan (SM2.ease_factor c))).
  - intros a b Ha Hb. rewrite key_lt_ease. now apply ltb_false_leb.
  - apply Forall_forall. intros card Hin.
    destruct (due_cards_are_due _ _ _ _ _ _ Hin) as (row & Hrow & -> & _).
    rewrite Forall_forall in Hnan. exact (Hnan row Hrow).
  - rewrite get_due_cards_eq.
    destruct (slice_to_take max_cards
                (PyList.sort
                   (fun x y => Manager.key_lt (Manager.sort_key now x) (Manager.sort_key now y))
                   (map Manager.card_dict (due_rows now table user_id category))))
      as (k & -> & _).
    apply Sorted_take, sort_sorted. intros a b. apply key_lt_asym.
Qed.

Lemma due_cards_sorted_by_ease_witness :
  Sorted (fun a b => (SM2.ease_factor a <=? SM2.ease_factor b)%float = true)
    (Manager._get_due_cards sample_now sample_table 7 None 20).
Proof.
  apply (due_cards_sorted_by_ease sample_now sample_table 7 None 20).
  repeat constructor.
Defined.

(** X4.  With [max_cards = 0] a session is never created: whatever is due,
    [start_review_session] answers as if nothing were due and stores
    nothing. *)
Theorem start_with_zero_max_cards (now : Z) (user_id : Z) (category : option string)
    (st : Manager.State) :
  Manager.start_review_session now user_id category 0 st
    = (st, Manager.StartNothingDue (Manager.make_session_id now user_id) [] 0).
Proof.
  unfold Manager.start_review_session.
  rewrite get_due_cards_eq. unfold PyList.slice_to. cbn [Z.leb Z.compare Z.to_nat take].
  reflexivity.
Qed.

(** ** Further properties: the session table *)

(** The session table after any [review_card] call: untouched, or the
    addressed session advanced by one card, or that session removed. *)
Lemma review_card_table (now : Z) (commit_ok : bool) (sid : string) (quality : Z)
    (st : Manager.State) :
  let st' := fst (Manager.review_card now commit_ok sid quality st) in
  Manager.review_sessions st' = Manager.review_sessions st \/
  exists s card rr,
    Manager.review_sessions st !! sid = Some s /\
    Manager.current_card_index s < Z.of_nat (length (Manager.cards s)) /\
    (Manager.review_sessions st'
       = <[sid := advance now quality card rr s]> (Manager.review_sessions st) \/
     Manager.review_sessions st'
       = delete sid (<[sid := advance now quality card rr s]> (Manager.review_sessions st))).
Proof.
  unfold Manager.review_card.
  destruct (Manager.review_sessions st !! sid) as [s|] eqn:Hs; [|now left].
  destruct (Z.leb_spec (Z.of_nat (length (Manager.cards s))) (Manager.current_card_index s));
    [now left|].
  destruct (PyList.getitem _ _) as [card|]; [|now left].
  destruct (SM2.calculate_next_review _ _ _) as [rr|]; [|now left].
  right. exists s, card, rr. split; [reflexivity|]. split; [assumption|].
  fold (advance now quality card rr s).
  cbn [Manager.current_card_index Manager.cards advance].
  destruct (_ <=? _).
  - unfold Manager._complete_session.
    destruct (Manager.session_summary _ _) as [[summary breakdown]|]; cbn; auto.
  - destruct (PyList.getitem _ _); cbn; auto.
Qed.

Lemma advance_ok (now quality : Z) (card : SM2.CardData) (rr : SM2.ReviewResult)
    (s : Manager.ReviewSession) :
  session_ok s -> Manager.current_card_index s < Z.of_nat (length (Manager.cards s)) ->
  session_ok (advance now quality card rr s).
Proof.
  intros [Hc Hl] Hlt. unfold session_ok, advance. cbn. rewrite length_app. cbn. lia.
Qed.

(** X5.  The session invariant (the cursor stays within the card list and
    equals the number of logged reviews) holds for every session that
    [start_review_session] creates and is kept by [review_card]. *)
Theorem session_invariant_kept (st : Manager.State) :
  sessions_ok st ->
  (forall now user_id category max_cards,
     sessions_ok (fst (Manager.start_review_session now user_id category max_cards st))) /\
  (forall now commit_ok sid quality,
     sessions_ok (fst (Manager.review_card now commit_ok sid quality st))).
Proof.
  intros Hok. split.
  - intros now uid cat max. unfold Manager.start_review_session.
    destruct (Manager._get_due_cards _ _ _ _ _) as [|c cs] eqn:Hd; [exact Hok|].
    cbn [fst]. intros sid s. cbn [Manager.review_sessions].
    rewrite lookup_insert. destruct (decide _) as [_ | _].
    + intros [= <-]. unfold session_ok. cbn. lia.
    + apply Hok.
  - intros now ok sid q.
    destruct (review_card_table now ok sid q st) as [E | (s & card & rr & Hs & Hlt & [E | E])];
      intros sid' s'; rewrite E.
    + apply Hok.
    + rewrite lookup_insert. destruct (decide _) as [_ | _]; [|apply Hok].
      intros [= <-]. apply advance_ok; [exact (Hok sid s Hs) | exact Hlt].
    + rewrite lookup_delete. destruct (decide _) as [_ | Hne]; [discriminate|].
      rewrite lookup_insert_ne by exact Hne. apply Hok.
Qed.

Lemma started_state_sessions :
  Manager.review_sessions started_state
    = {[ sample_sid :=
           {| Manager.session_id := sample_sid; Manager.user_id := 7;
              Manager.start_time := sample_now;
              Manager.cards := Manager._get_due_cards sample_now sample_table 7 None 20;
              Manager.current_card_index := 0; Manager.reviewed_cards := [];
              Manager.category := None; Manager.max_cards := 20 |} ]}.
Proof. vm_compute. reflexivity. Qed.

Lemma started_state_ok : sessions_ok started_state.
Proof.
  intros sid s. rewrite started_state_sessions.
  intros [_ <-]%lookup_singleton_Some. unfold session_ok. cbn. lia.
Qed.

Lemma session_invariant_kept_witness :
  (forall now user_id category max_cards,
     sessions_ok (fst (Manager.start_review_session now user_id category max_cards
                         started_state))) /\
  (forall now commit_ok sid quality,
     sessions_ok (fst (Manager.review_card now commit_ok sid quality started_state))).
Proof. apply (session_invariant_kept started_state). exact started_state_ok. Defined.

(** X6.  A session that has just been started is found again: its progress
    reads 0 completed out of the selected cards, all remaining, and
    [start_review_session] touches neither another session nor the
    flashcard table. *)
Theorem started_session_progress (now : Z) (user_id : Z) (category : option string)
    (max_cards : Z) (st : Manager.State) :
  Manager._get_due_cards now (Manager.flashcards st) user_id category max_cards <> [] ->
  let cards := Manager._get_due_cards now (Manager.flashcards st) user_id category max_cards in
  let n := Z.of_nat (length cards) in
  let sid := Manager.make_session_id now user_id in
  let st' := fst (Manager.start_review_session now user_id category max_cards st) in
  snd (Manager.start_review_session now user_id category max_cards st)
    = Manager.StartSession sid cards n 0 category /\
  Manager.flashcards st' = Manager.flashcards st /\
  (forall other, other <> sid ->
     Manager.review_sessions st' !! other = Manager.review_sessions st !! other) /\
  (forall now' seconds,
     DateTime.total_seconds now' now = Ok seconds ->
     Manager.get_session_progress now' sid st'
       = Ok (Manager.ProgressInfo sid
               {| Manager.completed := 0; Manager.total := n; Manager.remaining := n |}
               now (seconds / 60)%float category)).
Proof.
  intros Hne. cbv zeta. unfold Manager.start_review_session.
  destruct (Manager._get_due_cards _ _ _ _ _) as [|c cs] eqn:Hc; [congruence|].
  cbn [fst snd Manager.flashcards Manager.review_sessions].
  split; [reflexivity|]. split; [reflexivity|]. split.
  - intros other Hother. now rewrite lookup_insert_ne.
  - intros now' seconds Hsec. unfold Manager.get_session_progress.
    cbn [Manager.review_sessions]. rewrite lookup_insert_eq.
    cbn [Manager.start_time]. rewrite Hsec. cbn [res_bind].
    unfold Manager.progress_of. cbn [Manager.cards Manager.current_card_index Manager.category].
    rewrite Z.sub_0_r. reflexivity.
Qed.

Lemma started_session_progress_witness :
  let cards := Manager._get_due_cards sample_now (Manager.flashcards sample_state) 7 None 20 in
  let n := Z.of_nat (length cards) in
  let sid := Manager.make_session_id sample_now 7 in
  let st' := fst (Manager.start_review_session sample_now 7 None 20 sample_state) in
  snd (Manager.start_review_session sample_now 7 None 20 sample_state)
    = Manager.StartSession sid cards n 0 None /\
  Manager.flashcards st' = Manager.flashcards sample_state /\
  (forall other, other <> sid ->
     Manager.review_sessions st' !! other = Manager.review_sessions sample_state !! other) /\
  (forall now' seconds,
     DateTime.total_seconds now' sample_now = Ok seconds ->
     Manager.get_session_progress now' sid st'
       = Ok (Manager.ProgressInfo sid
               {| Manager.completed := 0; Manager.total := n; Manager.remaining := n |}
               sample_now (seconds / 60)%float None)).
Proof.
  apply (started_session_progress sample_now 7 None 20 sample_state).
  vm_compute. discriminate.
Defined.

(** *** Session ids *)

Lemma strftime_same_second (t1 t2 : Z) :
  t1 / DateTime.us_per_second = t2 / DateTime.us_per_second ->
  DateTime.strftime t1 = DateTime.strftime t2.
Proof.
  intros H. unfold DateTime.strftime.
  assert (D : forall t, t / DateTime.us_per_day = t / DateTime.us_per_second / 86400).
  { intros t. unfold DateTime.us_per_day, DateTime.us_per_second.
    rewrite Z.div_div by lia. reflexivity. }
  assert (S : forall t, t mod DateTime.us_per_day / DateTime.us_per_second
                        = (t / DateTime.us_per_second) mod 86400).
  { intros t. unfold DateTime.us_per_day, DateTime.us_per_second.
    rewrite (Z.mul_comm 86400 1000000), Z.rem_mul_r by lia.
    rewrite Z.mul_comm, Z.div_add by lia.
    rewrite (Z.div_small (t mod 1000000)) by (apply Z.mod_pos_bound; lia). lia. }
  rewrite !D, !S, H. reflexivity.
Qed.

(** X7.  Session ids have the resolution of one second: two calls by the
    same user within one clock second build the same id, so the second
    [start_review_session] that finds due cards replaces whatever session was
    stored under it by a fresh one at card 0. *)
Theorem same_second_start_overwrites (now1 now2 : Z) (user_id : Z)
    (category : option string) (max_cards : Z) (st : Manager.State) :
  now1 / DateTime.us_per_second = now2 / DateTime.us_per_second ->
  Manager._get_due_cards now2 (Manager.flashcards st) user_id category max_cards <> [] ->
  Manager.make_session_id now2 user_id = Manager.make_session_id now1 user_id /\
  exists s,
    Manager.review_sessions
      (fst (Manager.start_review_session now2 user_id category max_cards st))
      !! Manager.make_session_id now1 user_id = Some s /\
    Manager.current_card_index s = 0 /\ Manager.reviewed_cards s = [] /\
    Manager.start_time s = now2.
Proof.
  intros Hsec Hdue.
  assert (Hid : Manager.make_session_id now2 user_id = Manager.make_session_id now1 user_id).
  { unfold Manager.make_session_id. now rewrite (strftime_same_second now1 now2 Hsec). }
  split; [exact Hid|]. rewrite <- Hid.
  unfold Manager.start_review_session.
  destruct (Manager._get_due_cards _ _ _ _ _) as [|c cs]; [congruence|].
  cbn [fst Manager.review_sessions]. rewrite lookup_insert_eq. eauto.
Qed.

Lemma same_second_start_overwrites_witness :
  Manager.make_session_id (sample_now + 999999) 7 = Manager.make_session_id sample_now 7 /\
  exists s,
    Manager.review_sessions
      (fst (Manager.start_review_session (sample_now + 999999) 7 None 20
              (fst (Manager.review_card sample_now true sample_sid 4 started_state))))
      !! Manager.make_session_id sample_now 7 = Some s /\
    Manager.current_card_index s = 0 /\ Manager.reviewed_cards s = [] /\
    Manager.start_time s = sample_now + 999999.
Proof.
  apply (same_second_start_overwrites sample_now (sample_now + 999999) 7 None 20).
  - vm_compute. reflexivity.
  - vm_compute. discriminate.
Defined.

(** ** Further properties: the sweep *)

Lemma expired_sessions_sound (now : Z) (items : list (string * Manager.ReviewSession)) :
  forall expired : list string,
    Manager.expired_sessions now items = Ok expired ->
    sublist expired (items.*1) /\
    forall sid, sid ∈ expired ->
      exists s t, (sid, s) ∈ items /\
                  DateTime.total_seconds now (Manager.start_time s) = Ok t /\
                  (7200 <? t)%float = true.
Proof.
  induction items as [|[k v] rest IH]; intros expired Hrun.
  { injection Hrun as <-. split; [constructor | intros sid Hin; inversion Hin]. }
  cbn [Manager.expired_sessions] in Hrun.
  destruct (DateTime.total_seconds now (Manager.start_time v)) as [tv|] eqn:Etv;
    [|discriminate].
  cbn [res_bind] in Hrun.
  destruct (Manager.expired_sessions now rest) as [more|] eqn:Emore; [|discriminate].
  cbn [res_bind] in Hrun. injection Hrun as <-.
  destruct (IH more eq_refl) as [Hsub Hall].
  destruct (7200 <? tv)%float eqn:Et; cbn [fmap list_fmap fst]; split.
  - now constructor.
  - intros sid [-> | Hin]%elem_of_cons.
    + exists v, tv. split; [apply list_elem_of_here | auto].
    + destruct (Hall sid Hin) as (s & t & ? & ? & ?). exists s, t.
      split; [now apply list_elem_of_further | auto].
  - now constructor.
  - intros sid Hin. destruct (Hall sid Hin) as (s & t & ? & ? & ?). exists s, t.
    split; [now apply list_elem_of_further | auto].
Qed.

Lemma lookup_foldr_delete_other (m : gmap string Manager.ReviewSession) (l : list string)
    (sid : string) :
  sid ∉ l -> foldr delete m l !! sid = m !! sid.
Proof.
  induction l as [|x l IH]; intros Hnin; [reflexivity|].
  apply not_elem_of_cons in Hnin as [Hne Hnin].
  cbn [foldr]. rewrite lookup_delete_ne by congruence. now apply IH.
Qed.

Lemma size_foldr_delete (m : gmap string Manager.ReviewSession) (l : list string) :
  NoDup l -> (forall sid, sid ∈ l -> is_Some (m !! sid)) ->
  (size (foldr delete m l) + length l = size m)%nat.
Proof.
  induction l as [|x l IH]; intros Hnd Hin; [cbn; lia|].
  apply NoDup_cons in Hnd as [Hx Hnd]. cbn [foldr length].
  rewrite map_size_delete_Some.
  - specialize (IH Hnd (fun sid H => Hin sid (list_elem_of_further _ _ _ H))).
    assert (0 < size (foldr delete m l))%nat; [|lia].
    destruct (Hin x (list_elem_of_here _ _)) as [v Hv].
    assert (Hl : foldr delete m l !! x = Some v)
      by (rewrite lookup_foldr_delete_other; auto).
    destruct (size (foldr delete m l)) eqn:Es; [|lia].
    apply map_size_empty_inv in Es. rewrite Es, lookup_empty in Hl. discriminate.
  - rewrite lookup_foldr_delete_other by exact Hx. apply Hin, list_elem_of_here.
Qed.

(** X8.  The sweep removes exactly the sessions started more than 7200
    seconds before: a session at most that old is still stored unchanged
    afterwards, the returned count is the number of sessions removed, and
    the flashcard table is not touched. *)
Theorem cleanup_keeps_recent_sessions (now : Z) (st st' : Manager.State) (count : Z) :
  Manager.cleanup_expired_sessions now st = Ok (st', count) ->
  (forall sid s t,
     Manager.review_sessions st !! sid = Some s ->
     DateTime.total_seconds now (Manager.start_time s) = Ok t ->
     (7200 <? t)%float = false ->
     Manager.review_sessions st' !! sid = Some s) /\
  Z.of_nat (size (Manager.review_sessions st')) + count
    = Z.of_nat (size (Manager.review_sessions st)) /\
  Manager.flashcards st' = Manager.flashcards st.
Proof.
  unfold Manager.cleanup_expired_sessions. intros Hrun.
  destruct (Manager.expired_sessions now _) as [expired|] eqn:Eexp; [|discriminate].
  cbn [res_bind] in Hrun. injection Hrun as <- <-.
  destruct (expired_sessions_sound now _ expired Eexp) as [Hsub Hall].
  cbn [Manager.review_sessions Manager.flashcards].
  split; [|split; [|reflexivity]].
  - intros sid s t Hs Ht Hfresh.
    rewrite lookup_foldr_delete_other; [exact Hs|].
    intros Hin. destruct (Hall sid Hin) as (s' & t' & Hin' & Ht' & Hexp).
    apply elem_of_map_to_list in Hin'. rewrite Hs in Hin'. injection Hin' as <-.
    congruence.
  - assert (Hnd : NoDup expired).
    { exact (sublist_NoDup _ _ (NoDup_fst_map_to_list (Manager.review_sessions st)) Hsub). }
    pose proof (size_foldr_delete (Manager.review_sessions st) expired Hnd) as Hsz.
    rewrite <- Hsz; [lia|].
    intros sid Hin. destruct (Hall sid Hin) as (s & _ & Hs & _).
    apply elem_of_map_to_list in Hs. eauto.
Qed.

Lemma cleanup_keeps_recent_sessions_witness :
  (forall sid s t,
     Manager.review_sessions started_state !! sid = Some s ->
     DateTime.total_seconds (sample_now + 7200 * DateTime.us_per_second)
       (Manager.start_time s) = Ok t ->
     (7200 <? t)%float = false ->
     Manager.review_sessions started_state !! sid = Some s) /\
  Z.of_nat (size (Manager.review_sessions started_state)) + 0
    = Z.of_nat (size (Manager.review_sessions started_state)) /\
  Manager.flashcards started_state = Manager.flashcards started_state.
Proof.
  apply (cleanup_keeps_recent_sessions (sample_now + 7200 * DateTime.us_per_second)
           started_state started_state 0).
  vm_compute. reflexivity.
Defined.

(** ** Further properties: the flashcard table *)

Lemma get_put_same (table : list Flashcard.t) (row r : Flashcard.t) :
  Flashcard.get table (Flashcard.id r) = Some row ->
  Flashcard.get (Flashcard.put table r) (Flashcard.id r) = Some r.
Proof.
  unfold Flashcard.get, Flashcard.put.
  induction table as [|c table IH]; cbn [List.find map]; [discriminate|].
  destruct (Flashcard.id c =? Flashcard.id r) eqn:E.
  - intros _. now rewrite Z.eqb_refl.
  - rewrite E. exact IH.
Qed.

Lemma get_put_other (table : list Flashcard.t) (r : Flashcard.t) (cid : Z) :
  cid <> Flashcard.id r ->
  Flashcard.get (Flashcard.put table r) cid = Flashcard.get table cid.
Proof.
  intros Hne. unfold Flashcard.get, Flashcard.put.
  induction table as [|c table IH]; cbn [List.find map]; [reflexivity|].
  destruct (Z.eqb_spec (Flashcard.id c) (Flashcard.id r)) as [E | E].
  - destruct (Z.eqb_spec (Flashcard.id r) cid); [congruence|].
    destruct (Z.eqb_spec (Flashcard.id c) cid); [congruence|]. exact IH.
  - destruct (Flashcard.id c =? cid); [reflexivity | exact IH].
Qed.

(** X9.  An accepted review whose commit succeeds writes the scheduler's
    result to the row of the reviewed card: reading the row back gives the
    new ease factor, interval, repetition count, review count and due date,
    with [last_reviewed] set to the clock reading, while every other row
    reads as before. *)
Theorem review_updates_row (now : Z) (sid : string) (quality : Z) (st : Manager.State)
    (s : Manager.ReviewSession) (card : SM2.CardData) (rr : SM2.ReviewResult)
    (row : Flashcard.t) :
  Manager.review_sessions st !! sid = Some s ->
  Manager.current_card_index s < Z.of_nat (length (Manager.cards s)) ->
  PyList.getitem (Manager.cards s) (Manager.current_card_index s) = Ok card ->
  SM2.calculate_next_review now card quality = Ok rr ->
  Flashcard.get (Manager.flashcards st) (SM2.id card) = Some row ->
  let table' := Manager.flashcards (fst (Manager.review_card now true sid quality st)) in
  (exists row',
     Flashcard.get table' (SM2.id card) = Some row' /\
     Flashcard.ease_factor row' = SM2.new_ease_factor rr /\
     Flashcard.interval row' = SM2.new_interval rr /\
     Flashcard.repetition_count row' = SM2.repetitions rr /\
     Flashcard.review_count row' = SM2.review_count card + 1 /\
     Flashcard.next_review row' = Some (SM2.next_review rr) /\
     Flashcard.last_reviewed row' = Some now /\
     Flashcard.question row' = Flashcard.question row /\
     Flashcard.answer row' = Flashcard.answer row) /\
  forall other, other <> SM2.id card ->
    Flashcard.get table' other = Flashcard.get (Manager.flashcards st) other.
Proof.
  intros Hs Hlt Hcard Hrr Hrow table'.
  assert (Hid : Flashcard.id row = SM2.id card).
  { unfold Flashcard.get in Hrow. apply find_some in Hrow as [_ E]. lia. }
  assert (Hcid : SM2.card_id rr = SM2.id card).
  { now apply calculate_next_review_inv in Hrr as (_ & _ & _ & E & _). }
  assert (Hrc : SM2.rr_review_count rr = SM2.review_count card + 1).
  { now apply calculate_next_review_inv in Hrr as (_ & _ & _ & _ & _ & _ & E & _). }
  assert (Ht : table' = Manager._update_card_in_database now true rr (Manager.flashcards st)).
  { subst table'. unfold Manager.review_card. rewrite Hs.
    destruct (Z.leb_spec (Z.of_nat (length (Manager.cards s))) (Manager.current_card_index s));
      [lia|].
    rewrite Hcard, Hrr. cbn [Manager.current_card_index Manager.cards].
    destruct (_ <=? _).
    - unfold Manager._complete_session.
      destruct (Manager.session_summary _ _) as [[summary breakdown]|]; reflexivity.
    - destruct (PyList.getitem (Manager.cards s) (Manager.current_card_index s + 1));
        reflexivity. }
  rewrite Ht. unfold Manager._update_card_in_database. rewrite Hcid, Hrow. split.
  - eexists. split.
    + rewrite <- Hid.
      match goal with |- Flashcard.get (Flashcard.put _ ?r) _ = _ =>
        apply (get_put_same (Manager.flashcards st) row r) end.
      cbn [Flashcard.id]. rewrite Hid. exact Hrow.
    + cbn. auto 10.
  - intros other Hother. apply get_put_other. cbn [Flashcard.id]. congruence.
Qed.

Lemma review_updates_row_witness :
  let table' :=
    Manager.flashcards (fst (Manager.review_card sample_now true sample_sid 4 started_state)) in
  (exists row',
     Flashcard.get table' 2 = Some row' /\
     Flashcard.ease_factor row' = 1.3%float /\
     Flashcard.interval row' = 1 /\
     Flashcard.repetition_count row' = 1 /\
     Flashcard.review_count row' = 0 + 1 /\
     Flashcard.next_review row' = Some (sample_now + DateTime.us_per_day) /\
     Flashcard.last_reviewed row' = Some sample_now /\
     Flashcard.question row' = "q" /\
     Flashcard.answer row' = "a") /\
  forall other, other <> 2 ->
    Flashcard.get table' other = Flashcard.get (Manager.flashcards started_state) other.
Proof.
  refine (review_updates_row sample_now sample_sid 4 started_state
            {| Manager.session_id := sample_sid; Manager.user_id := 7;
               Manager.start_time := sample_now;
               Manager.cards := Manager._get_due_cards sample_now sample_table 7 None 20;
               Manager.current_card_index := 0; Manager.reviewed_cards := [];
               Manager.category := None; Manager.max_cards := 20 |}
            (Manager.card_dict (sample_flashcard 2 1.3%float (Some sample_now)))
            {| SM2.card_id := 2; SM2.quality := 4; SM2.previous_interval := 1;
               SM2.new_interval := 1; SM2.previous_ease_factor := 1.3%float;
               SM2.new_ease_factor := 1.3%float; SM2.repetitions := 1;
               SM2.next_review := sample_now + DateTime.us_per_day;
               SM2.rr_review_count := 1 |}
            (sample_flashcard 2 1.3%float (Some sample_now)) _ _ _ _ _).
  - vm_compute. reflexivity.
  - vm_compute. reflexivity.
  - vm_compute. reflexivity.
  - vm_compute. reflexivity.
  - vm_compute. reflexivity.
Defined.

(** ** Further properties: the scheduler's edges *)

(** X10.  A quality outside [0, 4] is scheduled exactly as quality 0: the
    repetition count is reset, the card comes back the next day, and the
    result records quality 0. *)
Theorem out_of_range_quality_is_zero (now : Z) (card : SM2.CardData) (quality : Z) :
  quality < 0 \/ 4 < quality ->
  SM2.calculate_next_review now card quality = SM2.calculate_next_review now card 0 /\
  forall r, SM2.calculate_next_review now card quality = Ok r ->
            SM2.quality r = 0 /\ SM2.repetitions r = 0 /\ SM2.new_interval r = 1 /\
            SM2.next_review r = now + DateTime.us_per_day.
Proof.
  intros Hq.
  assert (Hv : SM2.validate_quality quality = 0).
  { unfold SM2.validate_quality.
    destruct (Z.ltb_spec quality 0), (Z.ltb_spec 4 quality); cbn; lia. }
  split.
  - unfold SM2.calculate_next_review. rewrite Hv. reflexivity.
  - intros r Hr. apply calculate_next_review_inv in Hr. rewrite Hv in Hr.
    destruct Hr as (_ & Hadd & Hqr & _ & _ & _ & _ & Hlow & _).
    destruct (Hlow ltac:(lia)) as [Hrep Hint]. rewrite Hint in Hadd.
    repeat split; auto.
    unfold DateTime.add_days in Hadd.
    change (999999999 <? Z.abs 1) with false in Hadd. cbv iota in Hadd.
    destruct (_ && _); [|discriminate]. injection Hadd as <-. lia.
Qed.

Lemma out_of_range_quality_is_zero_witness :
  SM2.calculate_next_review sample_now sample_card 9
    = SM2.calculate_next_review sample_now sample_card 0 /\
  forall r, SM2.calculate_next_review sample_now sample_card 9 = Ok r ->
            SM2.quality r = 0 /\ SM2.repetitions r = 0 /\ SM2.new_interval r = 1 /\
            SM2.next_review r = sample_now + DateTime.us_per_day.
Proof. apply (out_of_range_quality_is_zero sample_now sample_card 9). lia. Defined.

Lemma interval_progression_length (ease : float) (n i : nat) (c : Z) (l : list Z) :
  SM2.interval_progression_from i n c ease = Ok l -> length l = n.
Proof.
  revert i c l. induction n as [|n IH]; intros i c l H; cbn [SM2.interval_progression_from] in H.
  - injection H as <-. reflexivity.
  - unfold res_bind in H at 1.
    destruct (match i with O => _ | S _ => _ end) as [next|]; [|discriminate].
    unfold res_bind in H at 1.
    destruct (SM2.interval_progression_from (S i) n next ease) as [rest|] eqn:E;
      [|discriminate].
    injection H as <-. cbn [length]. f_equal. exact (IH _ _ _ E).
Qed.

(** X11.  The interval progression has one entry per repetition and always
    opens with 1, 1, 6, whatever the ease factor. *)
Theorem interval_progression_prefix (ease : float) (max_repetitions : nat) (l : list Z) :
  SM2.get_interval_progression ease max_repetitions = Ok l ->
  length l = max_repetitions /\ take 3 l = take max_repetitions [1; 1; 6].
Proof.
  intros H. split; [eapply interval_progression_length, H|].
  unfold SM2.get_interval_progression in H.
  destruct max_repetitions as [|[|[|n]]];
    cbn [SM2.interval_progression_from res_bind] in H.
  - injection H as <-. reflexivity.
  - injection H as <-. reflexivity.
  - injection H as <-. reflexivity.
  - destruct (PyFloat.of_int 6) as [c|]; cbn [res_bind] in H; [|discriminate].
    destruct (PyFloat.to_int (c * ease)) as [next|]; cbn [res_bind] in H; [|discriminate].
    destruct (SM2.interval_progression_from 3 n next ease) as [rest|];
      cbn [res_bind] in H; [|discriminate].
    injection H as <-. cbn [take]. now rewrite take_nil.
Qed.

Lemma interval_progression_prefix_witness :
  length [1; 1; 6; 15; 37; 92] = 6%nat /\
  take 3 [1; 1; 6; 15; 37; 92] = take 6 [1; 1; 6].
Proof.
  apply (interval_progression_prefix 2.5%float 6). vm_compute. reflexivity.
Defined.

(** X12.  The review streak is never negative, is 0 when no card has ever
    been reviewed, and is at most 7 unless the most recent review is dated
    after today. *)
Theorem review_streak_bounds (now : Z) (last_reviewed : list (option Z)) :
  0 <= Manager._calculate_review_streak now last_reviewed /\
  (Forall (fun d => d = None) last_reviewed ->
   Manager._calculate_review_streak now last_reviewed = 0) /\
  (Forall (fun d => forall t, d = Some t -> t <= now) last_reviewed ->
   Manager._calculate_review_streak now last_reviewed <= 7).
Proof.
  unfold Manager._calculate_review_streak.
  assert (Hday : 0 < DateTime.us_per_day) by (unfold DateTime.us_per_day, DateTime.us_per_second; lia).
  split; [|split].
  - destruct (omap _ _); lia.
  - intros Hnone.
    assert (E : omap (fun d : option Z => d) last_reviewed = []).
    { induction Hnone as [|d l -> _ IH]; [reflexivity | exact IH]. }
    now rewrite E.
  - intros Hpast.
    assert (P : Forall (fun t => t <= now) (omap (fun d : option Z => d) last_reviewed)).
    { induction Hpast as [|d l Hd _ IH]; [constructor|].
      destruct d as [t|]; cbn; [constructor; auto | exact IH]. }
    destruct (omap _ _) as [|first others]; [lia|].
    apply Forall_cons in P as [Pf Po].
    assert (M : foldr Z.max first others <= now).
    { induction Po as [|x l Hx _ IH]; cbn; [exact Pf | lia]. }
    apply (Z.div_le_mono _ _ DateTime.us_per_day Hday) in M. lia.
Qed.

(** ** Further properties: the matcher *)

(** X13.  The compatibility score is always a number between 0.0 and 1.0,
    whatever the profiles hold and whatever the summation returns (NaN
    included), also when a sub-score raises. *)
Theorem compatibility_score_bounds (py_sum : list float -> float)
    (user : Matcher.UserProfile) (group : Matcher.StudyGroupProfile) :
  (0 <=? Matcher._calculate_compatibility py_sum user group)%float = true /\
  (Matcher._calculate_compatibility py_sum user group <=? 1)%float = true.
Proof.
  unfold Matcher._calculate_compatibility.
  destruct (Matcher.compatibility_scores user group) as [scores|].
  2: { split; vm_compute; reflexivity. }
  set (t := py_sum _). clearbody t.
  unfold PyFloat.min, PyFloat.max.
  destruct (0 <? t)%float eqn:H0.
  - destruct (t <? 1)%float eqn:H1.
    + split; now apply ltb_leb.
    + split; vm_compute; reflexivity.
  - change (0 <? 1)%float with true. cbv iota. split; vm_compute; reflexivity.
Qed.

Lemma list_index_lookup (l : list string) (x : string) (i : Z) :
  Matcher.list_index l x = Ok i -> 0 <= i /\ l !! Z.to_nat i = Some x.
Proof.
  revert i. induction l as [|y l IH]; intros i; cbn [Matcher.list_index]; [discriminate|].
  destruct (String.eqb_spec y x) as [-> | Hne].
  - intros [= <-]. split; [lia | reflexivity].
  - destruct (Matcher.list_index l x) as [j|]; cbn [res_bind]; [|discriminate].
    intros [= <-]. destruct (IH j eq_refl) as [Hj Hl]. split; [lia|].
    replace (Z.to_nat (j + 1)) with (S (Z.to_nat j)) by lia. exact Hl.
Qed.

(** X14.  The skill score is 1.0, 0.7 or 0.3 and never looks at the member
    distribution: the diversity bonus after the distance tests cannot be
    reached, because two different known levels are one or two steps apart
    and an unknown level raises. *)
Theorem skill_compatibility_values (user_skill group_skill : string)
    (dist dist' : list (string * Z)) :
  Matcher._calculate_skill_compatibility user_skill group_skill dist
    = Matcher._calculate_skill_compatibility user_skill group_skill dist' /\
  forall r, Matcher._calculate_skill_compatibility user_skill group_skill dist = Ok r ->
            r = 1.0%float \/ r = 0.7%float \/ r = 0.3%float.
Proof.
  unfold Matcher._calculate_skill_compatibility.
  destruct (String.eqb_spec user_skill group_skill) as [E | Hne].
  { split; [reflexivity|]. intros r [= <-]. auto. }
  destruct (Matcher.list_index _ user_skill) as [ui|] eqn:Eu; cbn [res_bind].
  2: { split; [reflexivity | discriminate]. }
  destruct (Matcher.list_index _ group_skill) as [gi|] eqn:Eg; cbn [res_bind].
  2: { split; [reflexivity | discriminate]. }
  apply list_index_lookup in Eu as [Hu Lu]. apply list_index_lookup in Eg as [Hg Lg].
  assert (Bu : (Z.to_nat ui < 3)%nat) by (apply lookup_lt_Some in Lu; exact Lu).
  assert (Bg : (Z.to_nat gi < 3)%nat) by (apply lookup_lt_Some in Lg; exact Lg).
  assert (Hd : ui <> gi) by (intros ->; congruence).
  destruct (Z.eqb_spec (Z.abs (ui - gi)) 1) as [D1 | D1].
  { split; [reflexivity|]. intros r [= <-]. auto. }
  destruct (Z.eqb_spec (Z.abs (ui - gi)) 2) as [D2 | D2].
  { split; [reflexivity|]. intros r [= <-]. auto. }
  lia.
Qed.

Lemma existsb_pointwise {A : Type} (f g : A -> bool) (l : list A) :
  (forall x, f x = g x) -> existsb f l = existsb g l.
Proof.
  intros H. induction l as [|x l IH]; cbn [existsb]; [reflexivity|]. now rewrite H, IH.
Qed.

Lemma mem_string_spec (x : string) (l : list string) :
  Matcher.mem_string x l = true <-> In x l.
Proof.
  unfold Matcher.mem_string. rewrite existsb_exists. split.
  - intros (y & Hin & E). apply String.eqb_eq in E. now subst.
  - intros Hin. exists x. split; [exact Hin | apply String.eqb_refl].
Qed.

(** X15.  The schedule score does not depend on which side is the user and
    which the group, and it is one of 0.8, 1.0, 0.7 and 0.4; two flexible
    schedules score 0.8, not 1.0. *)
Theorem schedule_compatibility_symmetric (a b : string) :
  Matcher._calculate_schedule_compatibility a b
    = Matcher._calculate_schedule_compatibility b a /\
  (Matcher._calculate_schedule_compatibility a b = 0.8%float \/
   Matcher._calculate_schedule_compatibility a b = 1.0%float \/
   Matcher._calculate_schedule_compatibility a b = 0.7%float \/
   Matcher._calculate_schedule_compatibility a b = 0.4%float) /\
  Matcher._calculate_schedule_compatibility "flexible" "flexible" = 0.8%float.
Proof.
  split; [|split; [|reflexivity]].
  - unfold Matcher._calculate_schedule_compatibility.
    rewrite (orb_comm (String.eqb a "flexible")), (String.eqb_sym a b).
    destruct (_ || _); [reflexivity|]. destruct (String.eqb b a); [reflexivity|].
    assert (E : existsb (fun g => Matcher.mem_string a g.2 && Matcher.mem_string b g.2)
                  Matcher.schedule_groups
                = existsb (fun g => Matcher.mem_string b g.2 && Matcher.mem_string a g.2)
                    Matcher.schedule_groups).
    { apply existsb_pointwise. intros g. apply andb_comm. }
    cbn [snd] in E |- *. now rewrite E.
  - unfold Matcher._calculate_schedule_compatibility.
    destruct (_ || _); auto. destruct (String.eqb a b); auto. destruct (existsb _ _); auto.
Qed.

(** X16.  A group whose [max_size] is 0 gets the score 0.0: the division in
    the size score raises and the handler of [_calculate_compatibility]
    turns any exception into 0.0. *)
Theorem zero_capacity_scores_zero (py_sum : list float -> float)
    (user : Matcher.UserProfile) (group : Matcher.StudyGroupProfile) :
  Matcher.max_size group = 0 ->
  Matcher._calculate_size_compatibility (Matcher.current_size group) (Matcher.max_size group)
    = Raise ZeroDivisionError /\
  Matcher._calculate_compatibility py_sum user group = 0.0%float.
Proof.
  intros H0.
  assert (Hs : Matcher._calculate_size_compatibility (Matcher.current_size group)
                 (Matcher.max_size group) = Raise ZeroDivisionError).
  { unfold Matcher._calculate_size_compatibility, PyFloat.int_truediv. rewrite H0.
    now destruct (Matcher.current_size group). }
  split; [exact Hs|].
  unfold Matcher._calculate_compatibility, Matcher.compatibility_scores. rewrite Hs.
  destruct (Matcher._calculate_skill_compatibility _ _ _); reflexivity.
Qed.

Lemma zero_capacity_scores_zero_witness :
  Matcher._calculate_size_compatibility 0 0 = Raise ZeroDivisionError /\
  Matcher._calculate_compatibility PyFloat.sum sample_user (sample_group 1 0 0 "intermediate")
    = 0.0%float.
Proof.
  apply (zero_capacity_scores_zero PyFloat.sum sample_user (sample_group 1 0 0 "intermediate")).
  reflexivity.
Defined.

Lemma lower_ascii_idem (c : ascii) : PyStr.lower_ascii (PyStr.lower_ascii c) = PyStr.lower_ascii c.
Proof.
  destruct c as [[] [] [] [] [] [] [] []]; reflexivity.
Qed.

Lemma lower_idem (s : string) : PyStr.lower (PyStr.lower s) = PyStr.lower s.
Proof.
  induction s as [|c s IH]; cbn [PyStr.lower]; [reflexivity|].
  now rewrite lower_ascii_idem, IH.
Qed.

(** X17.  The interest score ignores letter case on both sides, and an
    interest equal to the topic up to case scores 1.0. *)
Theorem interest_compatibility_case (user_interests : list string) (group_topic : string) :
  Matcher._calculate_interest_compatibility (map PyStr.lower user_interests)
      (PyStr.lower group_topic)
    = Matcher._calculate_interest_compatibility user_interests group_topic /\
  (forall interest,
     In interest user_interests -> PyStr.lower interest = PyStr.lower group_topic ->
     Matcher._calculate_interest_compatibility user_interests group_topic = 1.0%float).
Proof.
  split.
  - unfold Matcher._calculate_interest_compatibility.
    destruct user_interests as [|i0 rest]; [reflexivity|].
    set (l := i0 :: rest). change (map PyStr.lower l) with (map PyStr.lower l).
    assert (Hl : map PyStr.lower l = PyStr.lower i0 :: map PyStr.lower rest) by reflexivity.
    rewrite Hl, <- Hl. clear Hl.
    rewrite lower_idem.
    assert (E : forall f : string -> bool,
               existsb (fun interest => f (PyStr.lower interest)) (map PyStr.lower l)
               = existsb (fun interest => f (PyStr.lower interest)) l).
    { intros f. induction l as [|x l' IH]; cbn [map existsb]; [reflexivity|].
      now rewrite lower_idem, IH. }
    rewrite (E (fun li => String.eqb li (PyStr.lower group_topic))).
    rewrite (E (fun li => existsb (fun related => PyStr.contains related li)
                            (Matcher.dict_get Matcher.topic_similarity_matrix
                               (PyStr.lower group_topic) []))).
    rewrite (E (fun li => PyStr.contains (PyStr.lower group_topic) li
                          || PyStr.contains li (PyStr.lower group_topic))).
    reflexivity.
  - intros interest Hin Heq. unfold Matcher._calculate_interest_compatibility.
    destruct user_interests as [|i0 rest]; [destruct Hin|].
    assert (E : existsb (fun i => String.eqb (PyStr.lower i) (PyStr.lower group_topic))
                  (i0 :: rest) = true).
    { apply existsb_exists. exists interest. split; [exact Hin|].
      rewrite Heq. apply String.eqb_refl. }
    now rewrite E.
Qed.

(** X18.  Skill levels produced by [_determine_skill_level] are always
    known to the skill score: it never raises on them, gives 1.0 exactly when
    they coincide, and otherwise 0.7 or 0.3. *)
Theorem derived_skill_levels_score (n m : Z) (dist : list (string * Z)) :
  exists r,
    Matcher._calculate_skill_compatibility
      (Matcher._determine_skill_level n) (Matcher._determine_skill_level m) dist = Ok r /\
    (Matcher._determine_skill_level n = Matcher._determine_skill_level m -> r = 1.0%float) /\
    (Matcher._determine_skill_level n <> Matcher._determine_skill_level m ->
     r = 0.7%float \/ r = 0.3%float).
Proof.
  unfold Matcher._determine_skill_level.
  destruct (200 <=? n), (50 <=? n), (200 <=? m), (50 <=? m);
    (eexists; split; [vm_compute; reflexivity|]; split; [intros H | intros H]);
    try reflexivity; try discriminate; try (exfalso; apply H; reflexivity); auto.
Qed.

(** X19.  Every interest extracted from a goals text is a topic of the
    similarity table; an empty text gives no interest, and the extraction
    ignores letter case. *)
Theorem extracted_interests_are_topics (learning_goals : string) :
  Matcher._extract_interests_from_goals "" = [] /\
  Matcher._extract_interests_from_goals (PyStr.lower learning_goals)
    = Matcher._extract_interests_from_goals learning_goals /\
  forall interest,
    In interest (Matcher._extract_interests_from_goals learning_goals) ->
    In interest (map fst Matcher.topic_similarity_matrix).
Proof.
  split; [reflexivity|]. split.
  - unfold Matcher._extract_interests_from_goals. now rewrite lower_idem.
  - intros interest Hin. unfold Matcher._extract_interests_from_goals in Hin.
    apply in_map_iff in Hin as ([k v] & <- & Hin).
    apply list_elem_of_In, list_elem_of_filter in Hin as [_ Hin].
    apply list_elem_of_In in Hin. cbn in Hin |- *.
    intuition (match goal with H : _ = (_, _) |- _ => injection H as <- <- end; auto 10).
Qed.

Lemma SFcompare_refl (x : spec_float) : x <> S754_nan -> SFcompare x x = Some Eq.
Proof.
  destruct x as [s | s | | s m e]; cbn; intros H; try congruence.
  - now destruct s.
  - destruct s; rewrite Z.compare_refl, Pos.compare_cont_spec, Pos.compare_refl; reflexivity.
Qed.

Lemma ltb_not_nan (a b : float) : (a <? b)%float = true -> not_nan a /\ not_nan b.
Proof.
  unfold not_nan. rewrite ltb_spec, !FloatAxioms.eqb_spec. unfold SFltb, SFeqb.
  intros H. split; rewrite SFcompare_refl; auto; intros E; rewrite E in H;
    [|destruct (Prim2SF a)]; discriminate.
Qed.

Lemma collect_matches_spec (py_sum : list float -> float) (user : Matcher.UserProfile)
    (groups : list Matcher.StudyGroupProfile) :
  forall matches,
    Matcher.collect_matches py_sum user groups = Ok matches ->
    Forall (fun m =>
              (0.3 <? Matcher.compatibility_score m)%float = true /\
              exists g, In g groups /\
                        Matcher.m_group_id m = Matcher.group_id g /\
                        Matcher.compatibility_score m
                          = Matcher._calculate_compatibility py_sum user g) matches.
Proof.
  induction groups as [|g rest IH]; intros matches H; cbn [Matcher.collect_matches] in H.
  { injection H as <-. constructor. }
  destruct (0.3 <? Matcher._calculate_compatibility py_sum user g)%float eqn:Hs.
  - destruct (Matcher._get_match_reasons user g) as [reasons|]; cbn [res_bind] in H;
      [|discriminate].
    destruct (Matcher.collect_matches py_sum user rest) as [more|]; cbn [res_bind] in H;
      [|discriminate].
    injection H as <-. cbn [app]. constructor.
    + cbn. split; [exact Hs|]. exists g. split; [now left | auto].
    + eapply Forall_impl; [apply IH; reflexivity|].
      intros m (? & g' & ? & ?). split; [assumption|]. exists g'. split; [now right | auto].
  - cbn [res_bind] in H.
    destruct (Matcher.collect_matches py_sum user rest) as [more|]; cbn [res_bind] in H;
      [|discriminate].
    injection H as <-. cbn [app].
    eapply Forall_impl; [apply IH; reflexivity|].
    intros m (? & g' & ? & ?). split; [assumption|]. exists g'. split; [now right | auto].
Qed.

(** X20.  The ranking of [find_best_matches]: every match returned comes
    from one of the groups with that group's score, the score exceeds 0.3,
    the matches are in descending order of score, and for a non-negative
    [limit] there are at most [limit] of them. *)
Theorem find_best_matches_ranked (py_sum : list float -> float) (user : Matcher.UserProfile)
    (groups : list Matcher.StudyGroupProfile) (limit : Z) :
  let result := Matcher.find_best_matches py_sum user groups limit in
  Forall (fun m =>
            (0.3 <? Matcher.compatibility_score m)%float = true /\
            exists g, In g groups /\
                      Matcher.m_group_id m = Matcher.group_id g /\
                      Matcher.compatibility_score m
                        = Matcher._calculate_compatibility py_sum user g) result /\
  Sorted (fun a b => (Matcher.compatibility_score b <=? Matcher.compatibility_score a)%float
                     = true) result /\
  (0 <= limit -> Z.of_nat (length result) <= limit).
Proof.
  cbv zeta. unfold Matcher.find_best_matches.
  destruct (Matcher.collect_matches py_sum user groups) as [matches|] eqn:Hc.
  2: { split; [constructor|]. split; [constructor | cbn; lia]. }
  pose proof (collect_matches_spec py_sum user groups matches Hc) as Hall.
  set (lt := fun a b : Matcher.Match =>
               (Matcher.compatibility_score b <? Matcher.compatibility_score a)%float).
  destruct (slice_to_take limit (PyList.sort lt matches)) as (k & Hk & Hlim).
  rewrite Hk.
  assert (Hres : Forall (fun m =>
            (0.3 <? Matcher.compatibility_score m)%float = true /\
            exists g, In g groups /\
                      Matcher.m_group_id m = Matcher.group_id g /\
                      Matcher.compatibility_score m
                        = Matcher._calculate_compatibility py_sum user g)
            (take k (PyList.sort lt matches))).
  { apply Forall_forall. intros m Hin.
    rewrite Forall_forall in Hall. apply Hall.
    apply (elem_of_submseteq (take k (PyList.sort lt matches))); [exact Hin|].
    etransitivity; [apply sublist_submseteq, sublist_take|].
    apply Permutation_submseteq, sort_perm. }
  split; [exact Hres|]. split.
  - apply (Sorted_strengthen (fun a b => lt b a = false) _
             (fun m => not_nan (Matcher.compatibility_score m))).
    + intros a b Ha Hb. unfold lt. now apply ltb_false_leb.
    + eapply Forall_impl; [exact Hres|]. intros m [Hm _]. now apply ltb_not_nan in Hm.
    + apply Sorted_take, sort_sorted. intros a b. unfold lt. apply ltb_asym.
  - intros Hl. rewrite length_take, (Hlim Hl). lia.
Qed.

(** ** Further properties: the growth of the interval *)

Lemma product_floor_bounds (P V M E W K z : Z) :
  5 <= P -> 0 < K -> W = z * K -> 1 <= z -> 4 * z < P ->
  M - E <= V <= M + E -> E * P <= M -> 0 <= E ->
  130 * W <= 100 * M <= 400 * W ->
  z <= V / K <= 4 * z.
Proof.
  intros HP HK HW Hz H4 [BL BU] HE HE0 [ML MU].
  assert (W0 : 0 < W) by (subst W; apply Z.mul_pos_pos; lia).
  split.
  - apply Z.div_le_lower_bound; [exact HK|]. rewrite Z.mul_comm, <- HW.
    assert (S1 : P * (M - E) <= P * V) by (apply Z.mul_le_mono_nonneg_l; lia).
    assert (S2 : (P - 1) * (130 * W) <= (P - 1) * (100 * M))
      by (apply Z.mul_le_mono_nonneg_l; lia).
    assert (S3 : (100 * P) * W <= (130 * (P - 1)) * W)
      by (apply Z.mul_le_mono_nonneg_r; lia).
    assert (S4 : (100 * P) * W <= (100 * P) * V) by lia.
    apply Z.mul_le_mono_pos_l in S4; lia.
  - apply Z.lt_succ_r, Z.div_lt_upper_bound; [exact HK|].
    assert (S1 : P * V <= P * (M + E)) by (apply Z.mul_le_mono_nonneg_l; lia).
    assert (S2 : (P + 1) * (100 * M) <= (P + 1) * (400 * W))
      by (apply Z.mul_le_mono_nonneg_l; lia).
    assert (S3 : (4 * z) * K < P * K) by (apply Z.mul_lt_mono_pos_r; lia).
    assert (S4 : P * V < P * (K * Z.succ (4 * z))).
    { replace (P * (K * Z.succ (4 * z))) with (4 * (P * W) + P * K) by (subst W; ring).
      replace (4 * z * K) with (4 * W) in S3 by (subst W; ring). lia. }
    apply Z.mul_lt_mono_pos_l in S4; lia.
Qed.

(** The integer part of the float product [interval * ease_factor] for an
    ease factor in range and an interval below [2^50]. *)
Lemma interval_product_bounds (z : Z) (i ease : float) :
  1 <= z < 2 ^ 50 -> PyFloat.of_int z = Ok i -> in_ease_range ease ->
  exists n, PyFloat.to_int (i * ease)%float = Ok n /\ z <= n <= 4 * z.
Proof.
  intros Hz Hi [Lo Hi'].
  destruct (of_int_exact z ltac:(change (2 ^ 53) with (8 * 2 ^ 50); lia))
    as (i' & mi & ei & Hi2 & Si & Hei & Emi & Bmi).
  rewrite Hi in Hi2. injection Hi2 as <-.
  destruct (in_range_shape ease Lo Hi') as (me & ee & Se & Hee & Be).
  assert (Vme := Prim2SF_valid ease). rewrite Se in Vme. cbn [valid_binary] in Vme.
  apply bounded_inv in Vme as (_ & Dme & Dn). specialize (Dn ltac:(lia)).
  pose proof (digits2_pos_bounds me) as [Lme Ume]. rewrite Dn in Lme, Ume.
  change (53 - 1) with 52 in Lme.
  unfold PyFloat.to_int. rewrite mul_spec, Si, Se. unfold SF64mul. cbn [SFmul xorb].
  set (M := (mi * me)%positive). set (e := ei + ee).
  assert (EM : Z.pos M = Z.pos mi * Z.pos me) by reflexivity.
  set (P52 := 2 ^ 52) in *. assert (HP52 : P52 = 4503599627370496) by reflexivity.
  assert (H53 : 2 ^ 53 = 2 * P52) by reflexivity. rewrite H53 in *.
  assert (HM : 2 ^ 104 <= Z.pos M < 2 ^ 106).
  { change (2 ^ 104) with (P52 * P52). change (2 ^ 106) with (2 * P52 * (2 * P52)).
    rewrite EM. nia. }
  pose proof (digits2_pos_bounds M) as [LM UM].
  assert (HD : 105 <= Z.pos (digits2_pos M) <= 106).
  { split; [apply (digits2_pos_ge M 104) | apply (digits2_pos_le M 106)]; lia. }
  set (D := Z.pos (digits2_pos M)) in *.
  destruct (binary_round_aux_faithful false M e loc_Exact)
    as [(m' & e' & R & He' & He1 & Hm' & B) | [_ Hinf]]; fold D; subst e; try lia.
  fold D in He', He1, B. rewrite R.
  set (e := ei + ee) in *.
  assert (Hne : 0 < - e) by (subst e; lia).
  set (V := Z.pos m' * 2 ^ (e' - e)) in *.
  set (K := 2 ^ (- e)). assert (HK : 0 < K) by (subst K; apply Z.pow_pos_nonneg; lia).
  (* the truncated value is V / K *)
  assert (Hn : (if 0 <=? e' then Z.pos m' * PyFloat.pow2 e'
                else Z.pos m' / PyFloat.pow2 (- e')) = V / K).
  { unfold PyFloat.pow2. destruct (Z.leb_spec 0 e') as [Hp | Hp].
    - subst V K. replace (e' - e) with (e' + - e) by lia.
      rewrite Z.pow_add_r by lia. rewrite Z.mul_assoc, Z.div_mul by lia. reflexivity.
    - subst V K. replace (- e) with (- e' + (e' - e)) by lia.
      rewrite Z.pow_add_r by lia.
      rewrite Z.div_mul_cancel_r; [reflexivity | | ];
        apply Z.pow_nonzero; lia. }
  exists (V / K). split; [now rewrite Hn|].
  (* the exact product, the error term and the bounds *)
  set (E := 2 ^ (D + (ei + ee) - 53 - e)) in *.
  assert (HE : E * P52 <= Z.pos M).
  { subst E P52. rewrite <- Z.pow_add_r by (subst e; lia).
    etransitivity; [|exact LM]. apply Z.pow_le_mono_r; subst e; lia. }
  assert (KK : K = 2 ^ (- ei) * 2 ^ (- ee)).
  { subst K e. rewrite <- Z.pow_add_r by lia. f_equal. lia. }
  assert (Hei' : 0 < 2 ^ (- ei)) by (apply Z.pow_pos_nonneg; lia).
  assert (Hee' : 0 < 2 ^ (- ee)) by (apply Z.pow_pos_nonneg; lia).
  set (A := 2 ^ (- ei)) in *. set (C := 2 ^ (- ee)) in *.
  assert (HMlo : 130 * (z * K) <= 100 * Z.pos M).
  { rewrite EM, Emi, KK. nia. }
  assert (HMhi : 100 * Z.pos M <= 400 * (z * K)).
  { rewrite EM, Emi, KK. nia. }
  assert (HzK : 0 < z * K) by nia.
  assert (H4z : 4 * z < P52).
  { rewrite HP52. change (2 ^ 50) with 1125899906842624 in Hz. lia. }
  assert (HE0 : 0 <= E) by (subst E; apply Z.lt_le_incl, Z.pow_pos_nonneg; lia).
  apply (product_floor_bounds P52 V (Z.pos M) E (z * K) K z);
    [lia | exact HK | reflexivity | lia | exact H4z | exact B | exact HE | exact HE0 |].
  split; [exact HMlo | exact HMhi].
Qed.

Lemma add_days_ok (now d bound : Z) :
  0 <= now -> 1 <= d <= bound -> now + bound * DateTime.us_per_day <= DateTime.max_us ->
  DateTime.add_days now d = Ok (now + d * DateTime.us_per_day).
Proof.
  intros Hn Hd Hb. unfold DateTime.add_days.
  assert (Hu : DateTime.us_per_day = 86400000000) by reflexivity.
  assert (Hm : DateTime.max_us = 3652059 * 86400000000 - 1) by reflexivity.
  destruct (Z.ltb_spec 999999999 (Z.abs d)) as [H | H]; [lia|].
  assert (H1 : (0 <=? now + d * DateTime.us_per_day) = true) by (apply Z.leb_le; lia).
  assert (H2 : (now + d * DateTime.us_per_day <=? DateTime.max_us) = true)
    by (apply Z.leb_le; lia).
  rewrite H1, H2. reflexivity.
Qed.

(** X21.  On a card whose ease factor lies in [1.3, 4.0] and whose interval
    is at least one day, [calculate_next_review] returns for every quality
    (in range or not) as long as the latest date it may compute, [now] plus
    [max(6, 4 * interval)] days, is a date that [datetime] represents; the
    interval of the result is at least one day and at most
    [max(6, 4 * interval)] days. *)
Theorem scheduler_returns_on_valid_cards (now : Z) (card : SM2.CardData) (quality : Z) :
  in_ease_range (SM2.ease_factor card) ->
  1 <= SM2.interval card ->
  0 <= now ->
  now + Z.max 6 (4 * SM2.interval card) * DateTime.us_per_day <= DateTime.max_us ->
  exists r, SM2.calculate_next_review now card quality = Ok r /\
            1 <= SM2.new_interval r <= Z.max 6 (4 * SM2.interval card).
Proof.
  intros He Hi Hn Hb.
  assert (Hsmall : SM2.interval card < 2 ^ 50).
  { assert (Hu : DateTime.us_per_day = 86400000000) by reflexivity.
    assert (Hm : DateTime.max_us = 3652059 * 86400000000 - 1) by reflexivity.
    rewrite Hu, Hm in Hb. change (2 ^ 50) with 1125899906842624. lia. }
  set (B := Z.max 6 (4 * SM2.interval card)) in *.
  assert (HB : 6 <= B /\ 4 * SM2.interval card <= B) by (subst B; lia).
  pose proof (validate_quality_range quality) as Hq.
  unfold SM2.calculate_next_review.
  set (q := SM2.validate_quality quality) in *.
  rewrite (update_ease_factor_eq _ q Hq).
  destruct (Z.ltb_spec q 3) as [Hq3 | Hq3]; cbn [res_bind].
  { rewrite (add_days_ok now 1 B Hn ltac:(lia) Hb). cbn [res_bind].
    eexists. split; [reflexivity|]. cbn. lia. }
  destruct (Z.eqb_spec (SM2.repetition_count card + 1) 1) as [R1 | R1]; cbn [res_bind].
  { rewrite (add_days_ok now 1 B Hn ltac:(lia) Hb). cbn [res_bind].
    eexists. split; [reflexivity|]. cbn. lia. }
  destruct (Z.eqb_spec (SM2.repetition_count card + 1) 2) as [R2 | R2]; cbn [res_bind].
  { rewrite (add_days_ok now 6 B Hn ltac:(lia) Hb). cbn [res_bind].
    eexists. split; [reflexivity|]. cbn. lia. }
  destruct (of_int_exact (SM2.interval card)
              ltac:(change (2 ^ 53) with (8 * 2 ^ 50); lia)) as (i & _ & _ & Ei & _).
  rewrite Ei. cbn [res_bind].
  destruct (interval_product_bounds (SM2.interval card) i _ (conj Hi Hsmall) Ei He)
    as (n & En & Bn).
  rewrite En. cbn [res_bind].
  rewrite (add_days_ok now n B Hn ltac:(lia) Hb). cbn [res_bind].
  eexists. split; [reflexivity|]. cbn. lia.
Qed.

Lemma scheduler_returns_on_valid_cards_witness :
  exists r, SM2.calculate_next_review sample_now sample_card 4 = Ok r /\
            1 <= SM2.new_interval r <= Z.max 6 (4 * SM2.interval sample_card).
Proof.
  apply (scheduler_returns_on_valid_cards sample_now sample_card 4).
  - split; vm_compute; reflexivity.
  - vm_compute. discriminate.
  - vm_compute. discriminate.
  - vm_compute. discriminate.
Defined.

(** X22.  From the third consecutive success on (the repetition count
    before the review is at least 2), a successful review never shortens
    the interval and at most quadruples it: for a card whose ease factor
    lies in [1.3, 4.0] and whose interval is between 1 and [2^50] days,
    every result of [calculate_next_review] with a quality of 3 or 4 has
    [interval <= new_interval <= 4 * interval]. *)
Theorem interval_grows_on_success (now : Z) (card : SM2.CardData) (quality : Z)
    (r : SM2.ReviewResult) :
  in_ease_range (SM2.ease_factor card) ->
  1 <= SM2.interval card < 2 ^ 50 ->
  3 <= quality <= 4 ->
  2 <= SM2.repetition_count card ->
  SM2.calculate_next_review now card quality = Ok r ->
  SM2.interval card <= SM2.new_interval r <= 4 * SM2.interval card.
Proof.
  intros He Hi Hq Hr H.
  apply calculate_next_review_inv in H. cbn zeta in H.
  rewrite (validate_quality_id quality) in H by lia.
  destruct H as (_ & _ & _ & _ & _ & _ & _ & _ & H).
  destruct (H ltac:(lia)) as (Rep & _ & _ & Hn).
  destruct (Hn ltac:(lia) ltac:(lia)) as (i & Ei & En).
  destruct (interval_product_bounds _ i _ Hi Ei He) as (n & En' & Bn).
  rewrite En in En'. injection En' as <-. exact Bn.
Qed.

Lemma interval_grows_on_success_witness :
  exists r, SM2.calculate_next_review sample_now sample_card 4 = Ok r /\
            SM2.interval sample_card <= SM2.new_interval r <= 4 * SM2.interval sample_card.
Proof.
  assert (E : exists r, SM2.calculate_next_review sample_now sample_card 4 = Ok r).
  { vm_compute. eexists. reflexivity. }
  destruct E as [r E]. exists r. split; [exact E|].
  apply (interval_grows_on_success sample_now sample_card 4 r).
  - split; vm_compute; reflexivity.
  - split; vm_compute; [discriminate | reflexivity].
  - lia.
  - vm_compute. discriminate.
  - exact E.
Defined.
